(** * PCA / clustering explorer: linked views and selection state

    A shallow embedding of
    [src/high_dimensional_analysis/pca_clustering_visual_analytics.py].

    The script is a Bokeh application: a scatter plot of two principal
    components, a subplot (histogram or bar chart) contrasting all rows with
    the lasso-selected rows, and three callbacks that mutate module-level
    globals.  The embedding keeps the script's own function names.

    Conventions.
    - Python exceptions are values of [exn]; a function that may raise
      returns a [result].  Callbacks mutate globals before they raise, so
      they return the session they leave behind together with the outcome.
    - A number in a cell is the rational it stands for ([Q]); NaN is a
      separate cell value.  Where NumPy computes in float64 (the edges
      and the bin indices of a histogram) every operation is the exact
      one followed by rounding to the nearest float64.
    - pandas, NumPy and Bokeh calls are modelled by their documented
      behaviour, as far as the script relies on it.  A Bokeh transform or
      figure is represented by the arguments the script passes to it,
      after the checks Bokeh makes on them.
    - The colour table [Turbo256], Python's number-to-text conversion and
      scikit-learn's [MiniBatchKMeans.fit] are parameters. *)

From Stdlib Require Import List String Ascii Bool Arith ZArith QArith Lia Lqa.
From Stdlib Require Import DecimalString OrderedTypeEx Sorted Qround Qpower.
Import ListNotations.

(** ** Python values, exceptions and results *)

Module Py.

(** A cell of a table or a Python scalar. *)
Inductive value : Type :=
| VNum (q : Q)
| VNaN
| VBool (b : bool)
| VStr (s : string).

(** The exceptions the script can run into.  [KeyError] carries the
    missing key, [AttributeError] the missing attribute and
    [UnboundLocalError] the unassigned local. *)
Inductive exn : Type :=
| KeyError (k : value)
| IndexError
| ValueError
| TypeError
| AttributeError (attr : string)
| UnboundLocalError (local : string).

Inductive result (A : Type) : Type :=
| Ok (a : A)
| Raise (e : exn).

Arguments Ok {A} a.
Arguments Raise {A} e.

Definition bind {A B : Type} (c : result A) (k : A -> result B) : result B :=
  match c with
  | Ok a => k a
  | Raise e => Raise e
  end.

Fixpoint mapM {A B : Type} (f : A -> result B) (l : list A) : result (list B) :=
  match l with
  | [] => Ok []
  | x :: r =>
      bind (f x) (fun y => bind (mapM f r) (fun ys => Ok (y :: ys)))
  end.

(** A number or a boolean read as a number ([True] is 1). *)
Definition as_number (v : value) : option Q :=
  match v with
  | VNum q => Some q
  | VBool true => Some 1%Q
  | VBool false => Some 0%Q
  | _ => None
  end.

(** [==] as hashing containers use it: numbers by value, text by
    characters, NaN equal to nothing. *)
Definition value_eqb (v w : value) : bool :=
  match v, w with
  | VStr s, VStr t => String.eqb s t
  | _, _ =>
      match as_number v, as_number w with
      | Some p, Some q => Qeq_bool p q
      | _, _ => false
      end
  end.

(** [<] on scalars: every comparison with NaN is false.  The script only
    compares cells of one numeric column. *)
Definition value_ltb (v w : value) : bool :=
  match v, w with
  | VStr s, VStr t => String.ltb s t
  | _, _ =>
      match as_number v, as_number w with
      | Some p, Some q => negb (Qle_bool q p)
      | _, _ => false
      end
  end.

(** The builtins [min] and [max] keep the first extremal item and raise
    [ValueError] on an empty sequence. *)
Definition py_min (l : list value) : result value :=
  match l with
  | [] => Raise ValueError
  | x :: r => Ok (fold_left (fun m y => if value_ltb y m then y else m) r x)
  end.

Definition py_max (l : list value) : result value :=
  match l with
  | [] => Raise ValueError
  | x :: r => Ok (fold_left (fun m y => if value_ltb m y then y else m) r x)
  end.

(** [v >= 0]. *)
Definition value_nonneg (v : value) : bool :=
  match as_number v with
  | Some q => Qle_bool 0 q
  | None => false
  end.

(** [str(n)] for an integer. *)
Definition str_of_int (n : Z) : string := NilZero.string_of_int (Z.to_int n).

(** The items of a string when it is iterated: its characters. *)
Definition chars (s : string) : list string :=
  map (fun c => String c EmptyString) (list_ascii_of_string s).

End Py.

Import Py.

Declare Scope py_scope.
Delimit Scope py_scope with py.
Notation "x <- c ;; k" := (bind c (fun x => k))
  (at level 61, c at next level, right associativity) : py_scope.
Notation "' p <- c ;; k" := (bind c (fun x => match x with p => k end))
  (at level 61, p pattern, c at next level, right associativity) : py_scope.
Open Scope py_scope.
Open Scope string_scope.
Open Scope Z_scope.

(** ** pandas: frames, columns, positional selection, counting *)

Module Pandas.

Inductive dtype : Type :=
| int64 | float64 | bool_ | object_ | datetime64 | timedelta64 | category.

(** [pandas.api.types.is_numeric_dtype]: integers, floats and also
    booleans; dates, durations, categoricals and objects are not. *)
Definition is_numeric_dtype (d : dtype) : bool :=
  match d with
  | int64 | float64 | bool_ => true
  | _ => false
  end.

Definition is_object_dtype (d : dtype) : bool :=
  match d with
  | object_ => true
  | _ => false
  end.

(** A [Series]: one column with its dtype. *)
Record Series : Type := { s_dtype : dtype; s_values : list value }.

(** A [DataFrame], row-major: the header names the columns and gives
    their dtypes, every row has one cell per column.  Column names are
    unique in a table read from CSV. *)
Record DataFrame : Type := {
  columns : list (string * dtype);
  rows : list (list value)
}.

Definition column_names (df : DataFrame) : list string := map fst (columns df).

Fixpoint index_of (name : string) (l : list string) : option nat :=
  match l with
  | [] => None
  | x :: r =>
      if String.eqb x name then Some O
      else option_map S (index_of name r)
  end.

Definition cell (j : nat) (r : list value) : value := nth j r VNaN.

(** [df[col]]: the column, or [KeyError]. *)
Definition getitem (df : DataFrame) (col : string) : result Series :=
  match index_of col (column_names df) with
  | None => Raise (KeyError (VStr col))
  | Some j =>
      Ok {| s_dtype := snd (nth j (columns df) (col, object_));
            s_values := map (cell j) (rows df) |}
  end.

(** One position of [iloc]: negative positions count from the end, a
    position outside [-n, n) raises [IndexError]. *)
Definition iloc_row (rs : list (list value)) (i : Z) : result (list value) :=
  let n := Z.of_nat (List.length rs) in
  if (0 <=? i) && (i <? n) then Ok (nth (Z.to_nat i) rs [])
  else if (- n <=? i) && (i <? 0) then Ok (nth (Z.to_nat (i + n)) rs [])
  else Raise IndexError.

(** [df.iloc[positions]]: the rows at the positions, in the order given,
    repeated positions repeated. *)
Definition iloc (df : DataFrame) (positions : list Z) : result DataFrame :=
  rs <- mapM (iloc_row (rows df)) positions ;;
  Ok {| columns := columns df; rows := rs |}.

(** [pd.DataFrame(columns=df.columns)]: no rows, every column of object
    dtype. *)
Definition empty_like (df : DataFrame) : DataFrame :=
  {| columns := map (fun c => (fst c, object_)) (columns df); rows := [] |}.

Definition set_cell (j : nat) (r : list value) (v : value) : list value :=
  (firstn j r ++ v :: skipn (S j) r)%list.

Fixpoint set_header (name : string) (d : dtype) (h : list (string * dtype))
  : list (string * dtype) :=
  match h with
  | [] => [(name, d)]
  | c :: r =>
      if String.eqb (fst c) name then (name, d) :: r
      else c :: set_header name d r
  end.

Definition column_slot (df : DataFrame) (name : string) : nat :=
  match index_of name (column_names df) with
  | Some j => j
  | None => List.length (columns df)
  end.

(** Python's [repr] of a list of strings (that hold no quote and need no
    escape). *)
Definition repr_list (l : list string) : string :=
  "[" ++ String.concat ", " (map (fun s => "'" ++ s ++ "'") l) ++ "]".

(** The labels of [cols] that are no column of [df]. *)
Definition missing_labels (df : DataFrame) (cols : list string) : list string :=
  filter (fun c => match index_of c (column_names df) with
                   | None => true
                   | Some _ => false
                   end) cols.

(** The distinct items in the order of their first occurrence. *)
Fixpoint first_seen (l : list string) : list string :=
  match l with
  | [] => []
  | x :: r => x :: filter (fun y => negb (String.eqb x y)) (first_seen r)
  end.

(** [df[[c1, c2]]]: the rows restricted to the named columns.  When a
    label is missing the lookup raises [KeyError] with a message, not with
    the label: one text when every label is missing, another that lists
    the missing ones otherwise (the wording is that of pandas 2). *)
Definition getitems (df : DataFrame) (cols : list string)
  : result (list (list value)) :=
  match missing_labels df cols with
  | [] =>
      Ok (map (fun r => map (fun c => cell (column_slot df c) r) cols) (rows df))
  | m :: ms =>
      if Nat.eqb (List.length (m :: ms)) (List.length cols) then
        Raise (KeyError (VStr ("None of [Index(" ++ repr_list cols
                               ++ ", dtype='object')] are in the [columns]")))
      else
        Raise (KeyError (VStr (repr_list (first_seen (m :: ms)) ++ " not in index")))
  end.

(** [df[name] = values]: replaces the column or appends it; an array of
    the wrong length raises [ValueError]. *)
Definition setitem (df : DataFrame) (name : string) (d : dtype)
    (vals : list value) : result DataFrame :=
  if Nat.eqb (List.length vals) (List.length (rows df)) then
    let j := column_slot df name in
    Ok {| columns := set_header name d (columns df);
          rows := map (fun rv => set_cell j (fst rv) (snd rv))
                      (combine (rows df) vals) |}
  else Raise ValueError.

(** [df[name] = scalar]: the scalar in every row. *)
Definition setitem_scalar (df : DataFrame) (name : string) (d : dtype)
    (v : value) : DataFrame :=
  let j := column_slot df name in
  {| columns := set_header name d (columns df);
     rows := map (fun r => set_cell j r v) (rows df) |}.

(** Counting distinct keys in first-seen order. *)
Fixpoint bump {A : Type} (eqb : A -> A -> bool) (x : A) (acc : list (A * Z))
  : list (A * Z) :=
  match acc with
  | [] => [(x, 1)]
  | (y, n) :: r =>
      if eqb y x then (y, n + 1) :: r else (y, n) :: bump eqb x r
  end.

Definition tally {A : Type} (eqb : A -> A -> bool) (l : list A) : list (A * Z) :=
  fold_left (fun acc x => bump eqb x acc) l [].

(** Largest count first; keys with equal counts keep their order. *)
Fixpoint insert_desc {A : Type} (e : A * Z) (l : list (A * Z)) : list (A * Z) :=
  match l with
  | [] => [e]
  | f :: r => if snd f <=? snd e then e :: l else f :: insert_desc e r
  end.

Definition sort_desc {A : Type} (l : list (A * Z)) : list (A * Z) :=
  fold_right (@insert_desc A) [] l.

Definition isna (v : value) : bool :=
  match v with VNaN => true | _ => false end.

(** [Series.value_counts()]: missing cells dropped, one entry per
    distinct value, sorted by count. *)
Definition series_value_counts (vals : list value) : list (value * Z) :=
  sort_desc (tally value_eqb (filter (fun v => negb (isna v)) vals)).

Fixpoint row_eqb (r s : list value) : bool :=
  match r, s with
  | [], [] => true
  | v :: r', w :: s' => value_eqb v w && row_eqb r' s'
  | _, _ => false
  end.

(** [DataFrame.value_counts()]: counts whole rows, over all columns;
    rows with a missing cell are dropped.  The result is indexed by the
    row tuples. *)
Definition frame_value_counts (df : DataFrame) : list (list value * Z) :=
  sort_desc (tally row_eqb (filter (fun r => negb (existsb isna r)) (rows df))).

(** [key in counts.index] for a scalar key and an index of row tuples: a
    partial lookup, true when some tuple starts with the key. *)
Definition starts_with (key : value) (e : list value * Z) : bool :=
  match fst e with
  | v :: _ => value_eqb v key
  | [] => false
  end.

Definition index_contains (counts : list (list value * Z)) (key : value) : bool :=
  existsb (starts_with key) counts.

(** The tuples a partial lookup [counts[key]] matches. *)
Definition partial_getitem (counts : list (list value * Z)) (key : value)
  : list (list value * Z) :=
  filter (starts_with key) counts.

(** The dtypes [select_dtypes(include=np.number)] keeps: those whose
    scalar type descends from [np.number], which leaves booleans out and
    takes durations in. *)
Definition is_np_number (d : dtype) : bool :=
  match d with
  | int64 | float64 | timedelta64 => true
  | _ => false
  end.

(** [series.astype(str)] cell by cell; [num_text] is Python's text for a
    number. *)
Definition astype_str (num_text : Q -> string) (v : value) : string :=
  match v with
  | VStr s => s
  | VNaN => "nan"
  | VBool true => "True"
  | VBool false => "False"
  | VNum q => num_text q
  end.

End Pandas.

Import Pandas.

(** ** NumPy: unique, linspace, histogram *)

Module Numpy.

(** [np.unique] on text: sorted (by code point), duplicates removed. *)
Fixpoint insert_unique (s : string) (l : list string) : list string :=
  match l with
  | [] => [s]
  | x :: r =>
      match String.compare s x with
      | Lt => s :: l
      | Eq => l
      | Gt => x :: insert_unique s r
      end
  end.

Definition unique (l : list string) : list string :=
  fold_right insert_unique [] l.

(** *** float64

    NumPy computes bin edges and bin indices in float64.  A float64 is
    modelled by the rational it stands for, and an operation by the exact
    operation followed by rounding to 53 significant bits, to nearest,
    a tie going to the even significand.  The exponent range is taken
    unbounded: overflow to infinity and the subnormal numbers are not
    modelled. *)

(** [2 ^ e], also for a negative exponent. *)
Definition pow2 (e : Z) : Q := (2 ^ e)%Q.

(** The exponent of a positive number: [2 ^ e <= x < 2 ^ (e + 1)]. *)
Definition ilog2 (x : Q) : Z :=
  let k := Z.log2 (Qnum x) - Z.log2 (Zpos (Qden x)) in
  if Qle_bool (pow2 k) x then k else k - 1.

(** The nearest integer, a tie going to the even one. *)
Definition rint (x : Q) : Z :=
  let f := Qfloor x in
  match (x - inject_Z f ?= 1 # 2)%Q with
  | Lt => f
  | Gt => f + 1
  | Eq => if Z.even f then f else f + 1
  end.

(** A positive number rounded to 53 significant bits. *)
Definition round53 (x : Q) : Q :=
  let u := pow2 (ilog2 x - 52) in
  (inject_Z (rint (x / u)) * u)%Q.

(** The float64 nearest to a number: what [astype(float64)] and every
    float64 operation return. *)
Definition round64 (x : Q) : Q :=
  match (x ?= 0)%Q with
  | Eq => 0%Q
  | Gt => Qred (round53 x)
  | Lt => Qred (- round53 (- x))
  end.

(** The integer a non-negative or negative float is cast to: the
    fraction is dropped. *)
Definition Qtrunc (x : Q) : Z := Z.quot (Qnum x) (Zpos (Qden x)).

(** [np.linspace(start, stop, num)] in float64: the step is the rounded
    width over [num - 1], point [i] is [i * step + start] with both
    operations rounded (or [(i / div) * delta + start] when the step
    rounds to zero), and the last point is set to [stop] itself. *)
Definition linspace (start stop : Q) (num : nat) : list Q :=
  match num with
  | O => []
  | S O => [round64 start]
  | S div =>
      let start := round64 start in
      let stop := round64 stop in
      let delta := round64 (stop - start) in
      let step := round64 (delta / inject_Z (Z.of_nat div)) in
      let point (i : nat) :=
        let y := inject_Z (Z.of_nat i) in
        if Qeq_bool step 0
        then round64 (round64 (round64 (y / inject_Z (Z.of_nat div)) * delta)
                      + start)
        else round64 (round64 (y * step) + start) in
      (map point (seq 0 div) ++ [stop])%list
  end.

(** The array as numbers: NaN is [None], text cannot be binned. *)
Definition as_floats (a : list value) : result (list (option Q)) :=
  mapM (fun v => match v with
                 | VStr _ => Raise TypeError
                 | _ => Ok (as_number v)
                 end) a.

Fixpoint finite (xs : list (option Q)) : list Q :=
  match xs with
  | [] => []
  | Some q :: r => q :: finite r
  | None :: r => finite r
  end.

Definition is_nan (x : option Q) : bool :=
  match x with None => true | Some _ => false end.

Definition qmin (l : list Q) (d : Q) : Q :=
  fold_left (fun m x => if Qle_bool x m then x else m) l d.

Definition qmax (l : list Q) (d : Q) : Q :=
  fold_left (fun m x => if Qle_bool m x then x else m) l d.

(** The range of an automatic histogram: (0, 1) for no data, the data's
    minimum and maximum otherwise; when they coincide the range is
    widened by a half on both sides, in float64, and the flag says so.
    A NaN makes the range non-finite ([ValueError]). *)
Definition outer_edges (xs : list (option Q)) : result (Q * Q * bool) :=
  if existsb is_nan xs then Raise ValueError
  else
    match finite xs with
    | [] => Ok (0, 1, false)%Q
    | x :: r =>
        let lo := qmin r x in
        let hi := qmax r x in
        if Qeq_bool lo hi
        then Ok (round64 (round64 lo - (1 # 2)), round64 (round64 hi + (1 # 2)),
                 true)%Q
        else Ok (lo, hi, false)
    end.

Fixpoint monotonic (edges : list Q) : bool :=
  match edges with
  | a :: (b :: _) as t => Qle_bool a b && monotonic t
  | _ => true
  end.

(** [lo <= x <= hi]. *)
Definition in_range (lo hi : Q) (x : Q) : bool := Qle_bool lo x && Qle_bool x hi.

(** Membership in the bin [lo, hi): the last bin also holds [hi]. *)
Definition in_bin (lo hi : Q) (last : bool) (x : Q) : bool :=
  Qle_bool lo x && (if last then Qle_bool x hi else negb (Qle_bool hi x)).

Definition count_if {A : Type} (p : A -> bool) (l : list A) : Z :=
  Z.of_nat (List.length (filter p l)).

(** Counting over given edges.  NumPy sorts the values and searches each
    edge in them; the difference of two consecutive positions is the
    number of values from the left edge up to, not including, the right
    edge, the last bin including it. *)
Fixpoint bin_counts (edges : list Q) (xs : list Q) : list Z :=
  match edges with
  | lo :: (hi :: rest) as t =>
      let last := match rest with [] => true | _ => false end in
      count_if (in_bin lo hi last) xs :: bin_counts t xs
  | _ => []
  end.

(** [bin_edges[i]]: a negative position counts from the end, a position
    outside raises [IndexError]. *)
Definition edge_at (edges : list Q) (i : Z) : result Q :=
  let n := Z.of_nat (List.length edges) in
  if (0 <=? i) && (i <? n) then Ok (nth (Z.to_nat i) edges 0%Q)
  else if (- n <=? i) && (i <? 0) then Ok (nth (Z.to_nat (i + n)) edges 0%Q)
  else Raise IndexError.

(** The bin of one value [x] among [n] bins of equal width: the index
    [(x - first) / norm_denom * n], every operation rounded, cast to an
    integer, is moved down from [n] to [n - 1], then down by one if [x]
    lies below the edge at the index and up by one if [x] has reached
    the next edge (except in the last bin).  A zero [norm_denom] makes
    the index NaN or infinite; its cast to an integer is undefined and
    gives, on x86-64, the most negative integer, which is no position of
    [bin_edges]. *)
Definition uniform_index (first norm_denom : Q) (n : nat) (edges : list Q)
    (x : Q) : result Z :=
  if Qeq_bool norm_denom 0 then Raise IndexError
  else
    let f := round64 (round64 (round64 (x - round64 first) / norm_denom)
                      * inject_Z (Z.of_nat n)) in
    let i0 := Qtrunc f in
    let i1 := if i0 =? Z.of_nat n then i0 - 1 else i0 in
    e <- edge_at edges i1 ;;
    let i2 := if Qle_bool e x then i1 else i1 - 1 in
    e' <- edge_at edges (i2 + 1) ;;
    Ok (if Qle_bool e' x && negb (i2 =? Z.of_nat n - 1) then i2 + 1 else i2).

(** [np.bincount(indices, minlength=n)] added to an array of [n] zeros:
    a negative index and an index past the end are both refused with
    [ValueError]. *)
Definition bincount (n : nat) (indices : list Z) : result (list Z) :=
  if forallb (fun i => (0 <=? i) && (i <? Z.of_nat n)) indices
  then Ok (map (fun b => count_if (Z.eqb (Z.of_nat b)) indices) (seq 0 n))
  else Raise ValueError.

(** The [bins] argument of [np.histogram]: a number of equal-width bins
    or the edges themselves. *)
Inductive bins_arg : Type :=
| BinCount (n : nat)
| BinEdges (edges : list Q).

(** [np.histogram(a, bins)]: the counts and the edges.

    For a number of bins the edges are [linspace] over the range of the
    data and every value inside the range (compared in float64 once the
    range was widened) is binned by [uniform_index].

    For given edges, which must not decrease, the values are counted as
    float64 by [bin_counts]; values outside all bins are not counted. *)
Definition histogram (a : list value) (bins : bins_arg)
  : result (list Z * list Q) :=
  match bins with
  | BinCount n =>
      if Nat.eqb n 0 then Raise ValueError
      else
        xs <- as_floats a ;;
        ' (first, last, widened) <- outer_edges xs ;;
        let edges := linspace first last (S n) in
        let kept :=
          filter (fun v => in_range first last (if widened then round64 v else v))
                 (finite xs) in
        let norm_denom := round64 (last - first) in
        indices <- mapM (fun v => uniform_index first norm_denom n edges
                                    (round64 v)) kept ;;
        top <- bincount n indices ;;
        Ok (top, edges)
  | BinEdges edges =>
      if monotonic edges then
        xs <- as_floats a ;;
        Ok (bin_counts edges (map round64 (finite xs)), edges)
      else Raise ValueError
  end.

(** [array.max()]: [ValueError] on an empty array. *)
Definition array_max (a : list Z) : result Z :=
  match a with
  | [] => Raise ValueError
  | x :: r => Ok (fold_left Z.max r x)
  end.

(** An item of a Python list of counts: an integer or, after a partial
    lookup, a whole series. *)
Inductive count_item : Type :=
| CInt (n : Z)
| CSeries (s : list (list value * Z)).

(** [np.concatenate((counts, items))] of an integer array and a list: a
    list holding a series is ragged or two-dimensional and is refused. *)
Definition concatenate (counts : list Z) (items : list count_item)
  : result (list Z) :=
  ys <- mapM (fun e => match e with
                       | CInt n => Ok n
                       | CSeries _ => Raise ValueError
                       end) items ;;
  Ok (counts ++ ys)%list.

End Numpy.

Import Numpy.

(** [counts[key]] for a scalar key and counts indexed by row tuples, as
    an item of the list the script collects: the sub-series of the
    matching tuples, not a number.  Only when the index has a single
    level (the frame has one column) and one tuple matches does pandas
    return the count itself. *)
Definition counts_getitem (nlevels : nat) (counts : list (list value * Z))
    (key : value) : count_item :=
  match nlevels, partial_getitem counts key with
  | 1%nat, [(_, n)] => CInt n
  | _, sub => CSeries sub
  end.

(** ** What the script hands to Bokeh *)

(** A palette argument: a sequence of colours, or one string. *)
Inductive palette : Type :=
| PSeq (colors : list string)
| PStr (color : string).

(** Iterating a palette, as [zip] does: the colours of a sequence, the
    characters of a string. *)
Definition palette_items (p : palette) : list string :=
  match p with
  | PSeq l => l
  | PStr s => chars s
  end.

(** The colour transforms of [bokeh.transform], by their arguments. *)
Inductive mapper : Type :=
| factor_cmap (field : string) (pal : palette) (factors : list string)
| log_cmap (field : string) (pal : list string) (low high : value)
| linear_cmap (field : string) (pal : list string) (low high : value).

(** Calling [factor_cmap] builds a [CategoricalColorMapper], whose
    [palette] property is a sequence of colours: a list or tuple passes,
    one colour string such as '#30123b' is refused with [ValueError] (a
    string counts as a palette only if it names one, which a hex colour
    does not). *)
Definition checked_factor_cmap (field : string) (pal : palette)
    (factors : list string) : result mapper :=
  match pal with
  | PSeq _ => Ok (factor_cmap field pal factors)
  | PStr _ => Raise ValueError
  end.

Inductive legend : Type :=
| ColorBar (pal : list string) (low high : value)
| LegendLeft
| LegendInside.

(** The scatter plot.  Its glyph reads the shared data source of the
    session (not a copy) and takes its legend from the field 'label'. *)
Record ScatterSpec : Type := {
  sc_title : string;
  sc_x : string;
  sc_y : string;
  sc_fill_color : mapper;
  sc_legend_field : string;
  sc_legend : legend
}.

(** The histogram: one quad per bin for all rows and one for the selected
    rows, both on the same [left] and [right] edges. *)
Record HistSpec : Type := {
  h_title : string;
  h_left : list Q;
  h_right : list Q;
  h_all : list Z;
  h_selected : list Z;
  h_y_range : Q * Q
}.

Record BarSpec : Type := {
  b_title : string;
  b_x : list value;
  b_counts : list Z;
  b_color : list string;
  b_label : list string;
  b_x_range : list value;
  b_y_range : Q * Q
}.

Inductive SubplotSpec : Type :=
| Hist (h : HistSpec)
| Bar (b : BarSpec).

(** The name [reset_index] gives the column that receives the index:
    'index', or 'level_0' when the frame has a column 'index' already
    (pandas refuses a frame that has both; the model then keeps
    'level_0'). *)
Definition index_name (df : DataFrame) : string :=
  if existsb (String.eqb "index") (column_names df) then "level_0" else "index".

(** [ColumnDataSource(data=df)]: a dictionary from column name to array.
    Bokeh resets the index of a copy of the frame first, so the index
    comes in front as a column of its own; the script's frames have the
    default index 0, 1, ..., n - 1 that [read_csv] gave them. *)
Definition ColumnDataSource (df : DataFrame) : list (string * list value) :=
  (index_name df,
   map (fun i => VNum (inject_Z (Z.of_nat i))) (seq 0 (List.length (rows df))))
  :: map (fun j => (fst (nth j (columns df) ("", object_)), map (cell j) (rows df)))
         (seq 0 (List.length (columns df))).

Fixpoint dict_set {V : Type} (k : string) (v : V) (d : list (string * V))
  : list (string * V) :=
  match d with
  | [] => [(k, v)]
  | e :: r => if String.eqb (fst e) k then (k, v) :: r else e :: dict_set k v r
  end.

Fixpoint dict_get {V : Type} (k : string) (d : list (string * V)) : option V :=
  match d with
  | [] => None
  | e :: r => if String.eqb (fst e) k then Some (snd e) else dict_get k r
  end.

(** ** The script *)

Section Explorer.

(** [bokeh.palettes.Turbo256]: a tuple of 256 colours. *)
Variable Turbo256 : list string.

(** Python's text for a number. *)
Variable num_text : Q -> string.

(** *** 1.2 Clustering *)

(** The state of NumPy's global random generator, [np.random.seed], and
    [MiniBatchKMeans(n_clusters, n_init).fit(X)] with its [labels_]: the
    fit draws from the global generator and raises or returns one label
    per row. *)
Variable rng : Type.
Variable np_random_seed : Z -> rng.
Variable MiniBatchKMeans_fit :
  Z -> Z -> list (list value) -> rng -> result (list Z) * rng.

Definition clustering (df : DataFrame) (n_clusters : Z) (g : rng)
  : result DataFrame * rng :=
  match getitems df ["PCA 1"; "PCA 2"] with
  | Raise e => (Raise e, g)
  | Ok X_pca =>
      let g0 := np_random_seed 0 in
      match MiniBatchKMeans_fit n_clusters 2 X_pca g0 with
      | (Raise e, g1) => (Raise e, g1)
      | (Ok labels_, g1) =>
          let y_pred := map (fun l => VStr (str_of_int l)) labels_ in
          (setitem df "Cluster" object_ y_pred, g1)
      end
  end.

(** *** 2.1 Colour map of a feature *)

Definition create_cmap (df : DataFrame) (col : string)
  : result (mapper * option (list (string * string))) :=
  c <- getitem df col ;;
  if is_object_dtype (s_dtype c) then
    let l := unique (map (astype_str num_text) (s_values c)) in
    pal <- (if Nat.eqb (List.length l) 2 then Ok (PSeq ["#000000"; "#FFFFFF"])
            else match nth_error Turbo256 (List.length l) with
                 | Some color => Ok (PStr color)
                 | None => Raise IndexError
                 end) ;;
    m <- checked_factor_cmap col pal l ;;
    let cat_palette := combine l (palette_items pal) in
    Ok (m, Some cat_palette)
  else if is_numeric_dtype (s_dtype c) then
    lo <- py_min (s_values c) ;;
    hi <- py_max (s_values c) ;;
    let m := if value_nonneg lo then log_cmap col Turbo256 lo hi
             else linear_cmap col Turbo256 lo hi in
    Ok (m, None)
  else Raise (UnboundLocalError "mapper").

(** *** 2.2 The scatter plot

    The script passes the shared data source along; the glyph keeps a
    reference to it, so the plot is described without it. *)

Definition plot_pca (df : DataFrame) (ft_selected : string) : result ScatterSpec :=
  let c := ft_selected in
  ' (m, _) <- create_cmap df c ;;
  s <- getitem df c ;;
  lg <- (if is_numeric_dtype (s_dtype s) then
           lo <- py_min (s_values s) ;;
           hi <- py_max (s_values s) ;;
           Ok (ColorBar Turbo256 lo hi)
         else if is_object_dtype (s_dtype s) then Ok LegendLeft
         else Ok LegendInside) ;;
  Ok {| sc_title := "PCA with Color Map on " ++ c;
        sc_x := "PCA 1";
        sc_y := "PCA 2";
        sc_fill_color := m;
        sc_legend_field := "label";
        sc_legend := lg |}.

(** *** 2.3 Histogram of a numeric feature

    [s] holds the selected rows, [top] and [edges] the histogram of all
    rows, [top_s] the histogram of the selected rows over [edges]. *)

Definition draw_hist (df : DataFrame) (col : string) (points_selected : list Z)
  : result HistSpec :=
  s <- (match points_selected with
        | [] => Ok (empty_like df)
        | _ => iloc df points_selected
        end) ;;
  a <- getitem df col ;;
  ' (top, edges) <- histogram (s_values a) (BinCount 50) ;;
  a_s <- getitem s col ;;
  ' (top_s, _) <- histogram (s_values a_s) (BinEdges edges) ;;
  m <- array_max top ;;
  Ok {| h_title := "Histogram of " ++ col;
        h_left := removelast edges;
        h_right := tl edges;
        h_all := top;
        h_selected := top_s;
        h_y_range := (0, (11 # 10) * inject_Z m)%Q |}.

(** *** 2.4 Bar chart of a categorical feature

    [dis] counts the values of the column over all rows; [dis_s] is
    [s.value_counts()], the counts of the selected rows as whole rows. *)

Definition palette_color (cat_palette : option (list (string * string)))
    (c : value) : result string :=
  match cat_palette with
  | None => Raise TypeError
  | Some d =>
      match c with
      | VStr k => match dict_get k d with
                  | Some color => Ok color
                  | None => Raise (KeyError c)
                  end
      | _ => Raise (KeyError c)
      end
  end.

Definition draw_bar_chart (df : DataFrame) (col : string)
    (points_selected : list Z) : result BarSpec :=
  s <- (if (0 <? Z.of_nat (List.length points_selected))
        then iloc df points_selected
        else Ok (empty_like df)) ;;
  a <- getitem df col ;;
  let dis := series_value_counts (s_values a) in
  let dis_s := frame_value_counts s in
  let cat := map fst dis in
  let count := map snd dis in
  let count_s :=
    map (fun c => if index_contains dis_s c
                  then counts_getitem (List.length (columns s)) dis_s c
                  else CInt 0) cat in
  ' (_, cat_palette) <- create_cmap df col ;;
  cat_color <- mapM (palette_color cat_palette) cat ;;
  counts <- concatenate count count_s ;;
  m <- array_max count ;;
  Ok {| b_title := "Distribution of " ++ col;
        b_x := (cat ++ cat)%list;
        b_counts := counts;
        b_color := (cat_color ++ cat_color)%list;
        b_label := (repeat "all" (List.length cat)
                    ++ repeat "selected" (List.length cat))%list;
        b_x_range := cat;
        b_y_range := (0, inject_Z m * (11 # 10))%Q |}.

(** *** The subplot, by the dtype of the feature *)

Definition draw_subplot (df : DataFrame) (ft_selected : string)
    (points_selected : list Z) : result SubplotSpec :=
  let cs := ft_selected in
  let rs := points_selected in
  a <- getitem df cs ;;
  if is_numeric_dtype (s_dtype a) then
    sub_p <- draw_hist df cs rs ;; Ok (Hist sub_p)
  else if is_object_dtype (s_dtype a) then
    sub_p <- draw_bar_chart df cs rs ;; Ok (Bar sub_p)
  else Raise (UnboundLocalError "sub_p").

(** *** Module-level state *)

(** The globals of the script and the two plots held by the layout. *)
Record Session : Type := {
  df : DataFrame;
  p_pca_source : list (string * list value);
  pca_ft_selected : string;
  sub_ft_selected : string;
  points_selected : list Z;
  layout_p_pca : ScatterSpec;
  layout_p_sub : SubplotSpec
}.

(** The top-level statements after [clustering]: the initial features,
    the empty selection, the 'label' column, the data source and the two
    initial plots. *)
Definition startup (df0 : DataFrame) : result Session :=
  let pca_ft := "Market Cap" in
  let sub_ft := "Mean Recommendation" in
  let points : list Z := [] in
  let df1 := setitem_scalar df0 "label" object_ (VStr pca_ft) in
  let source := ColumnDataSource df1 in
  p_pca <- plot_pca df1 pca_ft ;;
  p_sub <- draw_subplot df1 sub_ft points ;;
  Ok {| df := df1;
        p_pca_source := source;
        pca_ft_selected := pca_ft;
        sub_ft_selected := sub_ft;
        points_selected := points;
        layout_p_pca := p_pca;
        layout_p_sub := p_sub |}.

(** *** 3.2 and 3.3 Callbacks

    A callback returns the session it leaves behind and its outcome: an
    assignment made before an exception stays made. *)

Definition set_pca_ft (st : Session) (v : string) : Session :=
  {| df := df st; p_pca_source := p_pca_source st;
     pca_ft_selected := v; sub_ft_selected := sub_ft_selected st;
     points_selected := points_selected st;
     layout_p_pca := layout_p_pca st; layout_p_sub := layout_p_sub st |}.

Definition set_source (st : Session) (d : list (string * list value)) : Session :=
  {| df := df st; p_pca_source := d;
     pca_ft_selected := pca_ft_selected st; sub_ft_selected := sub_ft_selected st;
     points_selected := points_selected st;
     layout_p_pca := layout_p_pca st; layout_p_sub := layout_p_sub st |}.

Definition set_layout_p_pca (st : Session) (p : ScatterSpec) : Session :=
  {| df := df st; p_pca_source := p_pca_source st;
     pca_ft_selected := pca_ft_selected st; sub_ft_selected := sub_ft_selected st;
     points_selected := points_selected st;
     layout_p_pca := p; layout_p_sub := layout_p_sub st |}.

Definition set_sub_ft (st : Session) (v : string) : Session :=
  {| df := df st; p_pca_source := p_pca_source st;
     pca_ft_selected := pca_ft_selected st; sub_ft_selected := v;
     points_selected := points_selected st;
     layout_p_pca := layout_p_pca st; layout_p_sub := layout_p_sub st |}.

Definition set_points (st : Session) (l : list Z) : Session :=
  {| df := df st; p_pca_source := p_pca_source st;
     pca_ft_selected := pca_ft_selected st; sub_ft_selected := sub_ft_selected st;
     points_selected := l;
     layout_p_pca := layout_p_pca st; layout_p_sub := layout_p_sub st |}.

Definition set_layout_p_sub (st : Session) (p : SubplotSpec) : Session :=
  {| df := df st; p_pca_source := p_pca_source st;
     pca_ft_selected := pca_ft_selected st; sub_ft_selected := sub_ft_selected st;
     points_selected := points_selected st;
     layout_p_pca := layout_p_pca st; layout_p_sub := p |}.

Definition update_pca_col (attrname old new : string) (st : Session)
  : Session * result unit :=
  let st1 := set_pca_ft st new in
  match getitem (df st1) new with
  | Raise e => (st1, Raise e)
  | Ok a =>
      let st2 := set_source st1 (dict_set "label" (s_values a) (p_pca_source st1)) in
      match plot_pca (df st2) (pca_ft_selected st2) with
      | Raise e => (st2, Raise e)
      | Ok p_pca => (set_layout_p_pca st2 p_pca, Ok tt)
      end
  end.

Definition update_sub_col (attrname old new : string) (st : Session)
  : Session * result unit :=
  let st1 := set_sub_ft st new in
  match draw_subplot (df st1) (sub_ft_selected st1) (points_selected st1) with
  | Raise e => (st1, Raise e)
  | Ok p => (set_layout_p_sub st1 p, Ok tt)
  end.

(** The value an [on_change] callback receives: a selection object,
    which has an attribute [indices], or a plain list, which has not. *)
Inductive change_value : Type :=
| Selection (indices : list Z)
| IndexList (l : list Z).

Definition lasso_update (attr : string) (old new : change_value) (st : Session)
  : Session * result unit :=
  match new with
  | IndexList _ => (st, Raise (AttributeError "indices"))
  | Selection indices =>
      let st1 := set_points st indices in
      match draw_subplot (df st1) (sub_ft_selected st1) (points_selected st1) with
      | Raise e => (st1, Raise e)
      | Ok p => (set_layout_p_sub st1 p, Ok tt)
      end
  end.

(** ** Properties *)

(** *** Lookups *)

Lemma index_of_none (name : string) (l : list string) :
  ~ In name l -> index_of name l = None.
Proof.
  induction l as [|x r IH]; intros Hn; simpl; [reflexivity|].
  destruct (String.eqb_spec x name) as [->|Hne].
  - exfalso. apply Hn. now left.
  - rewrite IH; [reflexivity|]. intros Hin. apply Hn. now right.
Qed.

Lemma getitem_unknown (d : DataFrame) (col : string) :
  ~ In col (column_names d) -> getitem d col = Raise (KeyError (VStr col)).
Proof.
  intros Hn. unfold getitem. now rewrite (index_of_none _ _ Hn).
Qed.

Lemma dict_get_set {V : Type} (k : string) (v : V) (d : list (string * V)) :
  dict_get k (dict_set k v d) = Some v.
Proof.
  induction d as [|e r IH]; simpl.
  - now rewrite String.eqb_refl.
  - destruct (String.eqb (fst e) k) eqn:E; simpl.
    + now rewrite String.eqb_refl.
    + now rewrite E.
Qed.

(** *** Results and lists *)

Lemma mapM_ok {A B : Type} (f : A -> result B) (l : list A) (ys : list B) :
  mapM f l = Ok ys -> Forall2 (fun x y => f x = Ok y) l ys.
Proof.
  revert ys. induction l as [|x r IH]; simpl; intros ys H.
  - inversion H. constructor.
  - destruct (f x) as [y|e] eqn:Ex; simpl in H; [|discriminate].
    destruct (mapM f r) as [zs|e] eqn:Er; simpl in H; [|discriminate].
    inversion H; subst. constructor; [exact Ex|]. now apply IH.
Qed.

Lemma mapM_total {A B : Type} (f : A -> result B) (g : A -> B) (l : list A) :
  (forall x, In x l -> f x = Ok (g x)) -> mapM f l = Ok (map g l).
Proof.
  induction l as [|x r IH]; simpl; intros H; [reflexivity|].
  rewrite (H x (or_introl eq_refl)). simpl.
  rewrite IH; [reflexivity|]. intros y Hy. apply H. now right.
Qed.

(** *** float64 rounding

    Powers of two, the exponent of a number and the nearest integer,
    then the two facts the histograms rest on: rounding keeps the order
    of numbers and leaves a float64 as it is. *)

Lemma pow2_pos (e : Z) : (0 < pow2 e)%Q.
Proof using Type. apply Qpower_0_lt. reflexivity. Qed.

Lemma pow2_add (a b : Z) : (pow2 (a + b) == pow2 a * pow2 b)%Q.
Proof using Type. apply Qpower_plus. discriminate. Qed.

Lemma pow2_le (a b : Z) : a <= b -> (pow2 a <= pow2 b)%Q.
Proof using Type. intros H. apply Qpower_le_compat_l; [exact H|discriminate]. Qed.

Lemma pow2_lt (a b : Z) : a < b -> (pow2 a < pow2 b)%Q.
Proof using Type. intros H. apply Qpower_lt_compat_l; [exact H|reflexivity]. Qed.

Lemma pow2_Z (a : Z) : 0 <= a -> (pow2 a == inject_Z (2 ^ a))%Q.
Proof using Type. intros H. unfold pow2. now rewrite Zpower_Qpower. Qed.

Lemma pow2_succ (a : Z) : (pow2 (a + 1) == 2 * pow2 a)%Q.
Proof using Type. rewrite pow2_add. change (pow2 1) with 2%Q. ring. Qed.

(** *** The exponent *)

Lemma ilog2_spec (x : Q) :
  (0 < x)%Q -> (pow2 (ilog2 x) <= x)%Q /\ (x < pow2 (ilog2 x + 1))%Q.
Proof using Type.
  intros Hx. unfold ilog2.
  destruct x as [n d]. simpl Qnum. simpl Qden.
  assert (Hn : 0 < n) by (unfold Qlt in Hx; simpl in Hx; lia).
  set (a := Z.log2 n). set (b := Z.log2 (Zpos d)).
  assert (Ha0 : 0 <= a) by apply Z.log2_nonneg.
  assert (Hb0 : 0 <= b) by apply Z.log2_nonneg.
  destruct (Z.log2_spec n Hn) as [Ha1 Ha2]. fold a in Ha1, Ha2.
  destruct (Z.log2_spec (Zpos d) (Pos2Z.is_pos d)) as [Hb1 Hb2]. fold b in Hb1, Hb2.
  assert (Qa1 : (pow2 a <= inject_Z n)%Q) by (rewrite pow2_Z, <- Zle_Qle; lia).
  assert (Qa2 : (inject_Z n < pow2 (a + 1))%Q)
    by (rewrite pow2_Z, <- Zlt_Qlt; [exact Ha2|lia]).
  assert (Qb1 : (pow2 b <= inject_Z (Zpos d))%Q) by (rewrite pow2_Z, <- Zle_Qle; lia).
  assert (Qb2 : (inject_Z (Zpos d) < pow2 (b + 1))%Q)
    by (rewrite pow2_Z, <- Zlt_Qlt; [exact Hb2|lia]).
  assert (Hd : (0 < inject_Z (Zpos d))%Q) by reflexivity.
  assert (Ex : ((n # d) * inject_Z (Zpos d) == inject_Z n)%Q).
  { rewrite Qmake_Qdiv. field. intros E. rewrite E in Hd. discriminate. }
  assert (Hup : (n # d < pow2 (a - b + 1))%Q).
  { apply (Qmult_lt_r _ _ (inject_Z (Zpos d)) Hd). rewrite Ex.
    apply Qlt_le_trans with (pow2 (a + 1)); [exact Qa2|].
    replace (a + 1) with ((a - b + 1) + b) by ring. rewrite pow2_add.
    apply Qmult_le_l; [apply pow2_pos|exact Qb1]. }
  assert (Hlo : (pow2 (a - b - 1) < n # d)%Q).
  { apply (Qmult_lt_r _ _ (inject_Z (Zpos d)) Hd). rewrite Ex.
    apply Qlt_le_trans with (pow2 a); [|exact Qa1].
    replace a with ((a - b - 1) + (b + 1)) at 2 by ring. rewrite pow2_add.
    apply Qmult_lt_l; [apply pow2_pos|exact Qb2]. }
  destruct (Qle_bool (pow2 (a - b)) (n # d)) eqn:E.
  - apply Qle_bool_iff in E. split; assumption.
  - apply not_true_iff_false in E. rewrite Qle_bool_iff in E.
    apply Qnot_le_lt in E.
    replace (a - b - 1 + 1) with (a - b) by ring.
    split; [apply Qlt_le_weak; exact Hlo|exact E].
Qed.

Lemma ilog2_unique (x : Q) (e : Z) :
  (pow2 e <= x)%Q -> (x < pow2 (e + 1))%Q -> ilog2 x = e.
Proof using Type.
  intros H1 H2.
  assert (Hx : (0 < x)%Q) by (eapply Qlt_le_trans; [apply (pow2_pos e)|exact H1]).
  destruct (ilog2_spec x Hx) as [G1 G2].
  assert (A : ilog2 x < e + 1).
  { apply Qpower_lt_compat_l_inv with 2%Q; [|reflexivity].
    eapply Qle_lt_trans; [exact G1|exact H2]. }
  assert (B : e < ilog2 x + 1).
  { apply Qpower_lt_compat_l_inv with 2%Q; [|reflexivity].
    eapply Qle_lt_trans; [exact H1|exact G2]. }
  lia.
Qed.

Lemma ilog2_comp (x y : Q) : (0 < x)%Q -> (x == y)%Q -> ilog2 x = ilog2 y.
Proof using Type.
  intros Hx E. symmetry. destruct (ilog2_spec x Hx) as [G1 G2].
  apply ilog2_unique; rewrite <- E; assumption.
Qed.

Lemma ilog2_mono (x y : Q) : (0 < x)%Q -> (x <= y)%Q -> ilog2 x <= ilog2 y.
Proof using Type.
  intros Hx Hxy.
  assert (Hy : (0 < y)%Q) by (eapply Qlt_le_trans; eassumption).
  destruct (ilog2_spec x Hx) as [G1 _]. destruct (ilog2_spec y Hy) as [_ G2].
  assert (A : ilog2 x < ilog2 y + 1).
  { apply Qpower_lt_compat_l_inv with 2%Q; [|reflexivity].
    eapply Qle_lt_trans; [exact G1|]. eapply Qle_lt_trans; [exact Hxy|exact G2]. }
  lia.
Qed.

(** *** The nearest integer *)

Lemma rint_comp (x y : Q) : (x == y)%Q -> rint x = rint y.
Proof using Type.
  intros E. unfold rint. rewrite (Qfloor_comp x y E).
  assert (E' : (x - inject_Z (Qfloor y) == y - inject_Z (Qfloor y))%Q)
    by (rewrite E; reflexivity).
  now rewrite (Qcompare_comp _ _ E' (1 # 2)%Q (1 # 2)%Q (Qeq_refl _)).
Qed.

Lemma rint_Z (k : Z) : rint (inject_Z k) = k.
Proof using Type.
  unfold rint. rewrite Qfloor_Z.
  assert (E : (inject_Z k - inject_Z k ?= 1 # 2)%Q = Lt).
  { apply (proj1 (Qlt_alt _ _)). lra. }
  now rewrite E.
Qed.

Lemma rint_floor (x : Q) : Qfloor x <= rint x <= Qfloor x + 1.
Proof using Type.
  unfold rint. destruct (x - inject_Z (Qfloor x) ?= 1 # 2)%Q;
    [destruct (Z.even (Qfloor x))|..]; lia.
Qed.

Lemma rint_mono (x y : Q) : (x <= y)%Q -> rint x <= rint y.
Proof using Type.
  intros Hxy. pose proof (Qfloor_resp_le x y Hxy) as Hf.
  pose proof (rint_floor x) as Bx. pose proof (rint_floor y) as By.
  destruct (Z.eq_dec (Qfloor x) (Qfloor y)) as [E|E]; [|lia].
  unfold rint. rewrite <- E.
  destruct (Qcompare_spec (x - inject_Z (Qfloor x)) (1 # 2)) as [H1|H1|H1];
    destruct (Qcompare_spec (y - inject_Z (Qfloor x)) (1 # 2)) as [H2|H2|H2];
    try (destruct (Z.even (Qfloor x))); try lia; exfalso; lra.
Qed.

(** The nearest integer is at most a half away. *)
Lemma rint_near (x : Q) :
  (x - (1 # 2) <= inject_Z (rint x))%Q /\ (inject_Z (rint x) <= x + (1 # 2))%Q.
Proof using Type.
  pose proof (Qfloor_le x) as H1. pose proof (Qlt_floor x) as H2.
  rewrite inject_Z_plus in H2. change (inject_Z 1) with 1%Q in H2.
  unfold rint.
  destruct (Qcompare_spec (x - inject_Z (Qfloor x)) (1 # 2)) as [H|H|H].
  - destruct (Z.even (Qfloor x)); [|rewrite inject_Z_plus; change (inject_Z 1) with 1%Q];
      split; lra.
  - split; lra.
  - rewrite inject_Z_plus. change (inject_Z 1) with 1%Q. split; lra.
Qed.

Lemma rint_ge (x : Q) (k : Z) : (inject_Z k <= x)%Q -> k <= rint x.
Proof using Type. intros H. rewrite <- (rint_Z k). now apply rint_mono. Qed.

Lemma rint_le (x : Q) (k : Z) : (x <= inject_Z k)%Q -> rint x <= k.
Proof using Type. intros H. rewrite <- (rint_Z k). now apply rint_mono. Qed.

(** *** Rounding a positive number *)

Lemma pow2_52 : (pow2 52 == inject_Z (2 ^ 52))%Q.
Proof using Type. apply pow2_Z. lia. Qed.

Lemma pow2_53 : (pow2 53 == inject_Z (2 ^ 53))%Q.
Proof using Type. apply pow2_Z. lia. Qed.

(** The significand of [x] on the grid of its binade. *)
Lemma significand_range (x : Q) :
  (0 < x)%Q ->
  let u := pow2 (ilog2 x - 52) in
  (inject_Z (2 ^ 52) <= x / u)%Q /\ (x / u < inject_Z (2 ^ 53))%Q.
Proof using Type.
  intros Hx u. destruct (ilog2_spec x Hx) as [G1 G2].
  assert (Hu : (0 < u)%Q) by apply pow2_pos.
  split.
  - apply Qle_shift_div_l; [exact Hu|].
    rewrite <- pow2_52. unfold u. rewrite <- pow2_add.
    replace (52 + (ilog2 x - 52)) with (ilog2 x) by ring. exact G1.
  - apply Qlt_shift_div_r; [exact Hu|].
    rewrite <- pow2_53. unfold u. rewrite <- pow2_add.
    replace (53 + (ilog2 x - 52)) with (ilog2 x + 1) by ring. exact G2.
Qed.

Lemma round53_range (x : Q) :
  (0 < x)%Q ->
  (pow2 (ilog2 x) <= round53 x)%Q /\ (round53 x <= pow2 (ilog2 x + 1))%Q.
Proof using Type.
  intros Hx. destruct (significand_range x Hx) as [S1 S2]. cbv zeta in S1, S2.
  unfold round53. set (u := pow2 (ilog2 x - 52)) in *.
  assert (Hu : (0 < u)%Q) by apply pow2_pos.
  pose proof (rint_ge _ _ S1) as R1.
  pose proof (rint_le _ _ (Qlt_le_weak _ _ S2)) as R2.
  rewrite Zle_Qle in R1, R2. rewrite <- pow2_52 in R1. rewrite <- pow2_53 in R2.
  split.
  - replace (ilog2 x) with (52 + (ilog2 x - 52)) at 1 by ring.
    rewrite pow2_add. fold u. apply Qmult_le_compat_r; [exact R1|now apply Qlt_le_weak].
  - replace (ilog2 x + 1) with (53 + (ilog2 x - 52)) by ring.
    rewrite pow2_add. fold u. apply Qmult_le_compat_r; [exact R2|now apply Qlt_le_weak].
Qed.

Lemma round53_pos (x : Q) : (0 < x)%Q -> (0 < round53 x)%Q.
Proof using Type.
  intros Hx. eapply Qlt_le_trans; [apply (pow2_pos (ilog2 x))|].
  now apply round53_range.
Qed.

Lemma round53_comp (x y : Q) : (0 < x)%Q -> (x == y)%Q -> (round53 x == round53 y)%Q.
Proof using Type.
  intros Hx E. unfold round53. rewrite <- (ilog2_comp x y Hx E).
  rewrite (rint_comp (x / pow2 (ilog2 x - 52)) (y / pow2 (ilog2 x - 52))).
  - reflexivity.
  - unfold Qdiv. apply Qmult_comp; [exact E|reflexivity].
Qed.

Lemma round53_mono (x y : Q) :
  (0 < x)%Q -> (x <= y)%Q -> (round53 x <= round53 y)%Q.
Proof using Type.
  intros Hx Hxy.
  assert (Hy : (0 < y)%Q) by (eapply Qlt_le_trans; eassumption).
  pose proof (ilog2_mono x y Hx Hxy) as He.
  destruct (Z.eq_dec (ilog2 x) (ilog2 y)) as [E|E].
  - unfold round53. rewrite <- E. set (u := pow2 (ilog2 x - 52)).
    assert (Hu : (0 < u)%Q) by apply pow2_pos.
    apply Qmult_le_compat_r; [|now apply Qlt_le_weak].
    rewrite <- Zle_Qle. apply rint_mono.
    apply Qmult_le_compat_r; [exact Hxy|].
    apply Qlt_le_weak. now apply Qinv_lt_0_compat.
  - destruct (round53_range x Hx) as [_ U]. destruct (round53_range y Hy) as [L _].
    eapply Qle_trans; [exact U|]. eapply Qle_trans; [|exact L].
    apply pow2_le. lia.
Qed.

(** A number that lies on the grid of its binade is not moved. *)
Lemma round53_grid (r s : Z) :
  2 ^ 52 <= r < 2 ^ 53 ->
  (round53 (inject_Z r * pow2 s) == inject_Z r * pow2 s)%Q.
Proof using Type.
  intros [R1 R2].
  assert (Hs : (0 < pow2 s)%Q) by apply pow2_pos.
  assert (E : ilog2 (inject_Z r * pow2 s) = s + 52).
  { apply ilog2_unique.
    - replace (s + 52) with (52 + s) by ring. rewrite pow2_add, pow2_52.
      apply Qmult_le_compat_r; [now rewrite <- Zle_Qle|now apply Qlt_le_weak].
    - replace (s + 52 + 1) with (53 + s) by ring. rewrite pow2_add, pow2_53.
      apply Qmult_lt_compat_r; [exact Hs|now rewrite <- Zlt_Qlt]. }
  unfold round53. rewrite E. replace (s + 52 - 52) with s by ring.
  rewrite (rint_comp (inject_Z r * pow2 s / pow2 s) (inject_Z r)).
  - now rewrite rint_Z.
  - field. intros F. rewrite F in Hs. discriminate.
Qed.

Lemma round53_idem (x : Q) : (0 < x)%Q -> (round53 (round53 x) == round53 x)%Q.
Proof using Type.
  intros Hx. destruct (significand_range x Hx) as [S1 S2]. cbv zeta in S1, S2.
  pose proof (rint_ge _ _ S1) as R1.
  pose proof (rint_le _ _ (Qlt_le_weak _ _ S2)) as R2.
  unfold round53 at 2 3.
  set (r := rint (x / pow2 (ilog2 x - 52))) in *.
  set (s := ilog2 x - 52).
  destruct (Z.eq_dec r (2 ^ 53)) as [E|E].
  - assert (G : (inject_Z r * pow2 s == inject_Z (2 ^ 52) * pow2 (s + 1))%Q).
    { rewrite E, pow2_succ. change (2 ^ 53) with (2 * 2 ^ 52).
      rewrite inject_Z_mult. change (inject_Z 2) with 2%Q. ring. }
    transitivity (round53 (inject_Z (2 ^ 52) * pow2 (s + 1))).
    + apply round53_comp; [exact (round53_pos x Hx)|exact G].
    + rewrite G. apply round53_grid. lia.
  - apply round53_grid. lia.
Qed.

(** Rounding moves a number up by less than one part in [2 ^ 52]. *)
Lemma round53_above (x : Q) :
  (0 < x)%Q -> (round53 x <= x + x * (1 # 2 ^ 53))%Q.
Proof using Type.
  intros Hx. destruct (significand_range x Hx) as [S1 _]. cbv zeta in S1.
  unfold round53. set (u := pow2 (ilog2 x - 52)) in *.
  assert (Hu : (0 < u)%Q) by apply pow2_pos.
  destruct (rint_near (x / u)) as [_ N].
  assert (A : (inject_Z (rint (x / u)) * u <= (x / u + (1 # 2)) * u)%Q)
    by (apply Qmult_le_compat_r; [exact N|now apply Qlt_le_weak]).
  assert (B : ((x / u + (1 # 2)) * u == x + (1 # 2) * u)%Q).
  { field. intros F. rewrite F in Hu. discriminate. }
  assert (C : (inject_Z (2 ^ 52) * u <= x)%Q).
  { apply (Qmult_le_compat_r _ _ u) in S1; [|now apply Qlt_le_weak].
    assert (D : (x / u * u == x)%Q) by (field; intros F; rewrite F in Hu; discriminate).
    now rewrite D in S1. }
  rewrite B in A. eapply Qle_trans; [exact A|].
  change (inject_Z (2 ^ 52)) with (4503599627370496 # 1)%Q in C.
  change (1 # 2 ^ 53)%Q with (1 # 9007199254740992)%Q.
  lra.
Qed.

(** *** The nearest float64 *)

Lemma round64_zero (x : Q) : (x == 0)%Q -> round64 x = 0%Q.
Proof using Type.
  intros E. unfold round64.
  destruct (Qcompare_spec x 0) as [H|H|H]; [reflexivity|exfalso; lra..].
Qed.

Lemma round64_pos (x : Q) : (0 < x)%Q -> round64 x = Qred (round53 x).
Proof using Type.
  intros E. unfold round64.
  destruct (Qcompare_spec x 0) as [H|H|H]; [exfalso; lra..|reflexivity].
Qed.

Lemma round64_neg (x : Q) : (x < 0)%Q -> round64 x = Qred (- round53 (- x)).
Proof using Type.
  intros E. unfold round64.
  destruct (Qcompare_spec x 0) as [H|H|H]; [exfalso; lra|reflexivity|exfalso; lra].
Qed.

Lemma round64_comp (x y : Q) : (x == y)%Q -> round64 x = round64 y.
Proof using Type.
  intros E. destruct (Qcompare_spec x 0) as [H|H|H].
  - rewrite (round64_zero x H). rewrite E in H. now rewrite (round64_zero y H).
  - rewrite (round64_neg x H). assert (H' : (y < 0)%Q) by now rewrite <- E.
    rewrite (round64_neg y H'). apply Qred_complete.
    assert (Hm : (0 < - x)%Q) by lra.
    rewrite (round53_comp (- x) (- y) Hm); [reflexivity|now rewrite E].
  - rewrite (round64_pos x H). assert (H' : (0 < y)%Q) by now rewrite <- E.
    rewrite (round64_pos y H'). apply Qred_complete. now apply round53_comp.
Qed.

Lemma round64_sign (x : Q) :
  ((0 < x)%Q -> (0 < round64 x)%Q) /\ ((x < 0)%Q -> (round64 x < 0)%Q).
Proof using Type.
  split; intros H.
  - rewrite (round64_pos x H), Qred_correct. now apply round53_pos.
  - rewrite (round64_neg x H), Qred_correct.
    assert (Hm : (0 < - x)%Q) by lra. pose proof (round53_pos _ Hm). lra.
Qed.

Lemma round64_mono (x y : Q) : (x <= y)%Q -> (round64 x <= round64 y)%Q.
Proof using Type.
  intros Hxy.
  destruct (Qcompare_spec x 0) as [Hx|Hx|Hx];
    destruct (Qcompare_spec y 0) as [Hy|Hy|Hy]; try (exfalso; lra).
  - rewrite (round64_zero x Hx), (round64_zero y Hy). apply Qle_refl.
  - rewrite (round64_zero x Hx). apply Qlt_le_weak. now apply round64_sign.
  - rewrite (round64_zero y Hy). apply Qlt_le_weak. now apply round64_sign.
  - rewrite (round64_neg x Hx), (round64_neg y Hy), !Qred_correct.
    apply Qopp_le_compat. apply round53_mono; lra.
  - apply Qlt_le_weak. apply Qlt_trans with 0%Q; now apply round64_sign.
  - rewrite (round64_pos x Hx), (round64_pos y Hy), !Qred_correct.
    now apply round53_mono.
Qed.

Lemma round64_idem (x : Q) : round64 (round64 x) = round64 x.
Proof using Type.
  destruct (Qcompare_spec x 0) as [Hx|Hx|Hx].
  - rewrite (round64_zero x Hx). reflexivity.
  - pose proof (proj2 (round64_sign x) Hx) as Hs.
    rewrite (round64_neg _ Hs). rewrite (round64_neg x Hx) at 2.
    apply Qred_complete.
    assert (Hm : (0 < - x)%Q) by lra.
    assert (E : (- round64 x == round53 (- x))%Q).
    { rewrite (round64_neg x Hx), Qred_correct. ring. }
    apply Qopp_comp. transitivity (round53 (round53 (- x))).
    + apply round53_comp; [lra|exact E].
    + now apply round53_idem.
  - pose proof (proj1 (round64_sign x) Hx) as Hs.
    rewrite (round64_pos _ Hs). rewrite (round64_pos x Hx) at 2.
    apply Qred_complete.
    assert (E : (round64 x == round53 x)%Q).
    { rewrite (round64_pos x Hx). apply Qred_correct. }
    transitivity (round53 (round53 x)).
    + apply round53_comp; [exact Hs|exact E].
    + now apply round53_idem.
Qed.

Lemma round64_above (x : Q) :
  (0 <= x)%Q -> (round64 x <= x + x * (1 # 2 ^ 53))%Q.
Proof using Type.
  intros H. destruct (Qcompare_spec x 0) as [Hx|Hx|Hx]; [|exfalso; lra|].
  - rewrite (round64_zero x Hx). rewrite Hx. discriminate.
  - rewrite (round64_pos x Hx), Qred_correct. now apply round53_above.
Qed.

Lemma round64_one : round64 1 = 1%Q.
Proof using Type. vm_compute. reflexivity. Qed.

Lemma round64_fifty : round64 50 = 50%Q.
Proof using Type. vm_compute. reflexivity. Qed.

Lemma round64_tenth :
  round64 (1 # 10) = (3602879701896397 # 36028797018963968)%Q.
Proof using Type. vm_compute. reflexivity. Qed.

Lemma round64_big :
  round64 (inject_Z (2 ^ 53 + 1)) = inject_Z (2 ^ 53)
  /\ round64 (inject_Z (2 ^ 53 + 3)) = inject_Z (2 ^ 53 + 4)
  /\ round64 (inject_Z (2 ^ 63 - 2)) = inject_Z (2 ^ 63).
Proof using Type. vm_compute. repeat split. Qed.

(** *** Histograms *)

Definition is_text (v : value) : bool :=
  match v with VStr _ => true | _ => false end.

Lemma as_floats_ok (a : list value) (xs : list (option Q)) :
  as_floats a = Ok xs ->
  xs = map as_number a /\ forall v, In v a -> is_text v = false.
Proof.
  unfold as_floats. revert xs. induction a as [|v r IH]; simpl; intros xs H.
  - inversion H. split; [reflexivity|]. intros v [].
  - destruct v as [q| |b|s]; simpl in H; try discriminate;
      (destruct (mapM _ r) as [zs|e] eqn:Er; simpl in H; [|discriminate];
       inversion H; subst; destruct (IH zs eq_refl) as [-> Hr];
       split; [reflexivity|]; intros v [<-|Hv]; [reflexivity|now apply Hr]).
Qed.

Lemma as_floats_numbers (a : list value) :
  (forall v, In v a -> is_text v = false) -> as_floats a = Ok (map as_number a).
Proof.
  intros H. unfold as_floats. apply mapM_total.
  intros v Hv. specialize (H v Hv). destruct v; simpl in *; try reflexivity.
  discriminate.
Qed.

Lemma linspace_length (a b : Q) (n : nat) :
  List.length (linspace a b (S n)) = S n.
Proof.
  destruct n as [|k]; [reflexivity|].
  unfold linspace. cbv zeta. rewrite length_app, length_map, length_seq.
  simpl. lia.
Qed.

Lemma monotonic_ramp (f : nat -> Q) (b : Q) (m s : nat) :
  (forall i, (f i <= f (S i))%Q) ->
  (f (s + m)%nat <= b)%Q ->
  monotonic (map f (seq s (S m)) ++ [b])%list = true.
Proof.
  intros Hstep. revert s. induction m as [|m IH]; intros s Hb.
  - simpl. rewrite Nat.add_0_r in Hb.
    apply andb_true_intro. split; [now apply Qle_bool_iff|reflexivity].
  - change (map f (seq s (S (S m))) ++ [b])%list
      with (f s :: (map f (seq (S s) (S m)) ++ [b]))%list.
    specialize (IH (S s)).
    rewrite Nat.add_succ_r in Hb. specialize (IH Hb).
    simpl in IH |- *. rewrite IH.
    apply andb_true_intro. split; [|reflexivity].
    apply Qle_bool_iff. apply Hstep.
Qed.

(** The first point of [linspace] is [start] and the last is [stop], both
    as float64. *)
Lemma linspace_ends (a b : Q) (k : nat) :
  exists t,
    linspace a b (S (S k)) = round64 a :: t
    /\ t <> []
    /\ forall d, last t d = round64 b.
Proof using Type.
  unfold linspace. cbv zeta.
  set (delta := round64 (round64 b - round64 a)).
  set (div := inject_Z (Z.of_nat (S k))).
  set (step := round64 (delta / div)).
  set (point := fun i : nat =>
         if Qeq_bool step 0
         then round64 (round64 (round64 (inject_Z (Z.of_nat i) / div) * delta)
                       + round64 a)
         else round64 (round64 (inject_Z (Z.of_nat i) * step) + round64 a)).
  assert (H0 : point 0%nat = round64 a).
  { unfold point. change (inject_Z (Z.of_nat 0)) with 0%Q.
    destruct (Qeq_bool step 0).
    - rewrite (round64_zero (0 / div)) by (unfold Qdiv; ring).
      rewrite (round64_zero (0 * delta)) by ring.
      rewrite (round64_comp (0 + round64 a) (round64 a)) by ring.
      apply round64_idem.
    - rewrite (round64_zero (0 * step)) by ring.
      rewrite (round64_comp (0 + round64 a) (round64 a)) by ring.
      apply round64_idem. }
  exists (map point (seq 1 k) ++ [round64 b])%list.
  change (seq 0 (S k)) with (0%nat :: seq 1 k). cbn [map app]. rewrite H0.
  repeat split.
  - intros E. apply (f_equal (@List.length Q)) in E.
    rewrite length_app in E. simpl in E. lia.
  - intros d. apply last_last.
Qed.

(** The 51 edges of 50 bins do not decrease: the points grow with the
    index, and the last computed point stays below [stop] because three
    roundings cannot make up for the missing fiftieth of the width. *)
Lemma monotonic_linspace (a b : Q) :
  (a <= b)%Q -> monotonic (linspace a b 51) = true.
Proof using Type.
  intros Hab. unfold linspace. cbv zeta.
  set (start := round64 a). set (stop := round64 b).
  set (delta := round64 (stop - start)).
  change (inject_Z (Z.of_nat 50)) with 50%Q.
  set (step := round64 (delta / 50)).
  assert (Hss : (start <= stop)%Q) by (now apply round64_mono).
  assert (Hd0 : (0 <= delta)%Q).
  { rewrite <- (round64_zero 0 (Qeq_refl 0)). apply round64_mono. lra. }
  assert (Hq0 : (0 <= delta / 50)%Q) by (apply Qle_shift_div_l; [reflexivity|lra]).
  assert (Hs0 : (0 <= step)%Q).
  { rewrite <- (round64_zero 0 (Qeq_refl 0)). now apply round64_mono. }
  assert (Hstop : round64 stop = stop) by apply round64_idem.
  assert (Hstart : round64 start = start) by apply round64_idem.
  apply (monotonic_ramp _ stop 49 0%nat).
  - intros i.
    assert (Hi : (inject_Z (Z.of_nat i) <= inject_Z (Z.of_nat (S i)))%Q)
      by (rewrite <- Zle_Qle; lia).
    destruct (Qeq_bool step 0).
    + apply round64_mono. apply Qplus_le_compat; [|apply Qle_refl].
      apply round64_mono. apply Qmult_le_compat_r; [|exact Hd0].
      apply round64_mono. apply Qmult_le_compat_r; [exact Hi|discriminate].
    + apply round64_mono. apply Qplus_le_compat; [|apply Qle_refl].
      apply round64_mono. apply Qmult_le_compat_r; [exact Hi|exact Hs0].
  - cbn [Nat.add]. change (inject_Z (Z.of_nat 49)) with 49%Q.
    destruct (Qeq_bool step 0) eqn:Ez.
    + apply Qeq_bool_iff in Ez.
      assert (Hdz : (delta == 0)%Q).
      { destruct (Qlt_le_dec 0 delta) as [Hp|Hn]; [|lra].
        assert (Hp' : (0 < delta / 50)%Q) by (apply Qlt_shift_div_l; [reflexivity|lra]).
        pose proof (proj1 (round64_sign _) Hp') as Hc. fold step in Hc. lra. }
      rewrite (round64_zero (round64 (49 / 50) * delta)) by (rewrite Hdz; ring).
      rewrite (round64_comp (0 + start) start) by ring.
      rewrite Hstart. exact Hss.
    + rewrite <- Hstop. apply round64_mono.
      assert (Hw : (0 <= stop - start)%Q) by lra.
      pose proof (round64_above _ Hw) as A1. fold delta in A1.
      pose proof (round64_above _ Hq0) as A2. fold step in A2.
      assert (H49 : (0 <= 49 * step)%Q) by lra.
      pose proof (round64_above _ H49) as A3.
      assert (Eq : (delta / 50 * 50 == delta)%Q) by field.
      set (q := (delta / 50)%Q) in *.
      change (1 # 2 ^ 53)%Q with (1 # 9007199254740992)%Q in A1, A2, A3.
      lra.
Qed.

Lemma qmin_le (l : list Q) (d : Q) : (qmin l d <= d)%Q.
Proof.
  unfold qmin. revert d. induction l as [|x r IH]; intros d; simpl.
  - apply Qle_refl.
  - destruct (Qle_bool x d) eqn:E.
    + apply Qle_bool_iff in E. eapply Qle_trans; [apply IH|exact E].
    + apply IH.
Qed.

Lemma qmax_ge (l : list Q) (d : Q) : (d <= qmax l d)%Q.
Proof.
  unfold qmax. revert d. induction l as [|x r IH]; intros d; simpl.
  - apply Qle_refl.
  - destruct (Qle_bool d x) eqn:E.
    + apply Qle_bool_iff in E. eapply Qle_trans; [exact E|apply IH].
    + apply IH.
Qed.

Lemma outer_edges_ordered (xs : list (option Q)) (lo hi : Q) (w : bool) :
  outer_edges xs = Ok (lo, hi, w) -> (lo <= hi)%Q.
Proof.
  unfold outer_edges. destruct (existsb is_nan xs); [discriminate|].
  destruct (finite xs) as [|x r].
  - intros H. inversion H. discriminate.
  - pose proof (qmin_le r x) as Hmin. pose proof (qmax_ge r x) as Hmax.
    destruct (Qeq_bool (qmin r x) (qmax r x)); intros H; inversion H; subst.
    + apply round64_mono.
      assert (Hm : (round64 (qmin r x) <= round64 (qmax r x))%Q)
        by (apply round64_mono; lra).
      lra.
    + lra.
Qed.

Lemma bin_counts_cons (lo hi : Q) (rest : list Q) (xs : list Q) :
  bin_counts (lo :: hi :: rest) xs
  = count_if (in_bin lo hi match rest with [] => true | _ => false end) xs
    :: bin_counts (hi :: rest) xs.
Proof. reflexivity. Qed.

Lemma bin_counts_length (edges : list Q) (xs : list Q) :
  List.length (bin_counts edges xs) = pred (List.length edges).
Proof.
  induction edges as [|lo t IH]; [reflexivity|].
  destruct t as [|hi rest]; [reflexivity|].
  rewrite bin_counts_cons. simpl List.length in *. now rewrite IH.
Qed.

Lemma bin_counts_nil (edges : list Q) :
  bin_counts edges [] = repeat 0 (pred (List.length edges)).
Proof.
  induction edges as [|lo t IH]; [reflexivity|].
  destruct t as [|hi rest]; [reflexivity|].
  rewrite bin_counts_cons, IH. reflexivity.
Qed.


(** What a successful automatic histogram is made of. *)
Lemma histogram_auto_inv (a : list value) (n : nat) (top : list Z) (edges : list Q) :
  histogram a (BinCount n) = Ok (top, edges) ->
  exists first last widened indices,
    as_floats a = Ok (map as_number a)
    /\ outer_edges (map as_number a) = Ok (first, last, widened)
    /\ edges = linspace first last (S n)
    /\ mapM (fun v => uniform_index first (round64 (last - first)) n edges
                        (round64 v))
            (filter (fun v => in_range first last
                                (if widened then round64 v else v))
                    (finite (map as_number a)))
       = Ok indices
    /\ bincount n indices = Ok top
    /\ n <> O.
Proof.
  unfold histogram. destruct (Nat.eqb_spec n 0) as [->|Hn]; [discriminate|].
  destruct (as_floats a) as [xs|e] eqn:Ea; cbn [bind]; [|discriminate].
  destruct (as_floats_ok _ _ Ea) as [-> _].
  destruct (outer_edges (map as_number a)) as [[[first last] w]|e] eqn:Eo;
    cbn [bind]; [|discriminate].
  destruct (mapM _ _) as [indices|e] eqn:Ei; cbn [bind]; [|discriminate].
  destruct (bincount n indices) as [t|e] eqn:Eb; cbn [bind]; [|discriminate].
  intros H. inversion H; subst.
  exists first, last, w, indices. repeat split; auto.
Qed.

Lemma bincount_length (n : nat) (indices : list Z) (top : list Z) :
  bincount n indices = Ok top -> List.length top = n.
Proof.
  unfold bincount. destruct (forallb _ indices); [|discriminate].
  intros H. inversion H. now rewrite length_map, length_seq.
Qed.

Lemma histogram_auto_shape (a : list value) (top : list Z) (edges : list Q) :
  histogram a (BinCount 50) = Ok (top, edges) ->
  List.length edges = 51%nat /\ List.length top = 50%nat /\ monotonic edges = true.
Proof.
  intros H.
  destruct (histogram_auto_inv _ _ _ _ H)
    as (first & last & w & indices & _ & Ho & -> & _ & Hb & _).
  rewrite (bincount_length _ _ _ Hb), linspace_length. repeat split.
  apply monotonic_linspace. now apply outer_edges_ordered with (xs := map as_number a) (w := w).
Qed.

(** *** The rows a subplot calls selected *)

(** The frame [s] of [draw_hist]: no rows for an empty selection, the
    rows at the selected positions otherwise. *)
Definition hist_rows (d : DataFrame) (sel : list Z) : result DataFrame :=
  match sel with
  | [] => Ok (empty_like d)
  | _ => iloc d sel
  end.

Lemma draw_hist_eq (d : DataFrame) (col : string) (sel : list Z) :
  draw_hist d col sel =
  (s <- hist_rows d sel ;;
   a <- getitem d col ;;
   ' (top, edges) <- histogram (s_values a) (BinCount 50) ;;
   a_s <- getitem s col ;;
   ' (top_s, _) <- histogram (s_values a_s) (BinEdges edges) ;;
   m <- array_max top ;;
   Ok {| h_title := "Histogram of " ++ col;
         h_left := removelast edges;
         h_right := tl edges;
         h_all := top;
         h_selected := top_s;
         h_y_range := (0, (11 # 10) * inject_Z m)%Q |}).
Proof. reflexivity. Qed.

Lemma iloc_row_in (rs : list (list value)) (i : Z) (r : list value) :
  iloc_row rs i = Ok r -> In r rs.
Proof.
  unfold iloc_row.
  destruct ((0 <=? i) && (i <? Z.of_nat (List.length rs))) eqn:E1.
  - apply andb_prop in E1 as [H0 H1].
    apply Z.leb_le in H0. apply Z.ltb_lt in H1.
    intros H. inversion H. apply nth_In. lia.
  - destruct ((- Z.of_nat (List.length rs) <=? i) && (i <? 0)) eqn:E2; [|discriminate].
    apply andb_prop in E2 as [H0 H1].
    apply Z.leb_le in H0. apply Z.ltb_lt in H1.
    intros H. inversion H. apply nth_In. lia.
Qed.


Lemma hist_rows_spec (d s : DataFrame) (sel : list Z) :
  hist_rows d sel = Ok s ->
  column_names s = column_names d
  /\ (forall r, In r (rows s) -> In r (rows d))
  /\ (sel = [] -> rows s = []).
Proof.
  unfold hist_rows. destruct sel as [|i sel'].
  - intros H. inversion H; subst. unfold column_names, empty_like. simpl.
    rewrite map_map. simpl. repeat split; auto. intros r [].
  - unfold iloc.
    destruct (mapM (iloc_row (rows d)) (i :: sel')) as [rs|e] eqn:E; [|discriminate].
    intros H. inversion H; subst. simpl. repeat split; [| discriminate].
    intros r Hr. apply mapM_ok in E.
    clear H. revert Hr. induction E as [|x y l l' Hxy _ IH]; [intros []|].
    intros [<-|Hr]; [now apply iloc_row_in with (i := x)|now apply IH].
Qed.


(** A column of [d] and the column of the same name in a frame with the
    same header. *)
Lemma getitem_same_header (d s : DataFrame) (col : string) (a : Series) :
  column_names s = column_names d ->
  getitem d col = Ok a ->
  exists j a_s,
    s_values a = map (cell j) (rows d)
    /\ getitem s col = Ok a_s
    /\ s_values a_s = map (cell j) (rows s).
Proof.
  intros Hn. unfold getitem. rewrite Hn.
  destruct (index_of col (column_names d)) as [j|]; [|discriminate].
  intros H. inversion H; subst. simpl. exists j. eexists. repeat split.
Qed.

Lemma array_max_ok (a : list Z) :
  a <> [] -> exists m, array_max a = Ok m.
Proof. destruct a as [|x r]; [contradiction|]. intros _. now eexists. Qed.



(** What [draw_hist] computes once the column, the histogram over all rows
    and the selected rows are there: it cannot fail any more. *)
Lemma draw_hist_computed
    (d s : DataFrame) (col : string) (sel : list Z) (a : Series)
    (top : list Z) (edges : list Q) :
  getitem d col = Ok a ->
  histogram (s_values a) (BinCount 50) = Ok (top, edges) ->
  hist_rows d sel = Ok s ->
  exists j a_s m,
    s_values a = map (cell j) (rows d)
    /\ getitem s col = Ok a_s
    /\ s_values a_s = map (cell j) (rows s)
    /\ array_max top = Ok m
    /\ histogram (s_values a_s) (BinEdges edges)
       = Ok (bin_counts edges (map round64 (finite (map as_number (s_values a_s)))),
             edges)
    /\ draw_hist d col sel
       = Ok {| h_title := "Histogram of " ++ col;
               h_left := removelast edges;
               h_right := tl edges;
               h_all := top;
               h_selected :=
                 bin_counts edges
                   (map round64 (finite (map as_number (s_values a_s))));
               h_y_range := (0, (11 # 10) * inject_Z m)%Q |}.
Proof.
  intros Ha Hh Hs.
  destruct (histogram_auto_shape _ _ _ Hh) as (Hlen & Htop & Hmono).
  destruct (histogram_auto_inv _ _ _ _ Hh) as (lo & hi & w & ix & Hfl & _).
  destruct (as_floats_ok _ _ Hfl) as [_ Hnum].
  destruct (array_max_ok top) as [m Hm]; [intros ->; discriminate|].
  destruct (hist_rows_spec _ _ _ Hs) as (Hn & Hin & _).
  destruct (getitem_same_header _ _ _ _ Hn Ha) as (j & a_s & Hva & Has & Hvs).
  assert (Hfs : as_floats (s_values a_s) = Ok (map as_number (s_values a_s))).
  { apply as_floats_numbers. intros v Hv. apply Hnum.
    rewrite Hvs in Hv. rewrite Hva. apply in_map_iff in Hv as (r & <- & Hr).
    apply in_map. now apply Hin. }
  assert (Hhs : histogram (s_values a_s) (BinEdges edges)
                = Ok (bin_counts edges
                        (map round64 (finite (map as_number (s_values a_s)))),
                      edges)).
  { unfold histogram. rewrite Hmono, Hfs. reflexivity. }
  exists j, a_s, m. repeat split; try assumption.
  rewrite draw_hist_eq, Hs. cbn [bind]. rewrite Ha. cbn [bind].
  rewrite Hh. cbn [bind]. rewrite Has. cbn [bind]. rewrite Hhs. cbn [bind].
  rewrite Hm. reflexivity.
Qed.

(** A drawn histogram has gone through every stage. *)
Lemma draw_hist_inv (d : DataFrame) (col : string) (sel : list Z) (spec : HistSpec) :
  draw_hist d col sel = Ok spec ->
  exists s a top edges,
    hist_rows d sel = Ok s
    /\ getitem d col = Ok a
    /\ histogram (s_values a) (BinCount 50) = Ok (top, edges).
Proof.
  rewrite draw_hist_eq. intros H.
  destruct (hist_rows d sel) as [s|e] eqn:Hs; cbn [bind] in H; [|discriminate].
  destruct (getitem d col) as [a|e] eqn:Ha; cbn [bind] in H; [|discriminate].
  destruct (histogram (s_values a) (BinCount 50)) as [[top edges]|e] eqn:Hh;
    [|discriminate].
  exists s, a, top, edges. repeat split; assumption.
Qed.

(** C5 (as amended).  Let the feature's column exist and let
    [np.histogram] succeed on it with 50 bins, giving [(top, edges)]; it
    does not on a column with a missing cell.  Then there are 51 edges
    and 50 counts; the empty selection draws without error, with the
    same 'all' counts and edges and with all 50 'selected' counts zero;
    every selection whose rows can be fetched draws without error; and
    whatever is drawn for a selection has 'all' counts [top], its quads
    on [edges], and as 'selected' counts the histogram of the selected
    rows' values over exactly [edges]. *)
Theorem draw_hist_shared_edges
    (d : DataFrame) (col : string) (a : Series) (top : list Z) (edges : list Q)
    (Ha : getitem d col = Ok a)
    (Hh : histogram (s_values a) (BinCount 50) = Ok (top, edges)) :
  List.length edges = 51%nat
  /\ List.length top = 50%nat
  /\ (exists spec0,
        draw_hist d col [] = Ok spec0
        /\ h_all spec0 = top
        /\ h_selected spec0 = repeat 0 50
        /\ h_left spec0 = removelast edges
        /\ h_right spec0 = tl edges)
  /\ (forall sel s, hist_rows d sel = Ok s ->
        exists spec, draw_hist d col sel = Ok spec)
  /\ (forall sel spec, draw_hist d col sel = Ok spec ->
        h_all spec = top
        /\ h_left spec = removelast edges
        /\ h_right spec = tl edges
        /\ exists s a_s,
             hist_rows d sel = Ok s
             /\ getitem s col = Ok a_s
             /\ histogram (s_values a_s) (BinEdges edges)
                = Ok (h_selected spec, edges)).
Proof.
  destruct (histogram_auto_shape _ _ _ Hh) as (Hlen & Htop & _).
  split; [exact Hlen|]. split; [exact Htop|]. split; [|split].
  - destruct (draw_hist_computed d (empty_like d) col [] a top edges Ha Hh eq_refl)
      as (j & a_s & m & _ & _ & Hvs & _ & _ & Hd).
    eexists. split; [exact Hd|]. simpl. repeat split.
    rewrite Hvs. simpl. rewrite bin_counts_nil, Hlen. reflexivity.
  - intros sel s Hs.
    destruct (draw_hist_computed d s col sel a top edges Ha Hh Hs)
      as (j & a_s & m & _ & _ & _ & _ & _ & Hd).
    eexists. exact Hd.
  - intros sel spec Hspec.
    destruct (draw_hist_inv _ _ _ _ Hspec) as (s & a' & top' & edges' & Hs & Ha' & Hh').
    rewrite Ha in Ha'. inversion Ha'; subst a'.
    rewrite Hh in Hh'. inversion Hh'; subst top' edges'.
    destruct (draw_hist_computed d s col sel a top edges Ha Hh Hs)
      as (j & a_s & m & _ & Has & _ & _ & Hhs & Hd).
    rewrite Hd in Hspec. inversion Hspec; subst spec. simpl.
    repeat split. exists s, a_s. repeat split; assumption.
Qed.

(** *** Counting over a duplicate-free selection *)

Lemma map_nth_seq {A : Type} (l : list A) (d : A) :
  map (fun i => nth i l d) (seq 0 (List.length l)) = l.
Proof.
  induction l as [|x r IH]; [reflexivity|].
  simpl. f_equal. rewrite <- seq_shift, map_map. exact IH.
Qed.









(** *** Assigning a column *)

(** Every row has one cell per column. *)
Definition well_formed (d : DataFrame) : Prop :=
  forall r, In r (rows d) -> List.length r = List.length (columns d).

Lemma index_of_lt (name : string) (l : list string) (j : nat) :
  index_of name l = Some j -> (j < List.length l)%nat.
Proof.
  revert j. induction l as [|x r IH]; simpl; intros j H; [discriminate|].
  destruct (String.eqb x name).
  - inversion H. lia.
  - destruct (index_of name r) as [k|]; [|discriminate].
    inversion H. specialize (IH k eq_refl). lia.
Qed.

Lemma set_header_slot (name : string) (dt : dtype) (h : list (string * dtype)) :
  let j := match index_of name (map fst h) with
           | Some j => j
           | None => List.length h
           end in
  index_of name (map fst (set_header name dt h)) = Some j
  /\ nth j (set_header name dt h) (name, object_) = (name, dt).
Proof.
  induction h as [|c r IH]; simpl.
  - rewrite String.eqb_refl. split; reflexivity.
  - destruct (String.eqb (fst c) name) eqn:E; simpl.
    + rewrite String.eqb_refl. split; reflexivity.
    + rewrite E. destruct IH as [IH1 IH2]. rewrite IH1.
      destruct (index_of name (map fst r)); simpl; split; try reflexivity; exact IH2.
Qed.

Lemma cell_set_cell (j : nat) (r : list value) (v : value) :
  (j <= List.length r)%nat -> cell j (set_cell j r v) = v.
Proof.
  intros Hj. unfold cell, set_cell.
  rewrite app_nth2; rewrite length_firstn, Nat.min_l by exact Hj; [|lia].
  now rewrite Nat.sub_diag.
Qed.

Lemma column_slot_le (d : DataFrame) (name : string) :
  (column_slot d name <= List.length (columns d))%nat.
Proof.
  unfold column_slot.
  destruct (index_of name (column_names d)) as [j|] eqn:E; [|lia].
  apply index_of_lt in E. unfold column_names in E.
  rewrite length_map in E. lia.
Qed.

Lemma map_snd_combine {A B : Type} (l : list A) (l' : list B) :
  List.length l' = List.length l -> map snd (combine l l') = l'.
Proof.
  revert l'. induction l as [|x r IH]; intros [|y r'] H; simpl in *;
    try reflexivity; try discriminate.
  f_equal. apply IH. lia.
Qed.

(** After [df[name] = vals] on a well-formed table, [df[name]] is the
    assigned array and no row is gained or lost. *)
Lemma getitem_setitem (d : DataFrame) (name : string) (dt : dtype)
    (vals : list value) :
  well_formed d ->
  List.length vals = List.length (rows d) ->
  exists d',
    setitem d name dt vals = Ok d'
    /\ getitem d' name = Ok {| s_dtype := dt; s_values := vals |}
    /\ List.length (rows d') = List.length (rows d).
Proof.
  intros Hwf Hlen. unfold setitem.
  rewrite Hlen, Nat.eqb_refl. eexists. split; [reflexivity|].
  destruct (set_header_slot name dt (columns d)) as [H1 H2].
  split.
  - unfold getitem, column_names. simpl columns. rewrite H1.
    simpl rows. f_equal.
    replace (nth _ (set_header name dt (columns d)) (name, object_))
      with (name, dt).
    simpl. f_equal. rewrite map_map. rewrite <- (map_snd_combine (rows d) vals Hlen) at 2.
    apply map_ext_in. intros [r v] Hrv. simpl.
    apply cell_set_cell. apply in_combine_l in Hrv.
    rewrite (Hwf r Hrv). apply column_slot_le.
  - simpl. rewrite length_map, length_combine. lia.
Qed.

(** *** Clustering *)

(** C3.  Two runs of [clustering] on the same table with the same
    [n_clusters] give the same outcome whatever state the random
    generator was in before each run: the function reseeds it with 0
    before the fit.  In particular the two 'Cluster' columns agree, so
    they agree up to a relabeling (the identity). *)
Theorem clustering_seeded_deterministic
    (d : DataFrame) (n_clusters : Z) (g1 g2 : rng) :
  fst (clustering d n_clusters g1) = fst (clustering d n_clusters g2)
  /\ (forall X_pca, getitems d ["PCA 1"; "PCA 2"] = Ok X_pca ->
        clustering d n_clusters g1 = clustering d n_clusters g2)
  /\ (forall d1 d2 c1 c2,
        fst (clustering d n_clusters g1) = Ok d1 ->
        fst (clustering d n_clusters g2) = Ok d2 ->
        getitem d1 "Cluster" = Ok c1 ->
        getitem d2 "Cluster" = Ok c2 ->
        exists relabel : value -> value,
          (forall x y, relabel x = relabel y -> x = y)
          /\ map relabel (s_values c1) = s_values c2).
Proof.
  assert (E : fst (clustering d n_clusters g1) = fst (clustering d n_clusters g2)).
  { unfold clustering. destruct (getitems d ["PCA 1"; "PCA 2"]) as [X|e]; [|reflexivity].
    destruct (MiniBatchKMeans_fit n_clusters 2 X (np_random_seed 0)) as [[l|e] g'];
      reflexivity. }
  split; [exact E|]. split.
  - intros X HX. unfold clustering. rewrite HX. reflexivity.
  - intros d1 d2 c1 c2 H1 H2 Hc1 Hc2. rewrite E, H2 in H1.
    inversion H1; subst d2. rewrite Hc1 in Hc2. inversion Hc2; subst c2.
    exists (fun v => v). split; [auto|]. apply map_id.
Qed.

(** [clustering] does not check [n_clusters]: it hands it, with
    [n_init = 2] and the generator seeded with 0, to the fit.  If the fit
    raises, that exception is the outcome and no 'Cluster' column is
    assigned; if the fit returns labels, their decimal texts are assigned
    to 'Cluster', and on a well-formed table with one label per row the
    assignment succeeds and 'Cluster' holds exactly them. *)
Lemma clustering_outcome
    (d : DataFrame) (n_clusters : Z) (g : rng) (X_pca : list (list value))
    (HX : getitems d ["PCA 1"; "PCA 2"] = Ok X_pca) :
  (forall e g',
      MiniBatchKMeans_fit n_clusters 2 X_pca (np_random_seed 0) = (Raise e, g') ->
      clustering d n_clusters g = (Raise e, g'))
  /\ (forall labels g',
        MiniBatchKMeans_fit n_clusters 2 X_pca (np_random_seed 0) = (Ok labels, g') ->
        clustering d n_clusters g
        = (setitem d "Cluster" object_ (map (fun l => VStr (str_of_int l)) labels), g'))
  /\ (forall labels g',
        MiniBatchKMeans_fit n_clusters 2 X_pca (np_random_seed 0) = (Ok labels, g') ->
        well_formed d ->
        List.length labels = List.length (rows d) ->
        exists d',
          clustering d n_clusters g = (Ok d', g')
          /\ getitem d' "Cluster"
             = Ok {| s_dtype := object_;
                     s_values := map (fun l => VStr (str_of_int l)) labels |}
          /\ List.length (rows d') = List.length (rows d)).
Proof.
  split; [|split].
  - intros e g' Hfit. unfold clustering. now rewrite HX, Hfit.
  - intros labels g' Hfit. unfold clustering. now rewrite HX, Hfit.
  - intros labels g' Hfit Hwf Hlen.
    destruct (getitem_setitem d "Cluster" object_
                (map (fun l => VStr (str_of_int l)) labels) Hwf)
      as (d' & Hset & Hget & Hrows).
    { now rewrite length_map. }
    exists d'. split; [|split; assumption].
    unfold clustering. now rewrite HX, Hfit, Hset.
Qed.

(** *** The callbacks *)

(** C1 (as amended).  When [new] is not a column of the table,
    [update_pca_col] raises the lookup's [KeyError]; the data source (with
    its 'label' column), the table, the layout, the subplot feature and
    the selection are left as they were, but [pca_ft_selected] has already
    been overwritten with the rejected name. *)
Theorem update_pca_col_unknown_column
    (attrname old new : string) (st : Session)
    (Hnew : ~ In new (column_names (df st))) :
  update_pca_col attrname old new st
    = (set_pca_ft st new, Raise (KeyError (VStr new)))
  /\ p_pca_source (fst (update_pca_col attrname old new st)) = p_pca_source st
  /\ df (fst (update_pca_col attrname old new st)) = df st
  /\ layout_p_pca (fst (update_pca_col attrname old new st)) = layout_p_pca st
  /\ layout_p_sub (fst (update_pca_col attrname old new st)) = layout_p_sub st
  /\ sub_ft_selected (fst (update_pca_col attrname old new st)) = sub_ft_selected st
  /\ points_selected (fst (update_pca_col attrname old new st)) = points_selected st
  /\ pca_ft_selected (fst (update_pca_col attrname old new st)) = new.
Proof.
  assert (E : update_pca_col attrname old new st
              = (set_pca_ft st new, Raise (KeyError (VStr new)))).
  { unfold update_pca_col. simpl df. now rewrite (getitem_unknown _ _ Hnew). }
  rewrite E. simpl. repeat split; reflexivity.
Qed.

(** When the lookup and the plot succeed, the source's 'label' column is
    the new feature's column and the scatter plot is redrawn. *)
Lemma update_pca_col_success
    (attrname old new : string) (st st' : Session) :
  update_pca_col attrname old new st = (st', Ok tt) ->
  exists a,
    getitem (df st) new = Ok a
    /\ dict_get "label" (p_pca_source st') = Some (s_values a)
    /\ pca_ft_selected st' = new
    /\ plot_pca (df st) new = Ok (layout_p_pca st').
Proof.
  unfold update_pca_col. simpl df.
  destruct (getitem (df st) new) as [a|e] eqn:Ea; [|discriminate].
  simpl. destruct (plot_pca (df st) new) as [p|e] eqn:Ep; [|discriminate].
  intros H. inversion H; subst st'. exists a. simpl.
  repeat split; try reflexivity. apply dict_get_set.
Qed.

(** C7.  [update_sub_col] leaves [points_selected] as it was, and the
    subplot it draws is the one for the new feature and that same
    selection: the outcome of the callback is the outcome of
    [draw_subplot] on the selection held before the switch. *)
Theorem update_sub_col_keeps_selection
    (attrname old new : string) (st : Session) :
  points_selected (fst (update_sub_col attrname old new st)) = points_selected st
  /\ sub_ft_selected (fst (update_sub_col attrname old new st)) = new
  /\ match draw_subplot (df st) new (points_selected st) with
     | Ok p =>
         snd (update_sub_col attrname old new st) = Ok tt
         /\ layout_p_sub (fst (update_sub_col attrname old new st)) = p
     | Raise e =>
         snd (update_sub_col attrname old new st) = Raise e
         /\ layout_p_sub (fst (update_sub_col attrname old new st)) = layout_p_sub st
     end.
Proof.
  unfold update_sub_col. simpl df. simpl sub_ft_selected. simpl points_selected.
  destruct (draw_subplot (df st) new (points_selected st)) as [p|e];
    simpl; repeat split; reflexivity.
Qed.

(** *** The subplot dispatch *)

Lemma neither_numeric_nor_object (d : dtype) :
  is_numeric_dtype d = false /\ is_object_dtype d = false
  <-> d = datetime64 \/ d = timedelta64 \/ d = category.
Proof.
  split.
  - intros [Hn Ho]. destruct d; simpl in *; try discriminate; auto.
  - intros [->|[->| ->]]; split; reflexivity.
Qed.

(** C9 (as amended).  [draw_subplot] returns a subplot only for a column
    whose dtype is numeric or object.  Numeric includes boolean: a boolean
    column goes to [draw_hist].  For a column of any other dtype
    (datetime, timedelta, categorical) no branch assigns [sub_p] and the
    function raises [UnboundLocalError]. *)
Theorem draw_subplot_dtype_dispatch
    (d : DataFrame) (ft : string) (sel : list Z) (a : Series)
    (Ha : getitem d ft = Ok a) :
  (is_numeric_dtype (s_dtype a) = false ->
   is_object_dtype (s_dtype a) = false ->
   draw_subplot d ft sel = Raise (UnboundLocalError "sub_p"))
  /\ (s_dtype a = datetime64 \/ s_dtype a = timedelta64 \/ s_dtype a = category ->
      draw_subplot d ft sel = Raise (UnboundLocalError "sub_p"))
  /\ (forall p, draw_subplot d ft sel = Ok p ->
      is_numeric_dtype (s_dtype a) = true \/ is_object_dtype (s_dtype a) = true)
  /\ (s_dtype a = bool_ ->
      draw_subplot d ft sel = (h <- draw_hist d ft sel ;; Ok (Hist h))).
Proof.
  assert (Hraise : is_numeric_dtype (s_dtype a) = false ->
                   is_object_dtype (s_dtype a) = false ->
                   draw_subplot d ft sel = Raise (UnboundLocalError "sub_p")).
  { intros Hn Ho. unfold draw_subplot. rewrite Ha. simpl. now rewrite Hn, Ho. }
  split; [exact Hraise|]. split; [|split].
  - intros Hd. apply neither_numeric_nor_object in Hd. now apply Hraise.
  - intros p Hp.
    destruct (is_numeric_dtype (s_dtype a)) eqn:Hn; [now left|].
    destruct (is_object_dtype (s_dtype a)) eqn:Ho; [now right|].
    rewrite (Hraise eq_refl eq_refl) in Hp. discriminate.
  - intros Hb. unfold draw_subplot. rewrite Ha. simpl. now rewrite Hb.
Qed.

(** *** Sample tables *)

(** An enriched table of two companies. *)
Definition sample_df : DataFrame :=
  {| columns := [("Symbol", object_); ("Market Cap", float64);
                 ("Mean Recommendation", float64); ("PCA 1", float64);
                 ("PCA 2", float64); ("Cluster", object_)];
     rows := [[VStr "AAPL"; VNum 100; VNum (3 # 2); VNum 0; VNum 1; VStr "0"];
              [VStr "MSFT"; VNum 200; VNum 2; VNum 10; VNum 11; VStr "1"]] |}.

(** A table after [pca] and before [clustering]: two well-separated pairs
    of points. *)
Definition projected_df : DataFrame :=
  {| columns := [("Symbol", object_); ("PCA 1", float64); ("PCA 2", float64)];
     rows := [[VStr "A"; VNum 0; VNum 0];
              [VStr "B"; VNum 0; VNum 1];
              [VStr "C"; VNum 10; VNum 10];
              [VStr "D"; VNum 10; VNum 11]] |}.

(** A categorical column with three distinct values. *)
Definition kinds_df : DataFrame :=
  {| columns := [("Kind", object_)];
     rows := [[VStr "b"]; [VStr "a"]; [VStr "c"]; [VStr "a"]] |}.

(** A boolean column and a date column (dates as day numbers). *)
Definition flags_df : DataFrame :=
  {| columns := [("Symbol", object_); ("Listed", bool_); ("Founded", datetime64)];
     rows := [[VStr "AAPL"; VBool true; VNum 2281];
              [VStr "MSFT"; VBool false; VNum 1920]] |}.

(** *** Sorted distinct categories *)

Definition str_lt (a b : string) : Prop := String.compare a b = Lt.

Lemma str_lt_trans (a b c : string) : str_lt a b -> str_lt b c -> str_lt a c.
Proof.
  unfold str_lt. intros Hab Hbc.
  apply String_as_OT.cmp_lt. apply String_as_OT.cmp_lt in Hab, Hbc.
  now apply String_as_OT.lt_trans with b.
Qed.

Lemma str_gt_lt (a b : string) : String.compare a b = Gt -> str_lt b a.
Proof.
  unfold str_lt. intros H. rewrite String.compare_antisym, H. reflexivity.
Qed.

Lemma insert_unique_in (s : string) (l : list string) (x : string) :
  In x (insert_unique s l) <-> x = s \/ In x l.
Proof.
  induction l as [|y r IH]; simpl.
  - intuition.
  - destruct (String.compare s y) eqn:E; simpl.
    + apply String.compare_eq_iff in E. subst y. intuition.
    + intuition.
    + rewrite IH. intuition.
Qed.

Lemma insert_unique_sorted (s : string) (l : list string) :
  StronglySorted str_lt l -> StronglySorted str_lt (insert_unique s l).
Proof.
  induction 1 as [|y r Hr IH Hy]; simpl.
  - repeat constructor.
  - destruct (String.compare s y) eqn:E.
    + now constructor.
    + constructor; [now constructor|].
      constructor; [exact E|].
      eapply Forall_impl; [|exact Hy].
      intros z Hz. now apply str_lt_trans with y.
    + constructor; [exact IH|].
      apply Forall_forall. intros z Hz.
      apply insert_unique_in in Hz as [->|Hz]; [now apply str_gt_lt|].
      rewrite Forall_forall in Hy. now apply Hy.
Qed.

(** [unique] lists exactly the values that occur, each once, in
    increasing order. *)
Lemma unique_spec (l : list string) :
  StronglySorted str_lt (unique l) /\ forall x, In x (unique l) <-> In x l.
Proof.
  induction l as [|s r [IHs IHi]]; simpl.
  - split; [constructor|tauto].
  - split; [now apply insert_unique_sorted|].
    intros x. rewrite insert_unique_in, IHi. intuition.
Qed.

(** *** The colour map of a categorical feature *)

Lemma create_cmap_object (d : DataFrame) (col : string) (a : Series) :
  getitem d col = Ok a ->
  is_object_dtype (s_dtype a) = true ->
  let l := unique (map (astype_str num_text) (s_values a)) in
  create_cmap d col =
  if Nat.eqb (List.length l) 2
  then Ok (factor_cmap col (PSeq ["#000000"; "#FFFFFF"]) l,
           Some (combine l ["#000000"; "#FFFFFF"]))
  else match nth_error Turbo256 (List.length l) with
       | Some color => Raise ValueError
       | None => Raise IndexError
       end.
Proof.
  intros Ha Ho l. unfold create_cmap. rewrite Ha. cbn [bind]. rewrite Ho.
  fold l. destruct (Nat.eqb (List.length l) 2); [reflexivity|].
  destruct (nth_error Turbo256 (List.length l)); reflexivity.
Qed.

(** With exactly two distinct values the mapping is as intended: the two
    categories in increasing order, black for the first and white for the
    second. *)
Lemma create_cmap_two_categories
    (d : DataFrame) (col : string) (a : Series) (x y : string) :
  getitem d col = Ok a ->
  is_object_dtype (s_dtype a) = true ->
  unique (map (astype_str num_text) (s_values a)) = [x; y] ->
  create_cmap d col
  = Ok (factor_cmap col (PSeq ["#000000"; "#FFFFFF"]) [x; y],
        Some [(x, "#000000"); (y, "#FFFFFF")])
  /\ str_lt x y.
Proof.
  intros Ha Ho Hl. split.
  - rewrite (create_cmap_object d col a Ha Ho). cbv zeta. rewrite Hl. reflexivity.
  - destruct (unique_spec (map (astype_str num_text) (s_values a))) as [Hs _].
    rewrite Hl in Hs. inversion Hs as [|? ? _ Hall]; subst.
    now inversion Hall.
Qed.

(** With any other number [k] of distinct values the function does not
    return: [Turbo256[k]] is one colour string, which [factor_cmap]
    refuses, or [k] is past the end of the table. *)
Lemma create_cmap_other_counts
    (d : DataFrame) (col : string) (a : Series) :
  getitem d col = Ok a ->
  is_object_dtype (s_dtype a) = true ->
  List.length (unique (map (astype_str num_text) (s_values a))) <> 2%nat ->
  create_cmap d col
  = match nth_error Turbo256
            (List.length (unique (map (astype_str num_text) (s_values a)))) with
    | Some _ => Raise ValueError
    | None => Raise IndexError
    end.
Proof.
  intros Ha Ho Hk. rewrite (create_cmap_object d col a Ha Ho). cbv zeta.
  apply Nat.eqb_neq in Hk. rewrite Hk. reflexivity.
Qed.

(** C8, the failing input.  For the column 'Kind' with the three values
    a, b, c the palette is the single entry [Turbo256[3]], one colour
    string instead of three colours; [factor_cmap] (line 114) refuses it
    with [ValueError], so neither a mapper nor the category-to-colour
    dictionary of line 121 is produced.  With a table of fewer than four
    entries the lookup itself raises [IndexError]. *)
Theorem create_cmap_three_categories :
  unique (map (astype_str num_text) [VStr "b"; VStr "a"; VStr "c"; VStr "a"])
  = ["a"; "b"; "c"]
  /\ create_cmap kinds_df "Kind"
     = match nth_error Turbo256 3 with
       | Some _ => Raise ValueError
       | None => Raise IndexError
       end
  /\ plot_pca kinds_df "Kind"
     = match nth_error Turbo256 3 with
       | Some _ => Raise ValueError
       | None => Raise IndexError
       end.
Proof.
  assert (Hc : create_cmap kinds_df "Kind"
               = match nth_error Turbo256 3 with
                 | Some _ => Raise ValueError
                 | None => Raise IndexError
                 end).
  { rewrite (create_cmap_object kinds_df "Kind"
               {| s_dtype := object_;
                  s_values := [VStr "b"; VStr "a"; VStr "c"; VStr "a"] |}
               eq_refl eq_refl).
    reflexivity. }
  split; [reflexivity|]. split; [exact Hc|].
  unfold plot_pca. rewrite Hc.
  destruct (nth_error Turbo256 3); reflexivity.
Qed.

(** *** The bar chart *)

(** C2, the failing input.  In [sample_df] the selection [[0]] holds one
    row, whose 'Cluster' is "0"; the chart nevertheless reports 0
    selected rows for "0" (and for "1"): the selected counts are looked
    up in the counts of whole rows, whose index starts with 'Symbol'. *)
Theorem draw_bar_chart_counts_whole_rows :
  draw_bar_chart sample_df "Cluster" [0]
  = Ok {| b_title := "Distribution of Cluster";
          b_x := [VStr "0"; VStr "1"; VStr "0"; VStr "1"];
          b_counts := [1; 1; 0; 0];
          b_color := ["#000000"; "#FFFFFF"; "#000000"; "#FFFFFF"];
          b_label := ["all"; "all"; "selected"; "selected"];
          b_x_range := [VStr "0"; VStr "1"];
          b_y_range := (0, inject_Z 1 * (11 # 10))%Q |}
  /\ (s <- iloc sample_df [0] ;; a <- getitem s "Cluster" ;; Ok (s_values a))
     = Ok [VStr "0"]
  /\ (s <- iloc sample_df [0] ;; Ok (frame_value_counts s))
     = Ok [([VStr "AAPL"; VNum 100; VNum (3 # 2); VNum 0; VNum 1; VStr "0"], 1)].
Proof. repeat split. Qed.

(** With nothing selected every selected count is the integer 0. *)
Lemma index_contains_empty_frame (d : DataFrame) (c : value) :
  index_contains (frame_value_counts (empty_like d)) c = false.
Proof. reflexivity. Qed.

(** *** Startup *)

(** C4, the failing input.  Right after startup on [sample_df] the
    colour feature is 'Market Cap', whose column holds 100 and 200, while
    the 'label' column, in the table and in the data source, holds the
    text "Market Cap" in every row. *)
Theorem startup_label_is_feature_name :
  exists st,
    startup sample_df = Ok st
    /\ pca_ft_selected st = "Market Cap"
    /\ dict_get (pca_ft_selected st) (p_pca_source st) = Some [VNum 100; VNum 200]
    /\ dict_get "label" (p_pca_source st)
       = Some [VStr "Market Cap"; VStr "Market Cap"]
    /\ getitem (df st) "label"
       = Ok {| s_dtype := object_;
               s_values := [VStr "Market Cap"; VStr "Market Cap"] |}.
Proof.
  eexists. split; [vm_compute; reflexivity|]. repeat split.
Qed.

(** *** Totals of a histogram *)

(** The library parameters play no part in the proofs below unless a
    statement names them; dropping them first keeps the automation from
    picking them up. *)
Ltac drop_library :=
  try clear MiniBatchKMeans_fit; try clear np_random_seed; try clear rng;
  try clear num_text; try clear Turbo256.

Definition Zsum (l : list Z) : Z := fold_right Z.add 0 l.

Ltac qbool :=
  repeat match goal with
         | H : Qle_bool _ _ = true |- _ => apply Qle_bool_iff in H
         | H : Qle_bool _ _ = false |- _ =>
             apply not_true_iff_false in H; rewrite Qle_bool_iff in H
         end.

Lemma count_if_cons {A : Type} (p : A -> bool) (x : A) (l : list A) :
  count_if p (x :: l) = (if p x then 1 else 0) + count_if p l.
Proof using Type. drop_library. unfold count_if. simpl. destruct (p x); simpl List.length; lia. Qed.

Lemma count_if_split {A : Type} (p q r : A -> bool) (l : list A) :
  (forall x, In x l ->
     (if p x then 1 else 0) + (if q x then 1 else 0) = (if r x then 1 else 0)) ->
  count_if p l + count_if q l = count_if r l.
Proof using Type. drop_library.
  induction l as [|x t IH]; intros H; [reflexivity|].
  rewrite !count_if_cons.
  specialize (H x (or_introl eq_refl)) as Hx.
  rewrite <- IH by (intros y Hy; apply H; now right). lia.
Qed.

Lemma count_if_all {A : Type} (p : A -> bool) (l : list A) :
  (forall x, In x l -> p x = true) -> count_if p l = Z.of_nat (List.length l).
Proof using Type. drop_library.
  induction l as [|x t IH]; intros H; [reflexivity|].
  rewrite count_if_cons, (H x (or_introl eq_refl)), IH
    by (intros y Hy; apply H; now right).
  simpl List.length. lia.
Qed.

Lemma last_nonempty {A : Type} (l : list A) (d d' : A) :
  l <> [] -> last l d = last l d'.
Proof using Type. drop_library.
  induction l as [|x t IH]; [contradiction|]. intros _.
  destruct t as [|y t']; [reflexivity|].
  change (last (y :: t') d = last (y :: t') d'). apply IH. discriminate.
Qed.

Lemma monotonic_le_last (a : Q) (t : list Q) :
  monotonic (a :: t) = true -> (a <= last t a)%Q.
Proof using Type. drop_library.
  revert a. induction t as [|b t IH]; intros a H.
  - apply Qle_refl.
  - simpl in H. apply andb_prop in H as [Hab Ht]. apply Qle_bool_iff in Hab.
    specialize (IH b Ht).
    destruct t as [|c t'].
    + exact Hab.
    + rewrite (last_nonempty (c :: t') b a) in IH by discriminate.
      change (a <= last (c :: t') a)%Q. lra.
Qed.

Lemma bin_split (lo hi top : Q) (x : Q) :
  (lo <= hi)%Q -> (hi <= top)%Q ->
  (if in_bin lo hi false x then 1 else 0) + (if in_range hi top x then 1 else 0)
  = (if in_range lo top x then 1 else 0).
Proof using Type. drop_library.
  intros H1 H2. unfold in_bin, in_range.
  destruct (Qle_bool lo x) eqn:E1, (Qle_bool hi x) eqn:E2,
           (Qle_bool x top) eqn:E3; simpl; try reflexivity;
    exfalso; qbool; lra.
Qed.

(** Over increasing edges the bins are disjoint and cover the span from
    the first edge to the last: together they count the values inside. *)
Lemma bin_counts_sum (lo : Q) (t : list Q) (xs : list Q) :
  t <> [] ->
  monotonic (lo :: t) = true ->
  Zsum (bin_counts (lo :: t) xs) = count_if (in_range lo (last t lo)) xs.
Proof using Type. drop_library.
  revert lo. induction t as [|hi r IH]; intros lo Hne Hm; [contradiction|].
  destruct r as [|r1 rest].
  - simpl. unfold in_range, in_bin. lia.
  - rewrite bin_counts_cons.
    change (Zsum (?c :: ?l)) with (c + Zsum l).
    simpl in Hm. apply andb_prop in Hm as [Hlh Hm].
    apply Qle_bool_iff in Hlh.
    rewrite IH by (try discriminate; exact Hm).
    change (last (hi :: r1 :: rest) lo) with (last (r1 :: rest) lo).
    rewrite (last_nonempty (r1 :: rest) lo hi) by discriminate.
    apply count_if_split. intros x _. apply bin_split; [exact Hlh|].
    now apply monotonic_le_last.
Qed.

Lemma qmin_lower (l : list Q) (d y : Q) :
  y = d \/ In y l -> (qmin l d <= y)%Q.
Proof using Type. drop_library.
  revert d. induction l as [|x r IH]; intros d [->|Hy].
  - apply Qle_refl.
  - destruct Hy.
  - apply qmin_le.
  - change (qmin (x :: r) d) with (qmin r (if Qle_bool x d then x else d)).
    destruct Hy as [->|Hy]; [|apply IH; now right].
    eapply Qle_trans; [apply qmin_le|].
    destruct (Qle_bool y d) eqn:E; [apply Qle_refl|]. qbool. lra.
Qed.

Lemma qmax_upper (l : list Q) (d y : Q) :
  y = d \/ In y l -> (y <= qmax l d)%Q.
Proof using Type. drop_library.
  revert d. induction l as [|x r IH]; intros d [->|Hy].
  - apply Qle_refl.
  - destruct Hy.
  - apply qmax_ge.
  - change (qmax (x :: r) d) with (qmax r (if Qle_bool d x then x else d)).
    destruct Hy as [->|Hy]; [|apply IH; now right].
    eapply Qle_trans; [|apply qmax_ge].
    destruct (Qle_bool d y) eqn:E; [apply Qle_refl|]. qbool. lra.
Qed.

(** The automatic range holds every value: each value passes the range
    test of the equal-width path, and as float64 it lies between the two
    ends of the range as float64. *)
Lemma outer_edges_cover (xs : list (option Q)) (lo hi : Q) (w : bool) (x : Q) :
  outer_edges xs = Ok (lo, hi, w) -> In x (finite xs) ->
  in_range lo hi (if w then round64 x else x) = true
  /\ (round64 lo <= round64 x <= round64 hi)%Q.
Proof using Type. drop_library.
  unfold outer_edges. destruct (existsb is_nan xs); [discriminate|].
  destruct (finite xs) as [|y r]; [intros _ []|].
  intros H Hx.
  assert (Hmin : (qmin r y <= x)%Q).
  { apply qmin_lower. destruct Hx as [->|Hx]; auto. }
  assert (Hmax : (x <= qmax r y)%Q).
  { apply qmax_upper. destruct Hx as [->|Hx]; auto. }
  pose proof (round64_mono _ _ Hmin) as Rmin.
  pose proof (round64_mono _ _ Hmax) as Rmax.
  destruct (Qeq_bool (qmin r y) (qmax r y)); inversion H; subst; clear H.
  - assert (L : (round64 (round64 (qmin r y) - (1 # 2)) <= round64 x)%Q).
    { rewrite <- (round64_idem x). apply round64_mono. lra. }
    assert (U : (round64 x <= round64 (round64 (qmax r y) + (1 # 2)))%Q).
    { rewrite <- (round64_idem x). apply round64_mono. lra. }
    split.
    + unfold in_range. apply andb_true_intro.
      split; apply Qle_bool_iff; assumption.
    + rewrite !round64_idem. split; assumption.
  - split.
    + unfold in_range. apply andb_true_intro.
      split; apply Qle_bool_iff; assumption.
    + split; assumption.
Qed.

Lemma outer_edges_no_nan (xs : list (option Q)) (lo hi : Q) (w : bool) :
  outer_edges xs = Ok (lo, hi, w) -> existsb is_nan xs = false.
Proof using Type. drop_library.
  unfold outer_edges. destruct (existsb is_nan xs); [discriminate|reflexivity].
Qed.

Lemma finite_all (xs : list (option Q)) :
  existsb is_nan xs = false ->
  List.length (finite xs) = List.length xs
  /\ forall o, In o xs -> exists q, o = Some q /\ In q (finite xs).
Proof using Type. drop_library.
  induction xs as [|[q|] r IH]; simpl; intros H.
  - split; [reflexivity|intros o []].
  - destruct (IH H) as [IH1 IH2]. split; [now rewrite IH1|].
    intros o [<-|Ho]; [exists q; auto|].
    destruct (IH2 o Ho) as (q' & -> & Hq'). exists q'. auto.
  - discriminate.
Qed.

Lemma mapM_length {A B : Type} (f : A -> result B) (l : list A) (ys : list B) :
  mapM f l = Ok ys -> List.length ys = List.length l.
Proof using Type. drop_library.
  intros H. apply mapM_ok in H. induction H; simpl; congruence.
Qed.

Lemma filter_all {A : Type} (p : A -> bool) (l : list A) :
  (forall x, In x l -> p x = true) -> filter p l = l.
Proof using Type. drop_library.
  induction l as [|x t IH]; intros H; [reflexivity|].
  simpl. rewrite (H x (or_introl eq_refl)). f_equal.
  apply IH. intros y Hy. apply H. now right.
Qed.

(** *** Counting indices *)

Lemma Zsum_zeros {A : Type} (l : list A) : Zsum (map (fun _ => 0) l) = 0.
Proof using Type. drop_library.
  induction l as [|x t IH]; [reflexivity|]. simpl. exact IH.
Qed.

Lemma Zsum_plus {A : Type} (f g : A -> Z) (l : list A) :
  Zsum (map (fun x => f x + g x) l) = Zsum (map f l) + Zsum (map g l).
Proof using Type. drop_library.
  induction l as [|x t IH]; [reflexivity|]. simpl. rewrite IH. lia.
Qed.

(** Exactly one of the bins [s], ..., [s + n - 1] has the index [i]. *)
Lemma one_bin (i : Z) (n s : nat) :
  Zsum (map (fun b => if Z.of_nat b =? i then 1 else 0) (seq s n))
  = if (Z.of_nat s <=? i) && (i <? Z.of_nat (s + n)) then 1 else 0.
Proof using Type. drop_library.
  revert s. induction n as [|n IH]; intros s.
  - simpl. rewrite Nat.add_0_r.
    destruct (Z.leb_spec (Z.of_nat s) i), (Z.ltb_spec i (Z.of_nat s));
      simpl; try reflexivity; lia.
  - simpl. rewrite IH.
    destruct (Z.eqb_spec (Z.of_nat s) i),
             (Z.leb_spec (Z.of_nat (S s)) i), (Z.ltb_spec i (Z.of_nat (S s + n))),
             (Z.leb_spec (Z.of_nat s) i), (Z.ltb_spec i (Z.of_nat (s + S n)));
      simpl; try reflexivity; lia.
Qed.

(** [bincount] counts every index once. *)
Lemma bincount_sum (n : nat) (indices : list Z) (top : list Z) :
  bincount n indices = Ok top -> Zsum top = Z.of_nat (List.length indices).
Proof using Type. drop_library.
  unfold bincount.
  destruct (forallb (fun i => (0 <=? i) && (i <? Z.of_nat n)) indices) eqn:E;
    [|discriminate].
  intros H. inversion H; subst top; clear H.
  induction indices as [|i r IH].
  - apply Zsum_zeros.
  - simpl in E. apply andb_prop in E as [Ei Er].
    rewrite (map_ext _ (fun b => (if Z.of_nat b =? i then 1 else 0)
                                 + count_if (Z.eqb (Z.of_nat b)) r))
      by (intros b; apply count_if_cons).
    rewrite Zsum_plus, (IH Er), one_bin. simpl Z.of_nat at 1. simpl Nat.add.
    rewrite Ei. simpl List.length. lia.
Qed.

(** An automatic histogram counts every value it is given, and its edges
    run from the lower to the upper end of the range, as float64. *)
Lemma histogram_auto_total (a : list value) (k : nat) (top : list Z) (edges : list Q) :
  histogram a (BinCount (S k)) = Ok (top, edges) ->
  Zsum top = Z.of_nat (List.length a)
  /\ exists lo hi w t,
       outer_edges (map as_number a) = Ok (lo, hi, w)
       /\ edges = round64 lo :: t /\ t <> [] /\ (forall d, last t d = round64 hi).
Proof using Type. drop_library.
  intros H.
  destruct (histogram_auto_inv _ _ _ _ H)
    as (lo & hi & w & indices & _ & Ho & -> & Hi & Hb & _).
  destruct (linspace_ends lo hi k) as (t & He & Hne & Hlast).
  destruct (finite_all _ (outer_edges_no_nan _ _ _ _ Ho)) as [Hlen _].
  split.
  - rewrite (bincount_sum _ _ _ Hb), (mapM_length _ _ _ Hi).
    rewrite filter_all.
    + now rewrite Hlen, length_map.
    + intros x Hx. now apply (outer_edges_cover _ _ _ _ x Ho Hx).
  - exists lo, hi, w, t. repeat split; assumption.
Qed.

Lemma hist_rows_length (d s : DataFrame) (sel : list Z) :
  hist_rows d sel = Ok s -> List.length (rows s) = List.length sel.
Proof using Type. drop_library.
  unfold hist_rows. destruct sel as [|i sel'].
  - intros H. inversion H. reflexivity.
  - unfold iloc.
    destruct (mapM (iloc_row (rows d)) (i :: sel')) as [rs|e] eqn:E; [|discriminate].
    intros H. inversion H; subst. simpl rows. now apply mapM_length in E.
Qed.

(** The totals of a drawn histogram. *)
Lemma draw_hist_totals
    (d : DataFrame) (col : string) (sel : list Z) (spec : HistSpec) :
  draw_hist d col sel = Ok spec ->
  Zsum (h_all spec) = Z.of_nat (List.length (rows d))
  /\ Zsum (h_selected spec) = Z.of_nat (List.length sel).
Proof using Type. drop_library.
  intros Hspec.
  destruct (draw_hist_inv _ _ _ _ Hspec) as (s & a & top & edges & Hs & Ha & Hh).
  destruct (draw_hist_computed d s col sel a top edges Ha Hh Hs)
    as (j & a_s & m & Hva & _ & Hvs & _ & _ & Hd).
  rewrite Hd in Hspec. inversion Hspec; subst spec. simpl. clear Hspec.
  destruct (histogram_auto_total _ _ _ _ Hh)
    as (Hsum & lo & hi & w & t & Ho & -> & Hne & Hlast).
  destruct (histogram_auto_shape _ _ _ Hh) as (_ & _ & Hmono).
  split.
  - rewrite Hsum, Hva, length_map. reflexivity.
  - destruct (finite_all _ (outer_edges_no_nan _ _ _ _ Ho)) as [_ Hall].
    destruct (hist_rows_spec _ _ _ Hs) as (_ & Hin & _).
    assert (Hsel : forall v, In v (s_values a_s) ->
                     exists q, as_number v = Some q
                               /\ In q (finite (map as_number (s_values a)))).
    { intros v Hv. apply Hall. apply in_map. rewrite Hvs in Hv. rewrite Hva.
      apply in_map_iff in Hv as (r & <- & Hr). apply in_map. now apply Hin. }
    assert (Hnn : existsb is_nan (map as_number (s_values a_s)) = false).
    { apply not_true_iff_false. intros E. apply existsb_exists in E as (o & Ho' & Hn).
      apply in_map_iff in Ho' as (v & <- & Hv).
      destruct (Hsel v Hv) as (q & Eq & _). rewrite Eq in Hn. discriminate. }
    destruct (finite_all _ Hnn) as [Hlen Hfin].
    rewrite bin_counts_sum by assumption.
    rewrite count_if_all.
    + rewrite length_map, Hlen, length_map, Hvs, length_map.
      now rewrite (hist_rows_length _ _ _ Hs).
    + intros x Hx. apply in_map_iff in Hx as (q & <- & Hq).
      assert (Hq' : In q (finite (map as_number (s_values a)))).
      { clear - Hq Hsel.
        induction (s_values a_s) as [|v r IH]; [destruct Hq|].
        simpl in Hq. destruct (Hsel v (or_introl eq_refl)) as (q' & Eq & Hq').
        rewrite Eq in Hq. destruct Hq as [<-|Hq]; [exact Hq'|].
        apply IH; [|exact Hq]. intros u Hu. apply Hsel. now right. }
      destruct (outer_edges_cover _ _ _ _ q Ho Hq') as [_ [H1 H2]].
      unfold in_range. rewrite (Hlast (round64 lo)).
      apply andb_true_intro. split; apply Qle_bool_iff; assumption.
Qed.

(** X1.  Whenever [draw_hist] returns, the 'all' counts add up to the
    number of rows of the table and the 'selected' counts add up to the
    number of selected positions (repeated positions counted as often as
    they are given): no row falls outside the bins or into two of them. *)
Theorem draw_hist_counts_every_row
    (d : DataFrame) (col : string) (sel : list Z) (spec : HistSpec)
    (Hspec : draw_hist d col sel = Ok spec) :
  Zsum (h_all spec) = Z.of_nat (List.length (rows d))
  /\ Zsum (h_selected spec) = Z.of_nat (List.length sel).
Proof using Type. drop_library.
  exact (draw_hist_totals d col sel spec Hspec).
Qed.

(** *** Selected counts and all counts *)



(** *** The bins of a drawn histogram *)

Lemma monotonic_pairs (a : Q) (t : list Q) :
  monotonic (a :: t) = true -> Forall2 Qle (removelast (a :: t)) t.
Proof using Type. drop_library.
  revert a. induction t as [|b t IH]; intros a H; [constructor|].
  simpl in H. apply andb_prop in H as [Hab Ht]. apply Qle_bool_iff in Hab.
  change (removelast (a :: b :: t)) with (a :: removelast (b :: t)).
  constructor; [exact Hab|now apply IH].
Qed.

Lemma removelast_length {A : Type} (l : list A) :
  List.length (removelast l) = pred (List.length l).
Proof using Type. drop_library.
  induction l as [|x t IH]; [reflexivity|].
  destruct t as [|y t']; [reflexivity|].
  change (removelast (x :: y :: t')) with (x :: removelast (y :: t')).
  simpl List.length in *. now rewrite IH.
Qed.

(** X2.  The quads of a drawn histogram tile one interval: there are 50
    of them, each right edge is the next left edge, no quad has its right
    edge before its left edge, and every cell of the column is a number
    that, as float64, lies between the first left edge and the last
    right edge. *)
Theorem draw_hist_bins_tile_range
    (d : DataFrame) (col : string) (sel : list Z) (spec : HistSpec)
    (Hspec : draw_hist d col sel = Ok spec) :
  List.length (h_left spec) = 50%nat
  /\ List.length (h_right spec) = 50%nat
  /\ tl (h_left spec) = removelast (h_right spec)
  /\ Forall2 Qle (h_left spec) (h_right spec)
  /\ forall a v, getitem d col = Ok a -> In v (s_values a) ->
       exists q, as_number v = Some q
                 /\ (hd 0 (h_left spec) <= round64 q)%Q
                 /\ (round64 q <= last (h_right spec) 0)%Q.
Proof using Type. drop_library.
  destruct (draw_hist_inv _ _ _ _ Hspec) as (s & a & top & edges & Hs & Ha & Hh).
  destruct (draw_hist_computed d s col sel a top edges Ha Hh Hs)
    as (j & a_s & m & _ & _ & _ & _ & _ & Hd).
  rewrite Hd in Hspec. inversion Hspec; subst spec. simpl. clear Hspec.
  destruct (histogram_auto_shape _ _ _ Hh) as (Hlen & _ & Hmono).
  destruct (histogram_auto_total _ _ _ _ Hh)
    as (_ & lo & hi & w & t & Ho & -> & Hne & Hlast).
  simpl tl. split; [|split; [|split; [|split]]].
  - rewrite removelast_length, Hlen. reflexivity.
  - simpl in Hlen. lia.
  - destruct t as [|e1 t']; [contradiction|reflexivity].
  - now apply monotonic_pairs.
  - intros a' v Ha' Hv. rewrite Ha in Ha'. inversion Ha'; subst a'.
    destruct (finite_all _ (outer_edges_no_nan _ _ _ _ Ho)) as [_ Hall].
    destruct (Hall (as_number v) (in_map as_number _ _ Hv)) as (q & Eq & Hq).
    exists q. split; [exact Eq|].
    destruct (outer_edges_cover _ _ _ _ q Ho Hq) as [_ [H1 H2]].
    destruct t as [|e1 t']; [contradiction|].
    change (removelast (round64 lo :: e1 :: t'))
      with (round64 lo :: removelast (e1 :: t')).
    simpl hd. rewrite (Hlast 0%Q). split; assumption.
Qed.

(** *** Positions outside the table *)

Lemma mapM_raise {A B : Type} (f : A -> result B) (l : list A) (e0 : exn) (x : A) :
  (forall y e, f y = Raise e -> e = e0) ->
  In x l -> f x = Raise e0 -> mapM f l = Raise e0.
Proof using Type. drop_library.
  intros Hu. induction l as [|y r IH]; intros Hx Hfx; [destruct Hx|].
  simpl. destruct (f y) as [b|e] eqn:Ey; simpl.
  - destruct Hx as [->|Hx]; [congruence|].
    now rewrite (IH Hx Hfx).
  - now rewrite (Hu y e Ey).
Qed.

Lemma iloc_row_raises (rs : list (list value)) (i : Z) (e : exn) :
  iloc_row rs i = Raise e -> e = IndexError.
Proof using Type. drop_library.
  unfold iloc_row.
  destruct ((0 <=? i) && (i <? Z.of_nat (List.length rs))); [discriminate|].
  destruct ((- Z.of_nat (List.length rs) <=? i) && (i <? 0)); [discriminate|].
  intros H. now inversion H.
Qed.

Lemma iloc_row_outside (rs : list (list value)) (i : Z) :
  i < - Z.of_nat (List.length rs) \/ Z.of_nat (List.length rs) <= i ->
  iloc_row rs i = Raise IndexError.
Proof using Type. drop_library.
  intros H. unfold iloc_row.
  destruct ((0 <=? i) && (i <? Z.of_nat (List.length rs))) eqn:E1.
  { apply andb_prop in E1 as [H0 H1]. apply Z.leb_le in H0.
    apply Z.ltb_lt in H1. lia. }
  destruct ((- Z.of_nat (List.length rs) <=? i) && (i <? 0)) eqn:E2.
  { apply andb_prop in E2 as [H0 H1]. apply Z.leb_le in H0.
    apply Z.ltb_lt in H1. lia. }
  reflexivity.
Qed.

Lemma iloc_outside (d : DataFrame) (sel : list Z) (i : Z) :
  In i sel ->
  i < - Z.of_nat (List.length (rows d)) \/ Z.of_nat (List.length (rows d)) <= i ->
  iloc d sel = Raise IndexError.
Proof using Type. drop_library.
  intros Hi Hbad. unfold iloc.
  rewrite (mapM_raise (iloc_row (rows d)) sel IndexError i
             (iloc_row_raises (rows d)) Hi (iloc_row_outside _ _ Hbad)).
  reflexivity.
Qed.

Lemma iloc_inside (d : DataFrame) (sel : list Z) :
  (forall i, In i sel ->
     - Z.of_nat (List.length (rows d)) <= i < Z.of_nat (List.length (rows d))) ->
  exists s, iloc d sel = Ok s.
Proof using Type. drop_library.
  intros Hv. unfold iloc.
  assert (H : exists rs, mapM (iloc_row (rows d)) sel = Ok rs).
  { induction sel as [|i r IH]; [now eexists|].
    destruct IH as [rs Hrs]; [intros k Hk; apply Hv; now right|].
    specialize (Hv i (or_introl eq_refl)).
    simpl. unfold iloc_row at 1.
    destruct ((0 <=? i) && (i <? Z.of_nat (List.length (rows d)))) eqn:E1;
      [rewrite Hrs; now eexists|].
    destruct ((- Z.of_nat (List.length (rows d)) <=? i) && (i <? 0)) eqn:E2;
      [rewrite Hrs; now eexists|].
    exfalso. apply andb_false_iff in E1, E2.
    rewrite Z.leb_gt, Z.ltb_ge in E1. rewrite Z.leb_gt, Z.ltb_ge in E2. lia. }
  destruct H as [rs ->]. now eexists.
Qed.

(** X3.  A selection with a position outside [-n, n), [n] the number of
    rows, makes both subplot functions raise [IndexError], whatever the
    feature: the selected rows are fetched before the column is looked
    up. *)
Theorem subplot_position_out_of_range
    (d : DataFrame) (col : string) (sel : list Z) (i : Z)
    (Hi : In i sel)
    (Hbad : i < - Z.of_nat (List.length (rows d))
            \/ Z.of_nat (List.length (rows d)) <= i) :
  draw_hist d col sel = Raise IndexError
  /\ draw_bar_chart d col sel = Raise IndexError.
Proof using Type. drop_library.
  pose proof (iloc_outside d sel i Hi Hbad) as E.
  destruct sel as [|k r]; [destruct Hi|]. split.
  - rewrite draw_hist_eq. unfold hist_rows. rewrite E. reflexivity.
  - unfold draw_bar_chart.
    replace (0 <? Z.of_nat (List.length (k :: r))) with true
      by (symmetry; apply Z.ltb_lt; simpl List.length; lia).
    rewrite E. reflexivity.
Qed.

(** X4.  A numeric column with a missing cell cannot be drawn: for every
    selection of positions inside the table, the empty one included,
    [draw_hist] raises [ValueError], and so does [draw_subplot] when the
    column's dtype is numeric. *)
Theorem draw_hist_missing_value
    (d : DataFrame) (col : string) (sel : list Z) (a : Series)
    (Ha : getitem d col = Ok a)
    (Hnum : forall v, In v (s_values a) -> is_text v = false)
    (Hnan : In VNaN (s_values a))
    (Hsel : forall i, In i sel ->
              - Z.of_nat (List.length (rows d)) <= i < Z.of_nat (List.length (rows d))) :
  draw_hist d col sel = Raise ValueError
  /\ (is_numeric_dtype (s_dtype a) = true ->
      draw_subplot d col sel = Raise ValueError).
Proof using Type. drop_library.
  assert (E : draw_hist d col sel = Raise ValueError).
  { assert (Hs : exists s, hist_rows d sel = Ok s).
    { unfold hist_rows. destruct sel as [|k r]; [now eexists|].
      now apply iloc_inside. }
    destruct Hs as [s Hs].
    rewrite draw_hist_eq, Hs. cbn [bind]. rewrite Ha. cbn [bind].
    unfold histogram. cbn [Nat.eqb]. rewrite (as_floats_numbers _ Hnum). cbn [bind].
    unfold outer_edges.
    replace (existsb is_nan (map as_number (s_values a))) with true; [reflexivity|].
    symmetry. apply existsb_exists. exists None. split; [|reflexivity].
    change None with (as_number VNaN). now apply in_map. }
  split; [exact E|].
  intros Hn. unfold draw_subplot. rewrite Ha. cbn [bind]. rewrite Hn, E. reflexivity.
Qed.

(** *** Counting values *)

Lemma bump_sum {A : Type} (eqb : A -> A -> bool) (x : A) (acc : list (A * Z)) :
  Zsum (map snd (bump eqb x acc)) = Zsum (map snd acc) + 1.
Proof using Type. drop_library.
  induction acc as [|[y n] r IH]; simpl; [reflexivity|].
  destruct (eqb y x); simpl; [lia|]. rewrite IH. lia.
Qed.

Lemma bump_positive {A : Type} (eqb : A -> A -> bool) (x : A) (acc : list (A * Z)) :
  Forall (fun e => 1 <= snd e) acc ->
  Forall (fun e => 1 <= snd e) (bump eqb x acc).
Proof using Type. drop_library.
  induction 1 as [|[y n] r Hy Hr IH]; simpl.
  - repeat constructor. simpl. lia.
  - destruct (eqb y x); constructor; simpl in *; auto; lia.
Qed.

Lemma tally_spec {A : Type} (eqb : A -> A -> bool) (l : list A) :
  Zsum (map snd (tally eqb l)) = Z.of_nat (List.length l)
  /\ Forall (fun e => 1 <= snd e) (tally eqb l).
Proof using Type. drop_library.
  unfold tally.
  assert (H : forall acc,
             Forall (fun e => 1 <= snd e) acc ->
             Zsum (map snd (fold_left (fun acc x => bump eqb x acc) l acc))
             = Zsum (map snd acc) + Z.of_nat (List.length l)
             /\ Forall (fun e => 1 <= snd e)
                  (fold_left (fun acc x => bump eqb x acc) l acc)).
  { induction l as [|x r IH]; intros acc Hacc; simpl fold_left.
    - split; [simpl; lia|exact Hacc].
    - destruct (IH (bump eqb x acc) (bump_positive eqb x acc Hacc)) as [E F].
      split; [|exact F]. rewrite E, bump_sum. simpl List.length. lia. }
  destruct (H [] (Forall_nil _)) as [E F]. split; [exact E|exact F].
Qed.

Lemma insert_desc_in {A : Type} (e x : A * Z) (l : list (A * Z)) :
  In x (insert_desc e l) <-> x = e \/ In x l.
Proof using Type. drop_library.
  induction l as [|f r IH]; simpl; [intuition|].
  destruct (snd f <=? snd e); simpl; [intuition|]. rewrite IH. intuition.
Qed.

Lemma insert_desc_sum {A : Type} (e : A * Z) (l : list (A * Z)) :
  Zsum (map snd (insert_desc e l)) = snd e + Zsum (map snd l).
Proof using Type. drop_library.
  induction l as [|f r IH]; simpl; [reflexivity|].
  destruct (snd f <=? snd e); simpl; [reflexivity|]. rewrite IH. lia.
Qed.

Definition descending (l : list Z) : Prop :=
  StronglySorted (fun x y => y <= x) l.

Lemma insert_desc_sorted {A : Type} (e : A * Z) (l : list (A * Z)) :
  descending (map snd l) -> descending (map snd (insert_desc e l)).
Proof using Type. drop_library.
  unfold descending. induction l as [|f r IH]; simpl; intros H.
  - repeat constructor.
  - inversion H as [|? ? Hr Hf]; subst.
    destruct (snd f <=? snd e) eqn:E; simpl.
    + apply Z.leb_le in E. constructor; [exact H|].
      constructor; [exact E|].
      eapply Forall_impl; [|exact Hf]. simpl. intros c Hc. lia.
    + apply Z.leb_gt in E. constructor; [now apply IH|].
      apply Forall_forall. intros c Hc.
      apply in_map_iff in Hc as (x & <- & Hx).
      apply insert_desc_in in Hx as [->|Hx]; [lia|].
      rewrite Forall_forall in Hf. apply Hf. now apply in_map.
Qed.

(** Sorting keeps the entries and puts the counts in decreasing order. *)
Lemma sort_desc_spec {A : Type} (l : list (A * Z)) :
  Zsum (map snd (sort_desc l)) = Zsum (map snd l)
  /\ descending (map snd (sort_desc l))
  /\ (forall x, In x (sort_desc l) <-> In x l).
Proof using Type. drop_library.
  unfold sort_desc. induction l as [|e r (IH1 & IH2 & IH3)]; simpl.
  - repeat split; try constructor; auto.
  - split; [|split].
    + rewrite insert_desc_sum, IH1. reflexivity.
    + now apply insert_desc_sorted.
    + intros x. rewrite insert_desc_in, IH3. intuition.
Qed.

(** [value_counts] of a column: the counts are positive, decreasing, and
    add up to the number of cells that are not missing. *)
Lemma series_value_counts_spec (vals : list value) :
  Zsum (map snd (series_value_counts vals))
  = Z.of_nat (List.length (filter (fun v => negb (isna v)) vals))
  /\ descending (map snd (series_value_counts vals))
  /\ Forall (fun c => 1 <= c) (map snd (series_value_counts vals)).
Proof using Type. drop_library.
  unfold series_value_counts.
  set (l := filter (fun v => negb (isna v)) vals).
  destruct (sort_desc_spec (tally value_eqb l)) as (S1 & S2 & S3).
  destruct (tally_spec value_eqb l) as (T1 & T2).
  split; [now rewrite S1, T1|]. split; [exact S2|].
  apply Forall_forall. intros c Hc. apply in_map_iff in Hc as (x & <- & Hx).
  apply S3 in Hx. rewrite Forall_forall in T2. now apply T2.
Qed.

(** *** The data source of the bar chart *)

(** What a drawn bar chart is made of. *)
Lemma draw_bar_chart_inv
    (d : DataFrame) (col : string) (sel : list Z) (b : BarSpec) :
  draw_bar_chart d col sel = Ok b ->
  exists s a cat_color ys mx,
    (sel = [] -> s = empty_like d)
    /\ getitem d col = Ok a
    /\ mapM (fun e => match e with
                      | CInt n => Ok n
                      | CSeries _ => Raise ValueError
                      end)
            (map (fun c => if index_contains (frame_value_counts s) c
                           then counts_getitem (List.length (columns s))
                                  (frame_value_counts s) c
                           else CInt 0)
                 (map fst (series_value_counts (s_values a))))
       = Ok ys
    /\ List.length cat_color
       = List.length (series_value_counts (s_values a))
    /\ array_max (map snd (series_value_counts (s_values a))) = Ok mx
    /\ b = {| b_title := "Distribution of " ++ col;
              b_x := (map fst (series_value_counts (s_values a))
                      ++ map fst (series_value_counts (s_values a)))%list;
              b_counts := (map snd (series_value_counts (s_values a)) ++ ys)%list;
              b_color := (cat_color ++ cat_color)%list;
              b_label :=
                (repeat "all" (List.length (map fst (series_value_counts (s_values a))))
                 ++ repeat "selected"
                      (List.length (map fst (series_value_counts (s_values a)))))%list;
              b_x_range := map fst (series_value_counts (s_values a));
              b_y_range := (0, inject_Z mx * (11 # 10))%Q |}.
Proof using Type. drop_library.
  unfold draw_bar_chart. intros H.
  destruct (if 0 <? Z.of_nat (List.length sel) then iloc d sel else Ok (empty_like d))
    as [s|e] eqn:Es; cbn [bind] in H; [|discriminate].
  destruct (getitem d col) as [a|e] eqn:Ea; cbn [bind] in H; [|discriminate].
  destruct (create_cmap d col) as [[m cp]|e]; cbn [bind] in H; [|discriminate].
  destruct (mapM (palette_color cp) (map fst (series_value_counts (s_values a))))
    as [cat_color|e] eqn:Ec; cbn [bind] in H; [|discriminate].
  unfold concatenate in H.
  destruct (mapM _ (map _ (map fst (series_value_counts (s_values a)))))
    as [ys|e] eqn:Ey in H; cbn [bind] in H; [|discriminate].
  destruct (array_max (map snd (series_value_counts (s_values a))))
    as [mx|e] eqn:Em; cbn [bind] in H; [|discriminate].
  exists s, a, cat_color, ys, mx. repeat split; try assumption.
  - intros ->. simpl in Es. now inversion Es.
  - apply mapM_length in Ec. now rewrite Ec, length_map.
  - now inversion H.
Qed.

(** X5.  The four columns of a drawn bar chart's data source line up:
    with [k >= 1] categories, [x] is the categories twice, the labels are
    [k] times 'all' then [k] times 'selected', the colours are one list of
    [k] colours twice, and there are [2 k] counts. *)
Theorem draw_bar_chart_columns_line_up
    (d : DataFrame) (col : string) (sel : list Z) (b : BarSpec)
    (Hb : draw_bar_chart d col sel = Ok b) :
  (1 <= List.length (b_x_range b))%nat
  /\ b_x b = (b_x_range b ++ b_x_range b)%list
  /\ b_label b = (repeat "all" (List.length (b_x_range b))
                  ++ repeat "selected" (List.length (b_x_range b)))%list
  /\ List.length (b_counts b) = (2 * List.length (b_x_range b))%nat
  /\ exists colors,
       List.length colors = List.length (b_x_range b)
       /\ b_color b = (colors ++ colors)%list.
Proof using Type. drop_library.
  destruct (draw_bar_chart_inv d col sel b Hb)
    as (s & a & cat_color & ys & mx & _ & _ & Hy & Hc & Hm & ->).
  simpl. apply mapM_length in Hy. rewrite !length_map in Hy.
  split; [|split; [|split; [|split]]]; try reflexivity.
  - destruct (series_value_counts (s_values a)); [discriminate|simpl; lia].
  - rewrite length_app, !length_map, Hy. lia.
  - exists cat_color. split; [|reflexivity]. now rewrite length_map.
Qed.

(** X6.  In a drawn bar chart the 'all' counts (the first half of the
    counts) are at least 1 each, in decreasing order, and add up to the
    number of cells of the column that are not missing. *)
Theorem draw_bar_chart_all_counts
    (d : DataFrame) (col : string) (sel : list Z) (b : BarSpec) (a : Series)
    (Hb : draw_bar_chart d col sel = Ok b)
    (Ha : getitem d col = Ok a) :
  let all := firstn (List.length (b_x_range b)) (b_counts b) in
  Zsum all = Z.of_nat (List.length (filter (fun v => negb (isna v)) (s_values a)))
  /\ descending all
  /\ Forall (fun c => 1 <= c) all.
Proof using Type. drop_library.
  destruct (draw_bar_chart_inv d col sel b Hb)
    as (s & a' & cat_color & ys & mx & _ & Ha' & _ & _ & _ & ->).
  rewrite Ha in Ha'. inversion Ha'; subst a'. simpl.
  replace (List.length (map fst (series_value_counts (s_values a))))
    with (List.length (map snd (series_value_counts (s_values a)))
          + 0)%nat by (rewrite !length_map; lia).
  rewrite firstn_app_2. simpl firstn. rewrite app_nil_r.
  apply series_value_counts_spec.
Qed.

Lemma bar_nothing_selected (d : DataFrame) (col : string) (b : BarSpec) :
  draw_bar_chart d col [] = Ok b ->
  skipn (List.length (b_x_range b)) (b_counts b)
  = repeat 0 (List.length (b_x_range b)).
Proof using Type. drop_library.
  intros Hb.
  destruct (draw_bar_chart_inv d col [] b Hb)
    as (s & a & cat_color & ys & mx & Hs & _ & Hy & _ & _ & ->).
  rewrite (Hs eq_refl) in Hy. simpl.
  replace (List.length (map fst (series_value_counts (s_values a))))
    with (List.length (map snd (series_value_counts (s_values a)))
          + 0)%nat at 1 by (rewrite !length_map; lia).
  rewrite skipn_app. rewrite skipn_all2 by lia.
  replace (_ + 0 - _)%nat with 0%nat by lia. simpl.
  clear - Hy. revert ys Hy.
  induction (map fst (series_value_counts (s_values a))) as [|c r IH];
    intros ys Hy; simpl in Hy.
  - now inversion Hy.
  - destruct (mapM _ _) as [zs|e] eqn:E in Hy; cbn [bind] in Hy; [|discriminate].
    inversion Hy; subst. simpl. f_equal. now apply IH.
Qed.

(** X7.  With nothing selected, the 'selected' counts of a drawn bar chart
    (the second half of the counts) are all 0. *)
Theorem draw_bar_chart_nothing_selected
    (d : DataFrame) (col : string) (b : BarSpec)
    (Hb : draw_bar_chart d col [] = Ok b) :
  skipn (List.length (b_x_range b)) (b_counts b)
  = repeat 0 (List.length (b_x_range b)).
Proof using Type. drop_library. exact (bar_nothing_selected d col b Hb). Qed.

(** *** The colour scale of a numeric feature *)

Lemma value_ltb_numbers (v w : value) (p q : Q) :
  as_number v = Some p -> as_number w = Some q ->
  value_ltb v w = negb (Qle_bool q p).
Proof using Type. drop_library.
  intros Hv Hw. unfold value_ltb.
  destruct v, w; try (simpl in Hv, Hw; discriminate);
    cbv beta iota; rewrite Hv, Hw; reflexivity.
Qed.

Lemma not_ltb_le (v w : value) (p q : Q) :
  as_number v = Some p -> as_number w = Some q ->
  (value_ltb v w = false <-> (q <= p)%Q).
Proof using Type. drop_library.
  intros Hv Hw. rewrite (value_ltb_numbers v w p q Hv Hw).
  rewrite negb_false_iff. apply Qle_bool_iff.
Qed.

(** Over numbers, the fold of [min] ends on a cell that no cell is
    smaller than. *)
Lemma fold_min_spec (r : list value) (x : value) :
  (forall v, In v (x :: r) -> exists q, as_number v = Some q) ->
  let m := fold_left (fun m y => if value_ltb y m then y else m) r x in
  In m (x :: r) /\ forall v, In v (x :: r) -> value_ltb v m = false.
Proof using Type. drop_library.
  revert x. induction r as [|y r IH]; intros x Hnum; cbv zeta.
  - simpl. split; [now left|]. intros v [<-|[]].
    destruct (Hnum x (or_introl eq_refl)) as [q Hq].
    apply (not_ltb_le x x q q Hq Hq). apply Qle_refl.
  - simpl fold_left.
    set (x' := if value_ltb y x then y else x).
    assert (Hx' : x' = x \/ x' = y) by (unfold x'; destruct (value_ltb y x); auto).
    assert (Hnum' : forall v, In v (x' :: r) -> exists q, as_number v = Some q).
    { intros v [<-|Hv]; [|apply Hnum; simpl; auto].
      destruct Hx' as [->| ->]; apply Hnum; simpl; auto. }
    destruct (IH x' Hnum') as [Hin Hlow]. split.
    + destruct Hin as [<-|Hin]; [|simpl; auto].
      destruct Hx' as [->| ->]; simpl; auto.
    + set (m := fold_left (fun m y => if value_ltb y m then y else m) r x') in *.
      assert (Hm : exists qm, as_number m = Some qm) by (apply Hnum'; exact Hin).
      destruct Hm as [qm Hqm].
      destruct (Hnum x (or_introl eq_refl)) as [qx Hqx].
      destruct (Hnum y (or_intror (or_introl eq_refl))) as [qy Hqy].
      assert (Hmx' : value_ltb x' m = false) by (apply Hlow; now left).
      assert (Hxx' : exists q', as_number x' = Some q' /\ (q' <= qx)%Q /\ (q' <= qy)%Q).
      { unfold x'. destruct (value_ltb y x) eqn:E.
        - exists qy. split; [exact Hqy|]. split; [|apply Qle_refl].
          rewrite (value_ltb_numbers y x qy qx Hqy Hqx) in E.
          apply negb_true_iff in E. qbool. lra.
        - exists qx. split; [exact Hqx|]. split; [apply Qle_refl|].
          now apply (not_ltb_le y x qy qx Hqy Hqx). }
      destruct Hxx' as (q' & Hq' & L1 & L2).
      apply (not_ltb_le x' m q' qm Hq' Hqm) in Hmx'.
      intros v [<-|[<-|Hv]].
      * apply (not_ltb_le x m qx qm Hqx Hqm). lra.
      * apply (not_ltb_le y m qy qm Hqy Hqm). lra.
      * apply Hlow. now right.
Qed.

Lemma fold_max_spec (r : list value) (x : value) :
  (forall v, In v (x :: r) -> exists q, as_number v = Some q) ->
  let m := fold_left (fun m y => if value_ltb m y then y else m) r x in
  In m (x :: r) /\ forall v, In v (x :: r) -> value_ltb m v = false.
Proof using Type. drop_library.
  revert x. induction r as [|y r IH]; intros x Hnum; cbv zeta.
  - simpl. split; [now left|]. intros v [<-|[]].
    destruct (Hnum x (or_introl eq_refl)) as [q Hq].
    apply (not_ltb_le x x q q Hq Hq). apply Qle_refl.
  - simpl fold_left.
    set (x' := if value_ltb x y then y else x).
    assert (Hx' : x' = x \/ x' = y) by (unfold x'; destruct (value_ltb x y); auto).
    assert (Hnum' : forall v, In v (x' :: r) -> exists q, as_number v = Some q).
    { intros v [<-|Hv]; [|apply Hnum; simpl; auto].
      destruct Hx' as [->| ->]; apply Hnum; simpl; auto. }
    destruct (IH x' Hnum') as [Hin Hup]. split.
    + destruct Hin as [<-|Hin]; [|simpl; auto].
      destruct Hx' as [->| ->]; simpl; auto.
    + set (m := fold_left (fun m y => if value_ltb m y then y else m) r x') in *.
      assert (Hm : exists qm, as_number m = Some qm) by (apply Hnum'; exact Hin).
      destruct Hm as [qm Hqm].
      destruct (Hnum x (or_introl eq_refl)) as [qx Hqx].
      destruct (Hnum y (or_intror (or_introl eq_refl))) as [qy Hqy].
      assert (Hmx' : value_ltb m x' = false) by (apply Hup; now left).
      assert (Hxx' : exists q', as_number x' = Some q' /\ (qx <= q')%Q /\ (qy <= q')%Q).
      { unfold x'. destruct (value_ltb x y) eqn:E.
        - exists qy. split; [exact Hqy|]. split; [|apply Qle_refl].
          rewrite (value_ltb_numbers x y qx qy Hqx Hqy) in E.
          apply negb_true_iff in E. qbool. lra.
        - exists qx. split; [exact Hqx|]. split; [apply Qle_refl|].
          now apply (not_ltb_le x y qx qy Hqx Hqy). }
      destruct Hxx' as (q' & Hq' & L1 & L2).
      apply (not_ltb_le m x' qm q' Hqm Hq') in Hmx'.
      intros v [<-|[<-|Hv]].
      * apply (not_ltb_le m x qm qx Hqm Hqx). lra.
      * apply (not_ltb_le m y qm qy Hqm Hqy). lra.
      * apply Hup. now right.
Qed.

Lemma numeric_not_object (dt : dtype) :
  is_numeric_dtype dt = true -> is_object_dtype dt = false.
Proof using Type. drop_library. destruct dt; simpl; intros H; try reflexivity; discriminate. Qed.

(** X8.  For a numeric column that is not empty and has no missing cell,
    [create_cmap] returns a continuous mapper and no category dictionary;
    [low] and [high] are cells of the column, no cell is smaller than
    [low] or larger than [high], and the mapper is logarithmic exactly
    when every cell is at least 0, linear otherwise. *)
Theorem create_cmap_numeric_scale
    (d : DataFrame) (col : string) (a : Series)
    (Ha : getitem d col = Ok a)
    (Hn : is_numeric_dtype (s_dtype a) = true)
    (Hnum : forall v, In v (s_values a) -> exists q, as_number v = Some q)
    (Hne : s_values a <> []) :
  exists lo hi,
    In lo (s_values a)
    /\ In hi (s_values a)
    /\ (forall v, In v (s_values a) ->
          value_ltb v lo = false /\ value_ltb hi v = false)
    /\ create_cmap d col
       = Ok (if forallb value_nonneg (s_values a)
             then log_cmap col Turbo256 lo hi
             else linear_cmap col Turbo256 lo hi,
             None).
Proof using Type. drop_library.
  destruct (s_values a) as [|x r] eqn:Ev; [contradiction|].
  destruct (fold_min_spec r x Hnum) as [Hlo_in Hlo].
  destruct (fold_max_spec r x Hnum) as [Hhi_in Hhi].
  set (lo := fold_left (fun m y => if value_ltb y m then y else m) r x) in *.
  set (hi := fold_left (fun m y => if value_ltb m y then y else m) r x) in *.
  exists lo, hi. repeat split; auto.
  unfold create_cmap. rewrite Ha. cbn [bind].
  rewrite (numeric_not_object _ Hn), Hn, Ev. cbn [py_min py_max bind].
  fold lo hi. f_equal. f_equal.
  replace (forallb value_nonneg (x :: r)) with (value_nonneg lo); [reflexivity|].
  destruct (value_nonneg lo) eqn:E; symmetry.
  - apply forallb_forall. intros v Hv.
    destruct (Hnum v Hv) as [q Hq]. destruct (Hnum lo Hlo_in) as [ql Hql].
    specialize (Hlo v Hv). apply (not_ltb_le v lo q ql Hq Hql) in Hlo.
    unfold value_nonneg in *. rewrite Hq. rewrite Hql in E. qbool.
    apply Qle_bool_iff. lra.
  - apply not_true_iff_false. intros F. rewrite forallb_forall in F.
    rewrite (F lo Hlo_in) in E. discriminate.
Qed.

(** X9.  [plot_pca] fails exactly when [create_cmap] fails, with the same
    exception; otherwise the glyphs are filled through the mapper
    [create_cmap] returned and read their legend from 'label', and the
    legend fits the mapper: a colour bar over the mapper's palette, [low]
    and [high] for a continuous mapper, the legend moved to the left for
    a categorical one. *)
Theorem plot_pca_follows_cmap (d : DataFrame) (ft : string) :
  match create_cmap d ft with
  | Raise e => plot_pca d ft = Raise e
  | Ok (m, _) =>
      plot_pca d ft
      = Ok {| sc_title := "PCA with Color Map on " ++ ft;
              sc_x := "PCA 1";
              sc_y := "PCA 2";
              sc_fill_color := m;
              sc_legend_field := "label";
              sc_legend := match m with
                           | factor_cmap _ _ _ => LegendLeft
                           | log_cmap _ pal lo hi => ColorBar pal lo hi
                           | linear_cmap _ pal lo hi => ColorBar pal lo hi
                           end |}
  end.
Proof using Type. drop_library.
  unfold plot_pca, create_cmap.
  destruct (getitem d ft) as [a|e]; cbn [bind]; [|reflexivity].
  destruct (is_object_dtype (s_dtype a)) eqn:Ho.
  - assert (Hn : is_numeric_dtype (s_dtype a) = false)
      by (destruct (s_dtype a); simpl in *; try reflexivity; discriminate).
    destruct (Nat.eqb _ 2); cbn [bind].
    + rewrite Hn. reflexivity.
    + destruct (nth_error Turbo256 _); cbn [bind]; [|reflexivity].
      rewrite Hn. reflexivity.
  - destruct (is_numeric_dtype (s_dtype a)) eqn:Hn; [|reflexivity].
    destruct (py_min (s_values a)) as [lo|e]; cbn [bind]; [|reflexivity].
    destruct (py_max (s_values a)) as [hi|e]; cbn [bind]; [|reflexivity].
    destruct (value_nonneg lo); reflexivity.
Qed.

(** X10.  For an object column on which [create_cmap] returns, the
    column's cells have exactly two distinct texts (a missing cell gives
    "nan"); the mapper is a [factor_cmap] on that column whose factors
    are these two texts in strictly increasing order and whose palette is
    black and white, and the category dictionary gives black to the
    first factor and white to the second. *)
Theorem create_cmap_factors
    (d : DataFrame) (col : string) (a : Series)
    (m : mapper) (cat_palette : option (list (string * string)))
    (Ha : getitem d col = Ok a)
    (Ho : is_object_dtype (s_dtype a) = true)
    (Hm : create_cmap d col = Ok (m, cat_palette)) :
  exists x y,
    m = factor_cmap col (PSeq ["#000000"; "#FFFFFF"]) [x; y]
    /\ cat_palette = Some [(x, "#000000"); (y, "#FFFFFF")]
    /\ str_lt x y
    /\ (forall z, z = x \/ z = y <->
          exists v, In v (s_values a) /\ astype_str num_text v = z)
    /\ (In VNaN (s_values a) -> x = "nan" \/ y = "nan").
Proof using Type. drop_library.
  rewrite (create_cmap_object d col a Ha Ho) in Hm. cbv zeta in Hm.
  destruct (unique_spec (map (astype_str num_text) (s_values a))) as [Hs Hi].
  destruct (unique (map (astype_str num_text) (s_values a)))
    as [|x [|y [|z r]]] eqn:El; cbn [List.length Nat.eqb] in Hm;
    try (destruct (nth_error Turbo256 _); discriminate).
  assert (Hin : forall z, z = x \/ z = y <->
                  exists v, In v (s_values a) /\ astype_str num_text v = z).
  { intros z. transitivity (In z [x; y]).
    - simpl. split; intros H; decompose [or] H; auto; contradiction.
    - rewrite Hi, in_map_iff.
      split; intros (v & H1 & H2); exists v; auto. }
  inversion Hm; subst. exists x, y. repeat split.
  - inversion Hs as [|? ? _ Hall]; subst. now inversion Hall.
  - apply Hin.
  - apply Hin.
  - intros H. destruct (proj2 (Hin "nan")) as [E|E]; [|now left|now right].
    exists VNaN. split; [exact H|reflexivity].
Qed.

(** *** The data source as a dictionary *)

Lemma dict_get_set_other {V : Type} (k k' : string) (v : V) (d : list (string * V)) :
  k' <> k -> dict_get k' (dict_set k v d) = dict_get k' d.
Proof using Type. drop_library.
  intros Hne. induction d as [|e r IH]; simpl.
  - destruct (String.eqb_spec k k'); [congruence|reflexivity].
  - destruct (String.eqb_spec (fst e) k) as [E|E]; simpl.
    + destruct (String.eqb_spec k k'); [congruence|].
      destruct (String.eqb_spec (fst e) k'); [congruence|reflexivity].
    + destruct (String.eqb (fst e) k'); [reflexivity|exact IH].
Qed.

Lemma dict_set_keys {V : Type} (k : string) (v : V) (d : list (string * V)) :
  In k (map fst d) -> map fst (dict_set k v d) = map fst d.
Proof using Type. drop_library.
  induction d as [|e r IH]; simpl; [intros []|].
  destruct (String.eqb_spec (fst e) k) as [E|E]; simpl.
  - intros _. now rewrite E.
  - intros [H|H]; [contradiction|]. now rewrite IH.
Qed.

Lemma dict_set_in {V : Type} (k k' : string) (v v' : V) (d : list (string * V)) :
  In (k', v') (dict_set k v d) -> (k', v') = (k, v) \/ In (k', v') d.
Proof using Type. drop_library.
  induction d as [|e r IH]; simpl.
  - intros [H|[]]. now left.
  - destruct (String.eqb (fst e) k); simpl.
    + intros [H|H]; auto.
    + intros [H|H]; auto. destruct (IH H); auto.
Qed.

Lemma ColumnDataSource_keys (d : DataFrame) :
  map fst (ColumnDataSource d) = index_name d :: column_names d.
Proof using Type. drop_library.
  unfold ColumnDataSource. cbn [map fst]. f_equal.
  unfold column_names. rewrite map_map. simpl.
  rewrite <- (map_map (fun j => nth j (columns d) ("", object_)) fst).
  now rewrite map_nth_seq.
Qed.

Lemma ColumnDataSource_lengths (d : DataFrame) (k : string) (v : list value) :
  In (k, v) (ColumnDataSource d) -> List.length v = List.length (rows d).
Proof using Type. drop_library.
  unfold ColumnDataSource. intros [E|H].
  - inversion E. now rewrite length_map, length_seq.
  - apply in_map_iff in H as (j & E & _). inversion E. apply length_map.
Qed.

Lemma getitem_length (d : DataFrame) (col : string) (a : Series) :
  getitem d col = Ok a -> List.length (s_values a) = List.length (rows d).
Proof using Type. drop_library.
  unfold getitem. destruct (index_of col (column_names d)); [|discriminate].
  intros H. inversion H. simpl. apply length_map.
Qed.

Lemma set_header_names (name x : string) (dt : dtype) (h : list (string * dtype)) :
  In x (map fst (set_header name dt h)) <-> x = name \/ In x (map fst h).
Proof using Type. drop_library.
  induction h as [|c r IH]; simpl.
  - intuition.
  - destruct (String.eqb_spec (fst c) name) as [E|E]; simpl.
    + rewrite E. intuition.
    + rewrite IH. intuition.
Qed.

(** *** What the callbacks keep *)

(** X11.  When [update_pca_col] returns normally, the new name is a
    column, the colour feature is that name, the source's 'label' column
    is that column's cells, the scatter plot is the one [plot_pca] draws
    for it, and nothing else has changed: not the table, not any other
    column of the source, not the subplot, its feature or the selection. *)
Theorem update_pca_col_repaints
    (attrname old new : string) (st st' : Session)
    (H : update_pca_col attrname old new st = (st', Ok tt)) :
  exists a,
    getitem (df st) new = Ok a
    /\ pca_ft_selected st' = new
    /\ dict_get "label" (p_pca_source st') = Some (s_values a)
    /\ (forall k, k <> "label" ->
          dict_get k (p_pca_source st') = dict_get k (p_pca_source st))
    /\ plot_pca (df st) new = Ok (layout_p_pca st')
    /\ df st' = df st
    /\ sub_ft_selected st' = sub_ft_selected st
    /\ points_selected st' = points_selected st
    /\ layout_p_sub st' = layout_p_sub st.
Proof using Type. drop_library.
  unfold update_pca_col in H. simpl df in H.
  destruct (getitem (df st) new) as [a|e] eqn:Ea; [|discriminate].
  simpl in H. destruct (plot_pca (df st) new) as [p|e] eqn:Ep; [|discriminate].
  inversion H; subst st'. exists a. simpl.
  repeat split; try reflexivity.
  - apply dict_get_set.
  - intros k Hk. now apply dict_get_set_other.
Qed.

(** X12.  When the new name is a column whose dtype is neither numeric
    nor object, [update_pca_col] raises [UnboundLocalError] for [mapper]
    after it has replaced the colour feature and the source's 'label'
    column; the scatter plot in the layout stays the old one. *)
Theorem update_pca_col_undrawable_dtype
    (attrname old new : string) (st : Session) (a : Series)
    (Ha : getitem (df st) new = Ok a)
    (Hn : is_numeric_dtype (s_dtype a) = false)
    (Ho : is_object_dtype (s_dtype a) = false) :
  update_pca_col attrname old new st
  = (set_source (set_pca_ft st new)
       (dict_set "label" (s_values a) (p_pca_source st)),
     Raise (UnboundLocalError "mapper"))
  /\ layout_p_pca (fst (update_pca_col attrname old new st)) = layout_p_pca st
  /\ pca_ft_selected (fst (update_pca_col attrname old new st)) = new
  /\ dict_get "label" (p_pca_source (fst (update_pca_col attrname old new st)))
     = Some (s_values a).
Proof using Type. drop_library.
  assert (E : update_pca_col attrname old new st
              = (set_source (set_pca_ft st new)
                   (dict_set "label" (s_values a) (p_pca_source st)),
                 Raise (UnboundLocalError "mapper"))).
  { unfold update_pca_col. simpl df. rewrite Ha. simpl.
    unfold plot_pca, create_cmap. rewrite Ha. cbn [bind]. now rewrite Ho, Hn. }
  rewrite E. simpl. repeat split. apply dict_get_set.
Qed.

(** X13.  When the new name is not a column, [update_sub_col] raises the
    lookup's [KeyError], whatever the selection; the subplot in the
    layout and everything else stay as they were, except that the
    subplot feature has already been overwritten with the rejected
    name. *)
Theorem update_sub_col_unknown_column
    (attrname old new : string) (st : Session)
    (Hnew : ~ In new (column_names (df st))) :
  update_sub_col attrname old new st
  = (set_sub_ft st new, Raise (KeyError (VStr new)))
  /\ sub_ft_selected (fst (update_sub_col attrname old new st)) = new
  /\ layout_p_sub (fst (update_sub_col attrname old new st)) = layout_p_sub st
  /\ points_selected (fst (update_sub_col attrname old new st)) = points_selected st
  /\ pca_ft_selected (fst (update_sub_col attrname old new st)) = pca_ft_selected st
  /\ p_pca_source (fst (update_sub_col attrname old new st)) = p_pca_source st.
Proof using Type. drop_library.
  assert (E : update_sub_col attrname old new st
              = (set_sub_ft st new, Raise (KeyError (VStr new)))).
  { unfold update_sub_col, draw_subplot. simpl df. simpl sub_ft_selected.
    now rewrite (getitem_unknown _ _ Hnew). }
  rewrite E. simpl. repeat split.
Qed.

(** X14.  A lasso event that carries a selection object stores its
    indices, whether or not its own redraw succeeds, and a later switch
    of the subplot feature draws the new feature for exactly those
    indices. *)
Theorem lasso_then_switch
    (attr : string) (old : change_value) (indices : list Z)
    (attrname old' new : string) (st : Session) :
  let st1 := fst (lasso_update attr old (Selection indices) st) in
  points_selected st1 = indices
  /\ sub_ft_selected st1 = sub_ft_selected st
  /\ df st1 = df st
  /\ match draw_subplot (df st) new indices with
     | Ok p =>
         snd (update_sub_col attrname old' new st1) = Ok tt
         /\ layout_p_sub (fst (update_sub_col attrname old' new st1)) = p
         /\ points_selected (fst (update_sub_col attrname old' new st1)) = indices
     | Raise e =>
         snd (update_sub_col attrname old' new st1) = Raise e
         /\ points_selected (fst (update_sub_col attrname old' new st1)) = indices
     end.
Proof using Type. drop_library.
  cbv zeta. unfold lasso_update. simpl df. simpl sub_ft_selected.
  simpl points_selected.
  destruct (draw_subplot (df st) (sub_ft_selected st) indices) as [p0|e0];
    simpl fst; (split; [reflexivity|]); (split; [reflexivity|]);
    (split; [reflexivity|]);
    unfold update_sub_col; simpl df; simpl sub_ft_selected; simpl points_selected;
    destruct (draw_subplot (df st) new indices) as [p|e]; simpl; repeat split.
Qed.

(** *** Sessions *)

(** The server runs the callbacks one at a time; an exception ends the
    callback, not the session. *)
Inductive callback : Type :=
| on_pca_col (attrname old new : string)
| on_sub_col (attrname old new : string)
| on_lasso (attr : string) (old new : change_value).

Definition dispatch (c : callback) (st : Session) : Session * result unit :=
  match c with
  | on_pca_col attrname old new => update_pca_col attrname old new st
  | on_sub_col attrname old new => update_sub_col attrname old new st
  | on_lasso attr old new => lasso_update attr old new st
  end.

Definition run (cs : list callback) (st : Session) : Session :=
  fold_left (fun s c => fst (dispatch c s)) cs st.

(** The source has the index column and then the table's columns, 'label'
    among them, each with one cell per row. *)
Definition consistent (st : Session) : Prop :=
  map fst (p_pca_source st) = index_name (df st) :: column_names (df st)
  /\ In "label" (column_names (df st))
  /\ forall k v, In (k, v) (p_pca_source st) ->
       List.length v = List.length (rows (df st)).

Lemma dispatch_keeps (c : callback) (st : Session) :
  consistent st ->
  df (fst (dispatch c st)) = df st
  /\ consistent (fst (dispatch c st))
  /\ forall k, k <> "label" ->
       dict_get k (p_pca_source (fst (dispatch c st))) = dict_get k (p_pca_source st).
Proof using Type. drop_library.
  intros (Hk & Hl & Hv).
  assert (Hsame : forall st', df st' = df st -> p_pca_source st' = p_pca_source st ->
            df st' = df st /\ consistent st'
            /\ forall k, k <> "label" ->
                 dict_get k (p_pca_source st') = dict_get k (p_pca_source st)).
  { intros st' Ed Es. split; [exact Ed|]. split; [|intros; now rewrite Es].
    unfold consistent. rewrite Ed, Es. auto. }
  destruct c as [attrname old new|attrname old new|attr old new]; simpl dispatch.
  - unfold update_pca_col. simpl df.
    destruct (getitem (df st) new) as [a|e] eqn:Ea; [|now apply Hsame].
    assert (Hset : forall st',
              df st' = df st ->
              p_pca_source st' = dict_set "label" (s_values a) (p_pca_source st) ->
              df st' = df st /\ consistent st'
              /\ forall k, k <> "label" ->
                   dict_get k (p_pca_source st') = dict_get k (p_pca_source st)).
    { intros st' Ed Es. split; [exact Ed|]. split.
      - unfold consistent. rewrite Ed, Es. split; [|split; [exact Hl|]].
        + rewrite dict_set_keys; [exact Hk|]. rewrite Hk. now right.
        + intros k v Hin. apply dict_set_in in Hin as [E|Hin]; [|now apply Hv with k].
          inversion E; subst. now apply getitem_length with new.
      - intros k Hne. rewrite Es. now apply dict_get_set_other. }
    simpl. destruct (plot_pca (df st) new); now apply Hset.
  - unfold update_sub_col. simpl df. simpl sub_ft_selected. simpl points_selected.
    destruct (draw_subplot (df st) new (points_selected st)); now apply Hsame.
  - unfold lasso_update. destruct new as [indices|l]; [|now apply Hsame].
    simpl df. simpl sub_ft_selected. simpl points_selected.
    destruct (draw_subplot (df st) (sub_ft_selected st) indices); now apply Hsame.
Qed.

Lemma startup_inv (d0 : DataFrame) (st : Session) :
  startup d0 = Ok st ->
  exists p_pca p_sub,
    plot_pca (setitem_scalar d0 "label" object_ (VStr "Market Cap")) "Market Cap"
    = Ok p_pca
    /\ draw_subplot (setitem_scalar d0 "label" object_ (VStr "Market Cap"))
         "Mean Recommendation" [] = Ok p_sub
    /\ st = {| df := setitem_scalar d0 "label" object_ (VStr "Market Cap");
               p_pca_source :=
                 ColumnDataSource
                   (setitem_scalar d0 "label" object_ (VStr "Market Cap"));
               pca_ft_selected := "Market Cap";
               sub_ft_selected := "Mean Recommendation";
               points_selected := [];
               layout_p_pca := p_pca;
               layout_p_sub := p_sub |}.
Proof using Type. drop_library.
  unfold startup. cbv zeta.
  destruct (plot_pca _ "Market Cap") as [p|e]; cbn [bind]; [|discriminate].
  destruct (draw_subplot _ "Mean Recommendation" []) as [q|e]; cbn [bind];
    [|discriminate].
  intros H. inversion H. exists p, q. repeat split.
Qed.

Lemma startup_consistent (d0 : DataFrame) (st : Session) :
  startup d0 = Ok st -> consistent st.
Proof using Type. drop_library.
  intros H. destruct (startup_inv d0 st H) as (p & q & _ & _ & ->).
  unfold consistent. cbn [df p_pca_source].
  split; [apply ColumnDataSource_keys|]. split.
  - unfold column_names, setitem_scalar. simpl. apply set_header_names. now left.
  - intros k v Hin. now apply ColumnDataSource_lengths with k.
Qed.

(** X15.  In every session reached from a successful startup by any
    sequence of callbacks, failed ones included, the table is the one
    startup built, the data source has the column of the frame's index
    followed by exactly the table's columns, with one cell per row in
    each, and every source column other than 'label' still holds what it
    held at startup. *)
Theorem session_invariant
    (d0 : DataFrame) (st0 : Session) (cs : list callback)
    (H0 : startup d0 = Ok st0) :
  df (run cs st0) = df st0
  /\ map fst (p_pca_source (run cs st0))
     = index_name (df st0) :: column_names (df st0)
  /\ (forall k v, In (k, v) (p_pca_source (run cs st0)) ->
        List.length v = List.length (rows (df st0)))
  /\ (forall k, k <> "label" ->
        dict_get k (p_pca_source (run cs st0)) = dict_get k (p_pca_source st0)).
Proof using Type. drop_library.
  pose proof (startup_consistent d0 st0 H0) as Hc. clear H0.
  assert (G : forall st, consistent st ->
            df (run cs st) = df st /\ consistent (run cs st)
            /\ forall k, k <> "label" ->
                 dict_get k (p_pca_source (run cs st)) = dict_get k (p_pca_source st)).
  { induction cs as [|c r IH]; intros st Hst; [simpl; auto|].
    change (run (c :: r) st) with (run r (fst (dispatch c st))).
    destruct (dispatch_keeps c st Hst) as (D1 & C1 & K1).
    destruct (IH _ C1) as (D2 & C2 & K2).
    split; [congruence|]. split; [exact C2|].
    intros k Hk. rewrite K2, K1; auto. }
  destruct (G st0 Hc) as (D & (Ck & _ & Cv) & K).
  rewrite D in Ck, Cv. auto.
Qed.

(** *** Startup *)

Lemma draw_hist_nothing_selected (d : DataFrame) (col : string) (h : HistSpec) :
  draw_hist d col [] = Ok h -> h_selected h = repeat 0 50.
Proof using Type. drop_library.
  intros H.
  destruct (draw_hist_inv _ _ _ _ H) as (s & a & top & edges & Hs & Ha & Hh).
  destruct (draw_hist_computed d s col [] a top edges Ha Hh Hs)
    as (j & a_s & m & _ & _ & Hvs & _ & _ & Hd).
  rewrite Hd in H. inversion H; subst h. simpl.
  destruct (hist_rows_spec _ _ _ Hs) as (_ & _ & Hnil).
  destruct (histogram_auto_shape _ _ _ Hh) as (Hlen & _ & _).
  rewrite Hvs, (Hnil eq_refl). simpl. now rewrite bin_counts_nil, Hlen.
Qed.

(** X16.  After a successful startup nothing is selected, the colour
    feature is 'Market Cap', the subplot feature is 'Mean Recommendation',
    and the subplot shows no selected row: 50 zero 'selected' counts if
    it is a histogram, a zero for every category if it is a bar chart. *)
Theorem startup_nothing_selected
    (d0 : DataFrame) (st : Session)
    (H : startup d0 = Ok st) :
  points_selected st = []
  /\ pca_ft_selected st = "Market Cap"
  /\ sub_ft_selected st = "Mean Recommendation"
  /\ draw_subplot (df st) (sub_ft_selected st) (points_selected st)
     = Ok (layout_p_sub st)
  /\ match layout_p_sub st with
     | Hist h => h_selected h = repeat 0 50
     | Bar b =>
         skipn (List.length (b_x_range b)) (b_counts b)
         = repeat 0 (List.length (b_x_range b))
     end.
Proof using Type. drop_library.
  destruct (startup_inv d0 st H) as (p & q & _ & Hq & ->). cbn.
  repeat split; try assumption.
  unfold draw_subplot in Hq.
  destruct (getitem _ "Mean Recommendation") as [a|e]; cbn [bind] in Hq;
    [|discriminate].
  destruct (is_numeric_dtype (s_dtype a)).
  - destruct (draw_hist _ "Mean Recommendation" []) as [h|e] eqn:Eh;
      cbn [bind] in Hq; [|discriminate].
    inversion Hq; subst q. exact (draw_hist_nothing_selected _ _ h Eh).
  - destruct (is_object_dtype (s_dtype a)); [|discriminate].
    destruct (draw_bar_chart _ "Mean Recommendation" []) as [b|e] eqn:Eb;
      cbn [bind] in Hq; [|discriminate].
    inversion Hq; subst q. exact (bar_nothing_selected _ _ b Eb).
Qed.


(** *** Columns that an assignment leaves alone *)

Lemma set_header_index_other (name c : string) (dt : dtype) (h : list (string * dtype)) :
  c <> name ->
  index_of c (map fst (set_header name dt h)) = index_of c (map fst h).
Proof using Type. drop_library.
  intros Hne. induction h as [|e r IH]; simpl.
  - destruct (String.eqb_spec name c); [congruence|reflexivity].
  - destruct (String.eqb_spec (fst e) name) as [E|E]; simpl.
    + destruct (String.eqb_spec name c); [congruence|].
      destruct (String.eqb_spec (fst e) c); [congruence|reflexivity].
    + destruct (String.eqb (fst e) c); [reflexivity|now rewrite IH].
Qed.

Lemma set_header_nth_other (name c : string) (dt : dtype)
    (h : list (string * dtype)) (j : nat) (dflt : string * dtype) :
  c <> name -> index_of c (map fst h) = Some j ->
  nth j (set_header name dt h) dflt = nth j h dflt.
Proof using Type. drop_library.
  intros Hne. revert j. induction h as [|e r IH]; simpl; intros j H; [discriminate|].
  destruct (String.eqb_spec (fst e) c) as [E|E].
  - inversion H; subst j.
    destruct (String.eqb_spec (fst e) name); [congruence|reflexivity].
  - destruct (index_of c (map fst r)) as [k|] eqn:Ek; [|discriminate].
    inversion H; subst j.
    destruct (String.eqb_spec (fst e) name); [reflexivity|].
    simpl. now apply IH.
Qed.

Lemma set_header_length (name : string) (dt : dtype) (h : list (string * dtype)) :
  List.length (set_header name dt h)
  = match index_of name (map fst h) with
    | Some _ => List.length h
    | None => S (List.length h)
    end.
Proof using Type. drop_library.
  induction h as [|e r IH]; simpl; [reflexivity|].
  destruct (String.eqb (fst e) name); simpl; [reflexivity|].
  rewrite IH. destruct (index_of name (map fst r)); reflexivity.
Qed.

Lemma index_of_inj (a b : string) (l : list string) (j : nat) :
  index_of a l = Some j -> index_of b l = Some j -> a = b.
Proof using Type. drop_library.
  revert j. induction l as [|x r IH]; simpl; intros j Ha Hb; [discriminate|].
  destruct (String.eqb_spec x a) as [Ea|Ea], (String.eqb_spec x b) as [Eb|Eb].
  - congruence.
  - destruct (index_of b r); inversion Ha; inversion Hb; subst; discriminate.
  - destruct (index_of a r); inversion Ha; inversion Hb; subst; discriminate.
  - destruct (index_of a r) as [ka|]; [|discriminate].
    destruct (index_of b r) as [kb|]; [|discriminate].
    inversion Ha; inversion Hb; subst. apply (IH ka); congruence.
Qed.

Lemma set_cell_length (j : nat) (r : list value) (v : value) :
  (j <= List.length r)%nat ->
  List.length (set_cell j r v)
  = if (j <? List.length r)%nat then List.length r else S (List.length r).
Proof using Type. drop_library.
  intros Hj. unfold set_cell.
  rewrite length_app, length_firstn. cbn [List.length]. rewrite length_skipn.
  destruct (Nat.ltb_spec j (List.length r)); lia.
Qed.

Lemma cell_set_cell_other (j j0 : nat) (r : list value) (v : value) :
  j <> j0 -> (j0 <= List.length r)%nat ->
  cell j (set_cell j0 r v) = cell j r.
Proof using Type. drop_library.
  intros Hne Hj0. unfold cell, set_cell.
  destruct (Nat.lt_ge_cases j j0) as [L|G].
  - rewrite app_nth1 by (rewrite length_firstn; lia).
    rewrite nth_firstn. apply Nat.ltb_lt in L. now rewrite L.
  - rewrite app_nth2 by (rewrite length_firstn; lia).
    rewrite length_firstn, Nat.min_l by exact Hj0.
    destruct (j - j0)%nat as [|k] eqn:E; [lia|].
    cbn [nth]. rewrite nth_skipn. f_equal. lia.
Qed.

Lemma map_fst_combine {A B : Type} (l : list A) (l' : list B) :
  List.length l' = List.length l -> map fst (combine l l') = l.
Proof using Type. drop_library.
  revert l'. induction l as [|x r IH]; intros [|y r'] H; simpl in *;
    try reflexivity; try discriminate.
  f_equal. apply IH. lia.
Qed.

(** [df[name] = vals] on a well-formed table leaves every other column as
    it was and the table well-formed. *)
Lemma setitem_other (d d' : DataFrame) (name : string) (dt : dtype)
    (vals : list value) :
  well_formed d ->
  setitem d name dt vals = Ok d' ->
  well_formed d'
  /\ List.length (rows d') = List.length (rows d)
  /\ forall c, c <> name -> getitem d' c = getitem d c.
Proof using Type. drop_library.
  intros Hwf. unfold setitem.
  destruct (Nat.eqb_spec (List.length vals) (List.length (rows d))) as [Hlen|];
    [|discriminate].
  intros H. inversion H; subst d'; clear H.
  pose proof (column_slot_le d name) as Hslot.
  split; [|split].
  - intros r Hr. simpl in Hr |- *.
    apply in_map_iff in Hr as ([r0 v] & <- & Hrv). simpl.
    apply in_combine_l in Hrv. specialize (Hwf r0 Hrv).
    rewrite set_cell_length by (rewrite Hwf; exact Hslot).
    rewrite set_header_length. unfold column_slot in *. fold (column_names d).
    destruct (index_of name (column_names d)) as [j|] eqn:E.
    + apply index_of_lt in E. unfold column_names in E. rewrite length_map in E.
      rewrite Hwf. apply Nat.ltb_lt in E. now rewrite E.
    + rewrite Hwf, Nat.ltb_irrefl. reflexivity.
  - simpl. rewrite length_map, length_combine. lia.
  - intros c Hc. unfold getitem, column_names. simpl columns.
    rewrite (set_header_index_other name c dt (columns d) Hc).
    destruct (index_of c (map fst (columns d))) as [j|] eqn:Ej; [|reflexivity].
    rewrite (set_header_nth_other name c dt (columns d) j _ Hc Ej).
    f_equal. f_equal. simpl rows. rewrite map_map.
    rewrite <- (map_fst_combine (rows d) vals Hlen) at 2. rewrite map_map.
    apply map_ext_in. intros [r v] Hrv. simpl.
    apply in_combine_l in Hrv. specialize (Hwf r Hrv).
    apply cell_set_cell_other; [|rewrite Hwf; exact Hslot].
    unfold column_slot. fold (column_names d).
    destruct (index_of name (column_names d)) as [j0|] eqn:E0.
    + intros ->. apply Hc. now apply (index_of_inj c name (column_names d) j0).
    + apply index_of_lt in Ej. rewrite length_map in Ej. lia.
Qed.

(** *** 1.1 Principal component analysis

    The first function of the script, placed here with the properties
    that involve it. *)

(** The three scikit-learn transformers, each by its [fit_transform]: a
    matrix in, a matrix out or an exception. *)
Variable MinMaxScaler_fit_transform :
  list (list value) -> result (list (list value)).
Variable SimpleImputer_fit_transform :
  string -> list (list value) -> result (list (list value)).
Variable PCA_fit_transform :
  Z -> list (list value) -> result (list (list value)).

(** [df.select_dtypes(include=np.number)], as a matrix: the cells of the
    columns whose dtype is a NumPy number. *)
Definition select_dtypes_number (df : DataFrame) : list (list value) :=
  let js := filter (fun j => is_np_number (snd (nth j (columns df) ("", object_))))
                   (seq 0 (List.length (columns df))) in
  map (fun r => map (fun j => cell j r) js) (rows df).

(** [M[:, j]]. *)
Definition matrix_column (j : nat) (M : list (list value)) : result (list value) :=
  mapM (fun r => match nth_error r j with
                 | Some v => Ok v
                 | None => Raise IndexError
                 end) M.

(** The reassignment of [X] after the projection has no effect on what
    is returned and is left out. *)
Definition pca (df : DataFrame) : result DataFrame :=
  let X := select_dtypes_number df in
  X_scaled <- MinMaxScaler_fit_transform X ;;
  X_imp <- SimpleImputer_fit_transform "mean" X_scaled ;;
  X_pca <- PCA_fit_transform 2 X_imp ;;
  c1 <- matrix_column 0 X_pca ;;
  df1 <- setitem df "PCA 1" float64 c1 ;;
  c2 <- matrix_column 1 X_pca ;;
  setitem df1 "PCA 2" float64 c2.

Ltac drop_library ::=
  try clear MiniBatchKMeans_fit; try clear np_random_seed; try clear rng;
  try clear PCA_fit_transform; try clear SimpleImputer_fit_transform;
  try clear MinMaxScaler_fit_transform; try clear num_text; try clear Turbo256.

(** *** Clustering and the projection *)

Lemma index_of_some_in (name : string) (l : list string) (j : nat) :
  index_of name l = Some j -> In name l.
Proof using Type. drop_library.
  revert j. induction l as [|x r IH]; simpl; intros j H; [discriminate|].
  destruct (String.eqb_spec x name) as [E|E]; [now left|].
  destruct (index_of name r) as [k|]; [|discriminate].
  right. now apply (IH k).
Qed.

(** X18.  Without a column 'PCA 1' or without a column 'PCA 2', the
    lookup of the two projection columns raises [KeyError] and so does
    [clustering], before it touches the random generator: the fit is not
    run and the generator state is the one it was called with. *)
Theorem clustering_missing_projection
    (d : DataFrame) (n_clusters : Z) (g : rng)
    (H : ~ In "PCA 1" (column_names d) \/ ~ In "PCA 2" (column_names d)) :
  exists msg,
    getitems d ["PCA 1"; "PCA 2"] = Raise (KeyError (VStr msg))
    /\ clustering d n_clusters g = (Raise (KeyError (VStr msg)), g).
Proof using Type. drop_library.
  assert (G : exists msg, getitems d ["PCA 1"; "PCA 2"] = Raise (KeyError (VStr msg))).
  { unfold getitems, missing_labels. cbn [filter].
    destruct (index_of "PCA 1" (column_names d)) as [j1|] eqn:E1;
      destruct (index_of "PCA 2" (column_names d)) as [j2|] eqn:E2;
      try (eexists; reflexivity).
    exfalso. destruct H as [H|H]; apply H.
    - now apply index_of_some_in with j1.
    - now apply index_of_some_in with j2. }
  destruct G as [msg G]. exists msg. split; [exact G|].
  unfold clustering. now rewrite G.
Qed.

(** X19.  On a well-formed table with both projection columns, when the
    fit returns one label per row, [clustering] returns a well-formed
    table with as many rows in which every column other than 'Cluster' is
    what it was. *)
Theorem clustering_keeps_columns
    (d : DataFrame) (n_clusters : Z) (g g' : rng)
    (X_pca : list (list value)) (labels : list Z)
    (Hwf : well_formed d)
    (HX : getitems d ["PCA 1"; "PCA 2"] = Ok X_pca)
    (Hfit : MiniBatchKMeans_fit n_clusters 2 X_pca (np_random_seed 0)
            = (Ok labels, g'))
    (Hlen : List.length labels = List.length (rows d)) :
  exists d',
    clustering d n_clusters g = (Ok d', g')
    /\ well_formed d'
    /\ List.length (rows d') = List.length (rows d)
    /\ forall c, c <> "Cluster" -> getitem d' c = getitem d c.
Proof using Type. drop_library.
  destruct (getitem_setitem d "Cluster" object_
              (map (fun l => VStr (str_of_int l)) labels) Hwf)
    as (d' & Hset & _ & _); [now rewrite length_map|].
  exists d'. split.
  - unfold clustering. now rewrite HX, Hfit, Hset.
  - exact (setitem_other d d' "Cluster" object_ _ Hwf Hset).
Qed.

Lemma setitem_getitem (d d' : DataFrame) (name : string) (dt : dtype)
    (vals : list value) :
  well_formed d ->
  setitem d name dt vals = Ok d' ->
  getitem d' name = Ok {| s_dtype := dt; s_values := vals |}
  /\ List.length vals = List.length (rows d).
Proof using Type. drop_library.
  intros Hwf Hset.
  assert (Hlen : List.length vals = List.length (rows d)).
  { unfold setitem in Hset.
    destruct (Nat.eqb_spec (List.length vals) (List.length (rows d)));
      [assumption|discriminate]. }
  destruct (getitem_setitem d name dt vals Hwf Hlen) as (d'' & Hset' & Hget & _).
  rewrite Hset in Hset'. inversion Hset'; subst d''. auto.
Qed.

Lemma combine_map {A B C : Type} (f : A -> B) (g : A -> C) (l : list A) :
  combine (map f l) (map g l) = map (fun x => (f x, g x)) l.
Proof using Type. drop_library. induction l as [|x r IH]; simpl; [reflexivity|now rewrite IH]. Qed.

(** [df[[a, b]]] pairs up the cells of [df[a]] and [df[b]]. *)
Lemma getitems_pair (d : DataFrame) (a b : string) (sa sb : Series) :
  getitem d a = Ok sa -> getitem d b = Ok sb ->
  getitems d [a; b]
  = Ok (map (fun p => [fst p; snd p]) (combine (s_values sa) (s_values sb))).
Proof using Type. drop_library.
  unfold getitem, getitems, missing_labels.
  destruct (index_of a (column_names d)) as [ja|] eqn:Ea; [|discriminate].
  destruct (index_of b (column_names d)) as [jb|] eqn:Eb; [|discriminate].
  intros Ha Hb. inversion Ha; inversion Hb; subst. cbn [s_values map filter].
  rewrite Ea, Eb. unfold column_slot. rewrite Ea, Eb.
  rewrite combine_map, map_map. cbn [fst snd]. reflexivity.
Qed.

(** *** The cluster count

    What scikit-learn documents for [MiniBatchKMeans(n_clusters,
    n_init).fit(X)], as far as the cluster count goes.  A count below 1
    is refused when the parameters are validated and a count above the
    number of samples when the data is checked, both with [ValueError]
    (the first with its subclass [InvalidParameterError]).  With a count
    in between and a matrix of finite numbers the fit returns one label
    per sample, each label one of 0, ..., [n_clusters - 1]. *)
Definition fit_rejects_count : Prop :=
  forall (n_clusters n_init : Z) (X : list (list value)) (g : rng),
    n_clusters < 1 \/ Z.of_nat (List.length X) < n_clusters ->
    fst (MiniBatchKMeans_fit n_clusters n_init X g) = Raise ValueError.

Definition fit_labels_every_row : Prop :=
  forall (n_clusters n_init : Z) (X : list (list value)) (g : rng),
    1 <= n_clusters <= Z.of_nat (List.length X) ->
    (forall r v, In r X -> In v r -> exists q, v = VNum q) ->
    exists labels,
      fst (MiniBatchKMeans_fit n_clusters n_init X g) = Ok labels
      /\ List.length labels = List.length X
      /\ Forall (fun l => 0 <= l < n_clusters) labels.

(** C6 (as amended).  [clustering] has no check of its own and no error
    of its own: the count is judged by the fit.  With a fit that keeps
    scikit-learn's contract, on a well-formed table whose projection
    columns hold numbers, every count below 1 or above the number of
    rows ends in the fit's [ValueError], and every count in between
    gives one label per row, written as text into 'Cluster', with every
    other column unchanged. *)
Theorem clustering_cluster_count_range
    (d : DataFrame) (n_clusters : Z) (g : rng) (c1 c2 : Series)
    (Hreject : fit_rejects_count)
    (Haccept : fit_labels_every_row)
    (Hwf : well_formed d)
    (H1 : getitem d "PCA 1" = Ok c1)
    (H2 : getitem d "PCA 2" = Ok c2)
    (Hnum : forall v, In v (s_values c1) \/ In v (s_values c2) ->
                      exists q, v = VNum q) :
  (n_clusters < 1 \/ Z.of_nat (List.length (rows d)) < n_clusters ->
     fst (clustering d n_clusters g) = Raise ValueError)
  /\ (1 <= n_clusters <= Z.of_nat (List.length (rows d)) ->
      exists labels d',
        fst (clustering d n_clusters g) = Ok d'
        /\ getitem d' "Cluster"
           = Ok {| s_dtype := object_;
                   s_values := map (fun l => VStr (str_of_int l)) labels |}
        /\ List.length labels = List.length (rows d)
        /\ Forall (fun l => 0 <= l < n_clusters) labels
        /\ forall c, c <> "Cluster" -> getitem d' c = getitem d c).
Proof using Type. drop_library.
  pose proof (getitems_pair d "PCA 1" "PCA 2" c1 c2 H1 H2) as HX.
  set (X := map (fun p => [fst p; snd p]) (combine (s_values c1) (s_values c2))) in HX.
  assert (HlenX : List.length X = List.length (rows d)).
  { unfold X. rewrite length_map, length_combine.
    rewrite (getitem_length d "PCA 1" c1 H1), (getitem_length d "PCA 2" c2 H2).
    apply Nat.min_id. }
  split.
  - intros Hout. rewrite <- HlenX in Hout.
    pose proof (Hreject n_clusters 2 X (np_random_seed 0) Hout) as Hfit.
    unfold clustering. rewrite HX.
    destruct (MiniBatchKMeans_fit n_clusters 2 X (np_random_seed 0)) as [r g1].
    simpl in Hfit. subst r. reflexivity.
  - intros Hin. rewrite <- HlenX in Hin.
    destruct (Haccept n_clusters 2 X (np_random_seed 0) Hin)
      as (labels & Hfit & Hlen & Hrange).
    { intros r v Hr Hv. unfold X in Hr.
      apply in_map_iff in Hr as ([a b] & <- & Hab). simpl in Hv.
      destruct Hv as [<-|[<-|[]]]; apply Hnum.
      - left. now apply in_combine_l in Hab.
      - right. now apply in_combine_r in Hab. }
    rewrite HlenX in Hlen.
    destruct (getitem_setitem d "Cluster" object_
                (map (fun l => VStr (str_of_int l)) labels) Hwf)
      as (d' & Hset & Hget & _); [now rewrite length_map|].
    exists labels, d'.
    split; [|split; [exact Hget|split; [exact Hlen|split; [exact Hrange|]]]].
    + unfold clustering. rewrite HX.
      destruct (MiniBatchKMeans_fit n_clusters 2 X (np_random_seed 0)) as [r g1].
      simpl in Hfit. subst r. now rewrite Hset.
    + exact (proj2 (proj2 (setitem_other d d' "Cluster" object_ _ Hwf Hset))).
Qed.

(** What a successful [pca] has gone through. *)
Lemma pca_inv (d d2 : DataFrame) :
  pca d = Ok d2 ->
  exists X_scaled X_imp X_pca c1 c2 d1,
    MinMaxScaler_fit_transform (select_dtypes_number d) = Ok X_scaled
    /\ SimpleImputer_fit_transform "mean" X_scaled = Ok X_imp
    /\ PCA_fit_transform 2 X_imp = Ok X_pca
    /\ matrix_column 0 X_pca = Ok c1
    /\ matrix_column 1 X_pca = Ok c2
    /\ setitem d "PCA 1" float64 c1 = Ok d1
    /\ setitem d1 "PCA 2" float64 c2 = Ok d2.
Proof using Type. drop_library.
  unfold pca. cbv zeta. intros H.
  destruct (MinMaxScaler_fit_transform _) as [Xs|e] eqn:E1; cbn [bind] in H;
    [|discriminate].
  destruct (SimpleImputer_fit_transform "mean" Xs) as [Xi|e] eqn:E2;
    cbn [bind] in H; [|discriminate].
  destruct (PCA_fit_transform 2 Xi) as [M|e] eqn:E3; cbn [bind] in H;
    [|discriminate].
  destruct (matrix_column 0 M) as [c1|e] eqn:E4; cbn [bind] in H; [|discriminate].
  destruct (setitem d "PCA 1" float64 c1) as [d1|e] eqn:E5; cbn [bind] in H;
    [|discriminate].
  destruct (matrix_column 1 M) as [c2|e] eqn:E6; cbn [bind] in H; [|discriminate].
  exists Xs, Xi, M, c1, c2, d1. repeat split; assumption.
Qed.

(** X20.  On a well-formed table, a successful [pca] returns a
    well-formed table with as many rows, in which 'PCA 1' and 'PCA 2' are
    float columns holding the first and the second column of the matrix
    the projection returned, and every other column is what it was. *)
Theorem pca_adds_two_columns
    (d d2 : DataFrame)
    (Hwf : well_formed d)
    (H : pca d = Ok d2) :
  well_formed d2
  /\ List.length (rows d2) = List.length (rows d)
  /\ (forall c, c <> "PCA 1" -> c <> "PCA 2" -> getitem d2 c = getitem d c)
  /\ exists X_scaled X_imp X_pca c1 c2,
       MinMaxScaler_fit_transform (select_dtypes_number d) = Ok X_scaled
       /\ SimpleImputer_fit_transform "mean" X_scaled = Ok X_imp
       /\ PCA_fit_transform 2 X_imp = Ok X_pca
       /\ matrix_column 0 X_pca = Ok c1
       /\ matrix_column 1 X_pca = Ok c2
       /\ getitem d2 "PCA 1" = Ok {| s_dtype := float64; s_values := c1 |}
       /\ getitem d2 "PCA 2" = Ok {| s_dtype := float64; s_values := c2 |}.
Proof using Type. drop_library.
  destruct (pca_inv d d2 H) as (Xs & Xi & M & c1 & c2 & d1 & E1 & E2 & E3 & E4 & E5 & S1 & S2).
  destruct (setitem_other d d1 "PCA 1" float64 c1 Hwf S1) as (Hwf1 & Hr1 & Ho1).
  destruct (setitem_other d1 d2 "PCA 2" float64 c2 Hwf1 S2) as (Hwf2 & Hr2 & Ho2).
  destruct (setitem_getitem d d1 "PCA 1" float64 c1 Hwf S1) as [G1 _].
  destruct (setitem_getitem d1 d2 "PCA 2" float64 c2 Hwf1 S2) as [G2 _].
  split; [exact Hwf2|]. split; [congruence|]. split.
  - intros c N1 N2. rewrite Ho2, Ho1; auto.
  - exists Xs, Xi, M, c1, c2. repeat split; try assumption.
    rewrite Ho2; [exact G1|discriminate].
Qed.

(** X21.  After a successful [pca] on a well-formed table, [clustering]
    finds both projection columns: it seeds the generator with 0 and
    hands the fit exactly the rows of the two projected columns, and its
    outcome is the fit's exception or the table with the labels'
    texts assigned to 'Cluster'. *)
Theorem pca_then_clustering
    (d d2 : DataFrame) (n_clusters : Z) (g : rng)
    (Hwf : well_formed d)
    (H : pca d = Ok d2) :
  exists c1 c2,
    getitem d2 "PCA 1" = Ok {| s_dtype := float64; s_values := c1 |}
    /\ getitem d2 "PCA 2" = Ok {| s_dtype := float64; s_values := c2 |}
    /\ List.length c1 = List.length (rows d)
    /\ List.length c2 = List.length (rows d)
    /\ clustering d2 n_clusters g
       = match MiniBatchKMeans_fit n_clusters 2
                 (map (fun p => [fst p; snd p]) (combine c1 c2))
                 (np_random_seed 0) with
         | (Raise e, g1) => (Raise e, g1)
         | (Ok labels_, g1) =>
             (setitem d2 "Cluster" object_
                (map (fun l => VStr (str_of_int l)) labels_), g1)
         end.
Proof using Type. drop_library.
  destruct (pca_inv d d2 H) as (Xs & Xi & M & c1 & c2 & d1 & _ & _ & _ & _ & _ & S1 & S2).
  destruct (setitem_other d d1 "PCA 1" float64 c1 Hwf S1) as (Hwf1 & Hr1 & _).
  destruct (setitem_other d1 d2 "PCA 2" float64 c2 Hwf1 S2) as (_ & _ & Ho2).
  destruct (setitem_getitem d d1 "PCA 1" float64 c1 Hwf S1) as [G1 L1].
  destruct (setitem_getitem d1 d2 "PCA 2" float64 c2 Hwf1 S2) as [G2 L2].
  assert (G1' : getitem d2 "PCA 1" = Ok {| s_dtype := float64; s_values := c1 |}).
  { rewrite Ho2; [exact G1|discriminate]. }
  exists c1, c2. repeat split; try assumption; try congruence.
  unfold clustering. rewrite (getitems_pair d2 "PCA 1" "PCA 2" _ _ G1' G2).
  reflexivity.
Qed.

End Explorer.

Arguments clustering {rng} np_random_seed MiniBatchKMeans_fit df n_clusters g.

(** ** Concrete runs *)

(** A four-entry table standing in for [Turbo256] and a number printer. *)
Definition sample_palette : list string :=
  ["#30123b"; "#311542"; "#32184a"; "#341b51"].

Definition sample_num_text (q : Q) : string :=
  str_of_int (Qnum q) ++ "/" ++ str_of_int (Zpos (Qden q)).

(** A generator whose state is a number, and a fit that checks the
    cluster count against the number of rows, as scikit-learn does,
    labels with the help of the state and advances it. *)
Definition counter_seed (seed : Z) : Z := seed.

Definition counter_fit (n_clusters n_init : Z) (X : list (list value)) (g : Z)
  : result (list Z) * Z :=
  if (n_clusters <? 1) || (Z.of_nat (List.length X) <? n_clusters)
  then (Raise ValueError, g)
  else (Ok (map (fun i => (Z.of_nat i * n_clusters / Z.of_nat (List.length X) + g)
                          mod n_clusters)
                (seq 0 (List.length X))), g + 1).

(** The session right after startup on [sample_df]. *)
Definition sample_session : Session :=
  Eval vm_compute in
    match startup sample_palette sample_num_text sample_df as r
          return match r with Ok _ => Session | Raise _ => unit end
    with
    | Ok st => st
    | Raise _ => tt
    end.

Lemma sample_session_startup :
  startup sample_palette sample_num_text sample_df = Ok sample_session.
Proof. vm_compute. reflexivity. Qed.

(** The amended C1 at the spec's scenario: 'NoSuchColumn' after startup. *)
Lemma update_pca_col_unknown_column_witness :
  update_pca_col sample_palette sample_num_text
    "value" "Market Cap" "NoSuchColumn" sample_session
  = (set_pca_ft sample_session "NoSuchColumn",
     Raise (KeyError (VStr "NoSuchColumn"))).
Proof.
  apply (update_pca_col_unknown_column sample_palette sample_num_text
           "value" "Market Cap" "NoSuchColumn" sample_session).
  simpl. intuition discriminate.
Defined.

(** C1 as stated fails: the rejected name replaces the colour feature. *)
Lemma update_pca_col_unknown_column_overwrites :
  snd (update_pca_col sample_palette sample_num_text
         "value" "Market Cap" "NoSuchColumn" sample_session)
  = Raise (KeyError (VStr "NoSuchColumn"))
  /\ pca_ft_selected sample_session = "Market Cap"
  /\ pca_ft_selected
       (fst (update_pca_col sample_palette sample_num_text
               "value" "Market Cap" "NoSuchColumn" sample_session))
     = "NoSuchColumn"
  /\ fst (update_pca_col sample_palette sample_num_text
            "value" "Market Cap" "NoSuchColumn" sample_session)
     <> sample_session.
Proof.
  repeat split. intros H.
  apply (f_equal pca_ft_selected) in H. discriminate H.
Qed.

(** C5 on 'Market Cap' of [sample_df]. *)
Lemma draw_hist_shared_edges_witness :
  exists spec0,
    draw_hist sample_df "Market Cap" [] = Ok spec0
    /\ h_all spec0 = bin_counts (linspace 100 200 51) [100; 200]%Q
    /\ h_selected spec0 = repeat 0 50
    /\ h_left spec0 = removelast (linspace 100 200 51)
    /\ h_right spec0 = tl (linspace 100 200 51).
Proof.
  apply (draw_hist_shared_edges sample_df "Market Cap"
           {| s_dtype := float64; s_values := [VNum 100; VNum 200] |}
           (bin_counts (linspace 100 200 51) [100; 200]%Q)
           (linspace 100 200 51)).
  - reflexivity.
  - vm_compute. reflexivity.
Defined.






(** C9 on the date column of [flags_df]. *)
Lemma draw_subplot_dtype_dispatch_witness :
  draw_subplot sample_palette sample_num_text flags_df "Founded" [0]
  = Raise (UnboundLocalError "sub_p").
Proof.
  apply (proj1 (draw_subplot_dtype_dispatch sample_palette sample_num_text
                  flags_df "Founded" [0]
                  {| s_dtype := datetime64; s_values := [VNum 2281; VNum 1920] |}
                  eq_refl)); reflexivity.
Defined.

(** C9 as stated fails on a boolean column: it is numeric to
    [is_numeric_dtype], and the subplot is a histogram of 0s and 1s. *)
Lemma draw_subplot_boolean_column_draws :
  getitem flags_df "Listed"
  = Ok {| s_dtype := bool_; s_values := [VBool true; VBool false] |}
  /\ is_numeric_dtype bool_ = true
  /\ exists h,
       draw_subplot sample_palette sample_num_text flags_df "Listed" [0]
       = Ok (Hist h)
       /\ h_title h = "Histogram of Listed".
Proof.
  split; [reflexivity|]. split; [reflexivity|].
  eexists. split; [vm_compute; reflexivity|reflexivity].
Qed.

(** Two runs from different generator states: the same labels, and the
    labels a run without reseeding would not have given from state 1. *)
Lemma clustering_two_runs :
  clustering counter_seed counter_fit projected_df 2 5
  = clustering counter_seed counter_fit projected_df 2 8
  /\ (exists d',
        fst (clustering counter_seed counter_fit projected_df 2 5) = Ok d'
        /\ getitem d' "Cluster"
           = Ok {| s_dtype := object_;
                   s_values := [VStr "0"; VStr "0"; VStr "1"; VStr "1"] |})
  /\ fst (counter_fit 2 2 [[VNum 0; VNum 0]; [VNum 0; VNum 1];
                           [VNum 10; VNum 10]; [VNum 10; VNum 11]] 1)
     = Ok [1; 1; 0; 0].
Proof.
  split; [reflexivity|]. split; [|reflexivity].
  eexists. split; vm_compute; reflexivity.
Qed.

(** [counter_fit] keeps the contract of the cluster count. *)
Lemma counter_fit_rejects_count : fit_rejects_count Z counter_fit.
Proof.
  intros n n_init X g Hout. unfold counter_fit.
  destruct ((n <? 1) || (Z.of_nat (List.length X) <? n)) eqn:E; [reflexivity|].
  apply orb_false_elim in E as [E1 E2].
  apply Z.ltb_ge in E1. apply Z.ltb_ge in E2. lia.
Defined.

Lemma counter_fit_labels_every_row : fit_labels_every_row Z counter_fit.
Proof.
  intros n n_init X g Hin _. unfold counter_fit.
  destruct ((n <? 1) || (Z.of_nat (List.length X) <? n)) eqn:E.
  - apply orb_true_elim in E as [E|E]; apply Z.ltb_lt in E; lia.
  - eexists. split; [reflexivity|]. split.
    + now rewrite length_map, length_seq.
    + apply Forall_forall. intros l Hl. apply in_map_iff in Hl as (i & <- & _).
      apply Z.mod_pos_bound. lia.
Defined.

(** The amended C6 on [projected_df], four rows, with 2 and with 5
    clusters. *)
Lemma clustering_cluster_count_range_witness :
  fst (clustering counter_seed counter_fit projected_df 5 41) = Raise ValueError
  /\ exists labels d',
       fst (clustering counter_seed counter_fit projected_df 2 41) = Ok d'
       /\ getitem d' "Cluster"
          = Ok {| s_dtype := object_;
                  s_values := map (fun l => VStr (str_of_int l)) labels |}
       /\ List.length labels = 4%nat
       /\ Forall (fun l => 0 <= l < 2) labels
       /\ forall c, c <> "Cluster" -> getitem d' c = getitem projected_df c.
Proof.
  assert (Hwf : well_formed projected_df).
  { intros r Hr. simpl in Hr.
    destruct Hr as [<-|[<-|[<-|[<-|[]]]]]; reflexivity. }
  assert (Hnum : forall v,
            In v [VNum 0; VNum 0; VNum 10; VNum 10]
            \/ In v [VNum 0; VNum 1; VNum 10; VNum 11] ->
            exists q, v = VNum q).
  { intros v [H|H]; simpl in H;
      destruct H as [<-|[<-|[<-|[<-|[]]]]]; eexists; reflexivity. }
  split.
  - apply (proj1 (clustering_cluster_count_range Z counter_seed counter_fit
                    projected_df 5 41
                    {| s_dtype := float64;
                       s_values := [VNum 0; VNum 0; VNum 10; VNum 10] |}
                    {| s_dtype := float64;
                       s_values := [VNum 0; VNum 1; VNum 10; VNum 11] |}
                    counter_fit_rejects_count counter_fit_labels_every_row
                    Hwf eq_refl eq_refl Hnum)).
    right. simpl. lia.
  - apply (proj2 (clustering_cluster_count_range Z counter_seed counter_fit
                    projected_df 2 41
                    {| s_dtype := float64;
                       s_values := [VNum 0; VNum 0; VNum 10; VNum 10] |}
                    {| s_dtype := float64;
                       s_values := [VNum 0; VNum 1; VNum 10; VNum 11] |}
                    counter_fit_rejects_count counter_fit_labels_every_row
                    Hwf eq_refl eq_refl Hnum)).
    simpl. lia.
Defined.

(** C6 as stated fails in the error it names.  For 0 clusters, and for 5
    clusters on 4 rows, the outcome of [clustering] is the [ValueError]
    the fit raises for the same arguments, and the generator has already
    been reseeded (state 41 before the call, 0 after): the count is
    rejected inside [model.fit], after [np.random.seed(0)], and not by a
    check or an error of [clustering] itself. *)
Lemma clustering_raises_the_fit_error :
  clustering counter_seed counter_fit projected_df 0 41 = (Raise ValueError, 0)
  /\ counter_fit 0 2 [[VNum 0; VNum 0]; [VNum 0; VNum 1];
                      [VNum 10; VNum 10]; [VNum 10; VNum 11]] (counter_seed 0)
     = (Raise ValueError, 0)
  /\ clustering counter_seed counter_fit projected_df 5 41 = (Raise ValueError, 0)
  /\ counter_fit 5 2 [[VNum 0; VNum 0]; [VNum 0; VNum 1];
                      [VNum 10; VNum 10]; [VNum 10; VNum 11]] (counter_seed 0)
     = (Raise ValueError, 0)
  /\ getitems projected_df ["PCA 1"; "PCA 2"]
     = Ok [[VNum 0; VNum 0]; [VNum 0; VNum 1];
           [VNum 10; VNum 10]; [VNum 10; VNum 11]].
Proof. repeat split. Qed.

(** ** Further concrete runs *)

(** A table with a missing cell, a table with a date column, a raw table
    before [pca], and three transformers: a scaler and an imputer that
    return the matrix as it is and a projection onto the first two
    columns. *)
Definition gaps_df : DataFrame :=
  {| columns := [("Symbol", object_); ("Beta", float64)];
     rows := [[VStr "AAPL"; VNum (5 # 4)]; [VStr "MSFT"; VNaN]] |}.

Definition dated_df : DataFrame :=
  {| columns := [("Symbol", object_); ("Market Cap", float64);
                 ("Mean Recommendation", float64); ("Founded", datetime64)];
     rows := [[VStr "AAPL"; VNum 100; VNum (3 # 2); VNum 2281];
              [VStr "MSFT"; VNum (-5); VNum 2; VNum 1920]] |}.

Definition raw_df : DataFrame :=
  {| columns := [("Symbol", object_); ("Market Cap", float64);
                 ("Mean Recommendation", float64)];
     rows := [[VStr "AAPL"; VNum 100; VNum (3 # 2)];
              [VStr "MSFT"; VNum 200; VNum 2]] |}.

Definition plain_scaler (X : list (list value)) : result (list (list value)) :=
  Ok X.

Definition plain_imputer (strategy : string) (X : list (list value))
  : result (list (list value)) := Ok X.

Definition leading_columns (n_components : Z) (X : list (list value))
  : result (list (list value)) :=
  Ok (map (firstn (Z.to_nat n_components)) X).

Definition dated_session : Session :=
  Eval vm_compute in
    match startup sample_palette sample_num_text dated_df as r
          return match r with Ok _ => Session | Raise _ => unit end
    with
    | Ok st => st
    | Raise _ => tt
    end.

Lemma dated_session_startup :
  startup sample_palette sample_num_text dated_df = Ok dated_session.
Proof. vm_compute. reflexivity. Qed.

(** C5 as stated fails on a numeric column with a missing cell: for
    'Beta' of [gaps_df] the histogram over all rows has no finite range,
    and the empty selection, like every other, ends in [ValueError]. *)
Lemma draw_hist_empty_selection_raises :
  getitem gaps_df "Beta"
  = Ok {| s_dtype := float64; s_values := [VNum (5 # 4); VNaN] |}
  /\ is_numeric_dtype float64 = true
  /\ histogram [VNum (5 # 4); VNaN] (BinCount 50) = Raise ValueError
  /\ draw_hist gaps_df "Beta" [] = Raise ValueError
  /\ draw_hist gaps_df "Beta" [0] = Raise ValueError
  /\ draw_subplot sample_palette sample_num_text gaps_df "Beta" []
     = Raise ValueError.
Proof. repeat split. Qed.

(** X1 on a selection with a repeated and a negative position. *)
Lemma draw_hist_counts_every_row_witness :
  exists spec,
    draw_hist sample_df "Market Cap" [1; 1; -1] = Ok spec
    /\ Zsum (h_all spec) = 2
    /\ Zsum (h_selected spec) = 3.
Proof.
  eexists. split; [vm_compute; reflexivity|].
  refine (draw_hist_counts_every_row sample_df "Market Cap" [1; 1; -1] _ _).
  vm_compute. reflexivity.
Defined.

(** X2 on 'Mean Recommendation' of [sample_df]. *)
Lemma draw_hist_bins_tile_range_witness :
  exists spec,
    draw_hist sample_df "Mean Recommendation" [0] = Ok spec
    /\ List.length (h_left spec) = 50%nat
    /\ List.length (h_right spec) = 50%nat
    /\ tl (h_left spec) = removelast (h_right spec).
Proof.
  eexists. split; [vm_compute; reflexivity|].
  pose proof (draw_hist_bins_tile_range sample_df "Mean Recommendation" [0] _
                ltac:(vm_compute; reflexivity)) as (H1 & H2 & H3 & _).
  exact (conj H1 (conj H2 H3)).
Defined.

(** X3: position 2 in a table of two rows. *)
Lemma subplot_position_out_of_range_witness :
  draw_hist sample_df "Market Cap" [0; 2] = Raise IndexError
  /\ draw_bar_chart sample_palette sample_num_text sample_df "Cluster" [0; 2]
     = Raise IndexError.
Proof.
  split.
  - apply (subplot_position_out_of_range sample_palette sample_num_text
             sample_df "Market Cap" [0; 2] 2); simpl; [tauto|lia].
  - apply (subplot_position_out_of_range sample_palette sample_num_text
             sample_df "Cluster" [0; 2] 2); simpl; [tauto|lia].
Defined.

(** X4 on the column 'Beta' of [gaps_df], nothing selected. *)
Lemma draw_hist_missing_value_witness :
  draw_hist gaps_df "Beta" [] = Raise ValueError
  /\ draw_subplot sample_palette sample_num_text gaps_df "Beta" []
     = Raise ValueError.
Proof.
  destruct (draw_hist_missing_value sample_palette sample_num_text
              gaps_df "Beta" []
              {| s_dtype := float64; s_values := [VNum (5 # 4); VNaN] |})
    as [H1 H2].
  - reflexivity.
  - intros v [<-|[<-|[]]]; reflexivity.
  - simpl. tauto.
  - intros i [].
  - split; [exact H1|]. apply H2. reflexivity.
Defined.

(** X5 on 'Cluster' of [sample_df] with nothing selected. *)
Lemma draw_bar_chart_columns_line_up_witness :
  exists b,
    draw_bar_chart sample_palette sample_num_text sample_df "Cluster" [] = Ok b
    /\ b_x b = (b_x_range b ++ b_x_range b)%list
    /\ List.length (b_counts b) = (2 * List.length (b_x_range b))%nat.
Proof.
  eexists. split; [vm_compute; reflexivity|].
  pose proof (draw_bar_chart_columns_line_up sample_palette sample_num_text
                sample_df "Cluster" [] _ ltac:(vm_compute; reflexivity))
    as (_ & H1 & _ & H2 & _).
  exact (conj H1 H2).
Defined.

(** X6 on 'Cluster' of [sample_df]. *)
Lemma draw_bar_chart_all_counts_witness :
  exists b,
    draw_bar_chart sample_palette sample_num_text sample_df "Cluster" [] = Ok b
    /\ Zsum (firstn (List.length (b_x_range b)) (b_counts b)) = 2.
Proof.
  eexists. split; [vm_compute; reflexivity|].
  pose proof (draw_bar_chart_all_counts sample_palette sample_num_text
                sample_df "Cluster" [] _
                {| s_dtype := object_; s_values := [VStr "0"; VStr "1"] |}
                ltac:(vm_compute; reflexivity) eq_refl)
    as (H1 & _).
  exact H1.
Defined.

(** X7 on 'Cluster' of [sample_df]. *)
Lemma draw_bar_chart_nothing_selected_witness :
  exists b,
    draw_bar_chart sample_palette sample_num_text sample_df "Cluster" [] = Ok b
    /\ skipn (List.length (b_x_range b)) (b_counts b) = [0; 0].
Proof.
  eexists. split; [vm_compute; reflexivity|].
  refine (draw_bar_chart_nothing_selected sample_palette sample_num_text
            sample_df "Cluster" _ _).
  vm_compute. reflexivity.
Defined.

(** X8 on 'Market Cap' of [dated_df], which holds a negative value: the
    scale is linear, from -5 to 100. *)
Lemma create_cmap_numeric_scale_witness :
  exists lo hi,
    In lo [VNum 100; VNum (-5)]
    /\ In hi [VNum 100; VNum (-5)]
    /\ (forall v, In v [VNum 100; VNum (-5)] ->
          value_ltb v lo = false /\ value_ltb hi v = false)
    /\ create_cmap sample_palette sample_num_text dated_df "Market Cap"
       = Ok (linear_cmap "Market Cap" sample_palette lo hi, None).
Proof.
  apply (create_cmap_numeric_scale sample_palette sample_num_text
           dated_df "Market Cap"
           {| s_dtype := float64; s_values := [VNum 100; VNum (-5)] |}).
  - reflexivity.
  - reflexivity.
  - intros v [<-|[<-|[]]]; eexists; reflexivity.
  - discriminate.
Defined.

(** X10 on 'Cluster' of [sample_df]. *)
Lemma create_cmap_factors_witness :
  exists x y,
    factor_cmap "Cluster" (PSeq ["#000000"; "#FFFFFF"]) ["0"; "1"]
    = factor_cmap "Cluster" (PSeq ["#000000"; "#FFFFFF"]) [x; y]
    /\ Some [("0", "#000000"); ("1", "#FFFFFF")]
       = Some [(x, "#000000"); (y, "#FFFFFF")]
    /\ str_lt x y
    /\ (forall z, z = x \/ z = y <->
          exists v, In v [VStr "0"; VStr "1"] /\ astype_str sample_num_text v = z)
    /\ (In VNaN [VStr "0"; VStr "1"] -> x = "nan" \/ y = "nan").
Proof.
  apply (create_cmap_factors sample_palette sample_num_text sample_df "Cluster"
           {| s_dtype := object_; s_values := [VStr "0"; VStr "1"] |}
           (factor_cmap "Cluster" (PSeq ["#000000"; "#FFFFFF"]) ["0"; "1"])
           (Some [("0", "#000000"); ("1", "#FFFFFF")]));
    reflexivity.
Defined.

(** X11: the colour feature switched to 'Cluster' after startup. *)
Lemma update_pca_col_repaints_witness :
  exists st',
    update_pca_col sample_palette sample_num_text
      "value" "Market Cap" "Cluster" sample_session = (st', Ok tt)
    /\ dict_get "label" (p_pca_source st') = Some [VStr "0"; VStr "1"]
    /\ dict_get "Market Cap" (p_pca_source st') = Some [VNum 100; VNum 200].
Proof.
  eexists. split; [vm_compute; reflexivity|].
  destruct (update_pca_col_repaints sample_palette sample_num_text
              "value" "Market Cap" "Cluster" sample_session _
              ltac:(vm_compute; reflexivity))
    as (a & Ha & _ & Hl & Hk & _).
  split.
  - rewrite Hl. f_equal. vm_compute in Ha. now inversion Ha.
  - rewrite Hk by discriminate. reflexivity.
Defined.

(** X12: the colour feature switched to the date column 'Founded'. *)
Lemma update_pca_col_undrawable_dtype_witness :
  snd (update_pca_col sample_palette sample_num_text
         "value" "Market Cap" "Founded" dated_session)
  = Raise (UnboundLocalError "mapper")
  /\ pca_ft_selected
       (fst (update_pca_col sample_palette sample_num_text
               "value" "Market Cap" "Founded" dated_session)) = "Founded"
  /\ dict_get "label"
       (p_pca_source
          (fst (update_pca_col sample_palette sample_num_text
                  "value" "Market Cap" "Founded" dated_session)))
     = Some [VNum 2281; VNum 1920]
  /\ layout_p_pca
       (fst (update_pca_col sample_palette sample_num_text
               "value" "Market Cap" "Founded" dated_session))
     = layout_p_pca dated_session.
Proof.
  destruct (update_pca_col_undrawable_dtype sample_palette sample_num_text
              "value" "Market Cap" "Founded" dated_session
              {| s_dtype := datetime64; s_values := [VNum 2281; VNum 1920] |}
              eq_refl eq_refl eq_refl)
    as (E & H1 & H2 & H3).
  split; [now rewrite E|]. split; [exact H2|]. split; [exact H3|exact H1].
Defined.

(** X13: the subplot feature switched to a name that is no column. *)
Lemma update_sub_col_unknown_column_witness :
  update_sub_col sample_palette sample_num_text
    "value" "Mean Recommendation" "NoSuchColumn" sample_session
  = (set_sub_ft sample_session "NoSuchColumn",
     Raise (KeyError (VStr "NoSuchColumn"))).
Proof.
  apply (update_sub_col_unknown_column sample_palette sample_num_text
           "value" "Mean Recommendation" "NoSuchColumn" sample_session).
  simpl. intuition discriminate.
Defined.

(** X15 on four callbacks after startup, two of which fail. *)
Lemma session_invariant_witness :
  let cs := [on_pca_col "value" "Market Cap" "Cluster";
             on_pca_col "value" "Cluster" "NoSuchColumn";
             on_lasso "indices" (Selection []) (Selection [0; 7]);
             on_sub_col "value" "Mean Recommendation" "Market Cap"] in
  df (run sample_palette sample_num_text cs sample_session) = df sample_session
  /\ map fst (p_pca_source (run sample_palette sample_num_text cs sample_session))
     = ["index"; "Symbol"; "Market Cap"; "Mean Recommendation"; "PCA 1"; "PCA 2";
        "Cluster"; "label"]
  /\ dict_get "index"
       (p_pca_source (run sample_palette sample_num_text cs sample_session))
     = Some [VNum 0; VNum 1]
  /\ dict_get "Cluster"
       (p_pca_source (run sample_palette sample_num_text cs sample_session))
     = Some [VStr "0"; VStr "1"]
  /\ pca_ft_selected (run sample_palette sample_num_text cs sample_session)
     = "NoSuchColumn"
  /\ points_selected (run sample_palette sample_num_text cs sample_session)
     = [0; 7].
Proof.
  cbv zeta.
  destruct (session_invariant sample_palette sample_num_text sample_df
              sample_session
              [on_pca_col "value" "Market Cap" "Cluster";
               on_pca_col "value" "Cluster" "NoSuchColumn";
               on_lasso "indices" (Selection []) (Selection [0; 7]);
               on_sub_col "value" "Mean Recommendation" "Market Cap"]
              sample_session_startup)
    as (D & N & _ & K).
  split; [exact D|]. split; [exact N|].
  split; [rewrite K by discriminate; reflexivity|].
  split; [|split; vm_compute; reflexivity].
  rewrite K by discriminate. reflexivity.
Defined.

(** X16 on [sample_df]. *)
Lemma startup_nothing_selected_witness :
  points_selected sample_session = []
  /\ match layout_p_sub sample_session with
     | Hist h => h_selected h = repeat 0 50
     | Bar b =>
         skipn (List.length (b_x_range b)) (b_counts b)
         = repeat 0 (List.length (b_x_range b))
     end.
Proof.
  destruct (startup_nothing_selected sample_palette sample_num_text
              sample_df sample_session sample_session_startup)
    as (H1 & _ & _ & _ & H2).
  exact (conj H1 H2).
Defined.


(** X18 on [raw_df], which has not been projected, and on a table that
    has only the first projection column. *)
Lemma clustering_missing_projection_witness :
  (exists msg,
     getitems raw_df ["PCA 1"; "PCA 2"] = Raise (KeyError (VStr msg))
     /\ clustering counter_seed counter_fit raw_df 2 41
        = (Raise (KeyError (VStr msg)), 41))
  /\ getitems raw_df ["PCA 1"; "PCA 2"]
     = Raise (KeyError (VStr
         "None of [Index(['PCA 1', 'PCA 2'], dtype='object')] are in the [columns]"))
  /\ getitems {| columns := [("PCA 1", float64)]; rows := [[VNum 0]] |}
                ["PCA 1"; "PCA 2"]
     = Raise (KeyError (VStr "['PCA 2'] not in index")).
Proof.
  split; [|split; reflexivity].
  apply (clustering_missing_projection Z counter_seed counter_fit raw_df 2 41).
  left. simpl. intuition discriminate.
Defined.

(** X19 on [projected_df] with two clusters. *)
Lemma clustering_keeps_columns_witness :
  exists d',
    clustering counter_seed counter_fit projected_df 2 41 = (Ok d', 1)
    /\ well_formed d'
    /\ List.length (rows d') = List.length (rows projected_df)
    /\ forall c, c <> "Cluster" -> getitem d' c = getitem projected_df c.
Proof.
  apply (clustering_keeps_columns Z counter_seed counter_fit projected_df 2 41 1
           [[VNum 0; VNum 0]; [VNum 0; VNum 1];
            [VNum 10; VNum 10]; [VNum 10; VNum 11]]
           [0; 0; 1; 1]).
  - intros r Hr. simpl in Hr.
    destruct Hr as [<-|[<-|[<-|[<-|[]]]]]; reflexivity.
  - reflexivity.
  - reflexivity.
  - reflexivity.
Defined.

Lemma raw_df_well_formed : well_formed raw_df.
Proof.
  intros r Hr. simpl in Hr. destruct Hr as [<-|[<-|[]]]; reflexivity.
Qed.

(** X20 on [raw_df]. *)
Lemma pca_adds_two_columns_witness :
  exists d2,
    pca plain_scaler plain_imputer leading_columns raw_df = Ok d2
    /\ List.length (rows d2) = 2%nat
    /\ getitem d2 "Symbol" = getitem raw_df "Symbol"
    /\ column_names d2
       = ["Symbol"; "Market Cap"; "Mean Recommendation"; "PCA 1"; "PCA 2"].
Proof.
  eexists. split; [vm_compute; reflexivity|].
  destruct (pca_adds_two_columns plain_scaler plain_imputer leading_columns
              raw_df _ raw_df_well_formed ltac:(vm_compute; reflexivity))
    as (_ & H1 & H2 & _).
  split; [exact H1|]. split; [|reflexivity].
  apply H2; discriminate.
Defined.

(** X21 on [raw_df]: the fit sees the two projected columns. *)
Lemma pca_then_clustering_witness :
  exists d2 c1 c2,
    pca plain_scaler plain_imputer leading_columns raw_df = Ok d2
    /\ getitem d2 "PCA 1" = Ok {| s_dtype := float64; s_values := c1 |}
    /\ getitem d2 "PCA 2" = Ok {| s_dtype := float64; s_values := c2 |}
    /\ clustering counter_seed counter_fit d2 2 41
       = match counter_fit 2 2 (map (fun p => [fst p; snd p]) (combine c1 c2))
                 (counter_seed 0) with
         | (Raise e, g1) => (Raise e, g1)
         | (Ok labels_, g1) =>
             (setitem d2 "Cluster" object_
                (map (fun l => VStr (str_of_int l)) labels_), g1)
         end.
Proof.
  eexists.
  destruct (pca_then_clustering Z counter_seed counter_fit
              plain_scaler plain_imputer leading_columns
              raw_df _ 2 41 raw_df_well_formed
              ltac:(vm_compute; reflexivity))
    as (c1 & c2 & G1 & G2 & _ & _ & E).
  exists c1, c2. split; [vm_compute; reflexivity|].
  split; [exact G1|]. split; [exact G2|exact E].
Defined.
